(** * sshtunnel: configuration resolution and interrupt handling

    A shallow embedding of the configuration engine of [sshtunnel.py]
    (primitive validators, [TunnelConfig], [Tunnel]) and of the
    [KillEventHandler] signal handler, with the properties the
    specification states about them.

    Python exceptions are values of [exn]; a computation that may raise
    has type [except A].  Dictionaries are [gmap]s where the code looks
    keys up, and lists of items where it goes through them and the
    order shows, as in [_check_config]: the order is that of the
    interpreter, which Python 2 does not specify.  The list of declared
    sections keeps its order. *)

From Stdlib Require Import ZArith Ascii String List Lia DecimalString Sorted.
From stdpp Require Import base option list gmap strings fin_maps.

Local Open Scope string_scope.
Local Open Scope list_scope.
Local Open Scope Z_scope.

(* ===================================================================== *)
(** * Exceptions *)
(* ===================================================================== *)

(** The exception classes the modelled code raises or lets through. *)
Inductive exn : Type :=
  | ConfigError (msg : string)
  | RuntimeError (msg : string)
  | ValueError
  | TypeError (msg : string)
  | OverflowError
  | KeyError (key : string)
  | IndexError
  | AttributeError (attr : string)
  | IOError
  | SocketError
  | KeyboardInterrupt.

Inductive except (A : Type) : Type :=
  | Ok (a : A)
  | Raise (e : exn).
Arguments Ok {A} a.
Arguments Raise {A} e.

#[global] Instance except_ret : MRet except := fun A a => Ok a.
#[global] Instance except_bind : MBind except := fun A B k m =>
  match m with
  | Ok a => k a
  | Raise e => Raise e
  end.

(** [except StandardError]: everything but [KeyboardInterrupt]. *)
Definition is_StandardError (e : exn) : bool :=
  match e with
  | KeyboardInterrupt => false
  | _ => true
  end.

Definition is_ConfigError (e : exn) : bool :=
  match e with
  | ConfigError _ => true
  | _ => false
  end.

(** What the interpreter raises when calls nest deeper than it allows:
    a [RuntimeError], of the subclass [RecursionError] in Python 3. *)
Definition RecursionError : exn :=
  RuntimeError "maximum recursion depth exceeded".

Definition returns {A} (m : except A) : Prop := exists a, m = Ok a.

(** Left-to-right loop with early exit on the first exception. *)
Fixpoint foldM {A B} (f : B -> A -> except B) (acc : B) (l : list A) : except B :=
  match l with
  | [] => Ok acc
  | x :: r => acc' ← f acc x; foldM f acc' r
  end.

(* ===================================================================== *)
(** * Python strings *)
(* ===================================================================== *)

Module PyStr.

Definition is_upper (c : ascii) : bool :=
  let n := nat_of_ascii c in (65 <=? n)%nat && (n <=? 90)%nat.

Definition lower_char (c : ascii) : ascii :=
  if is_upper c then ascii_of_nat (nat_of_ascii c + 32) else c.

(** [s.lower()] *)
Fixpoint lower (s : string) : string :=
  match s with
  | EmptyString => EmptyString
  | String c r => String (lower_char c) (lower r)
  end.

(** The characters [str.strip()] and the regular expression class
    [\s] remove: space, tab, newline, carriage return, VT, FF.  These
    are the white space of Python 2; Python 3 adds the separators 28
    to 31 and characters outside ASCII, which plain text does not
    have. *)
Definition is_space (c : ascii) : bool :=
  let n := nat_of_ascii c in
  (n =? 32)%nat || ((9 <=? n)%nat && (n <=? 13)%nat).

Fixpoint lstrip (s : string) : string :=
  match s with
  | EmptyString => EmptyString
  | String c r => if is_space c then lstrip r else s
  end.

Fixpoint rstrip (s : string) : string :=
  match s with
  | EmptyString => EmptyString
  | String c r =>
      match rstrip r with
      | EmptyString => if is_space c then EmptyString else String c EmptyString
      | r' => String c r'
      end
  end.

(** [s.strip()] *)
Definition strip (s : string) : string := rstrip (lstrip s).

(** [c in s] for a one-character [c]. *)
Fixpoint contains (c : ascii) (s : string) : bool :=
  match s with
  | EmptyString => false
  | String d r => if Ascii.eqb d c then true else contains c r
  end.

(** [s.split(sep, maxsplit)] for a one-character separator: at most
    [maxsplit] cuts, hence at most [maxsplit + 1] pieces. *)
Fixpoint split (sep : ascii) (maxsplit : nat) (s : string) : list string :=
  match s with
  | EmptyString => [EmptyString]
  | String c r =>
      if Ascii.eqb c sep then
        match maxsplit with
        | O => [s]
        | S m => EmptyString :: split sep m r
        end
      else
        match split sep maxsplit r with
        | [] => [String c EmptyString]
        | h :: t => String c h :: t
        end
  end.

(** [sep.join(l)] *)
Definition join (sep : string) (l : list string) : string := String.concat sep l.

(** [x in l] for a list of strings. *)
Definition mem (x : string) (l : list string) : bool := bool_decide (x ∈ l).

End PyStr.

(* ===================================================================== *)
(** * KillEventHandler *)
(* ===================================================================== *)

Module KillEventHandler.

(** Time stamps ([datetime.utcnow()]) and durations in microseconds. *)
Definition INTERVAL : Z := 1000000.
Definition EVENT_COUNT : nat := 3.

(** What a call of the handler ends in: [os._exit(1)] or the raise
    of [KeyboardInterrupt]. *)
Inductive outcome : Type :=
  | HardExit (code : Z)
  | Interrupt.

(** [_on_signal]: [quit_msg] is the class attribute [_quit_msg], [now]
    the clock reading of this call.  Returns the updated attribute. *)
Definition _on_signal (now : Z) (quit_msg : list Z) : list Z * outcome :=
  let q1 := quit_msg ++ [now] in
  let q2 := if (EVENT_COUNT <? length q1)%nat
            then drop (length q1 - EVENT_COUNT) q1 else q1 in
  if (EVENT_COUNT <=? length q2)%nat then
    match last q2, head q2 with
    | Some l, Some f =>
        if l - f <? INTERVAL then (q2, HardExit 1) else (q2, Interrupt)
    | _, _ => (q2, Interrupt)
    end
  else (q2, Interrupt).

(** The attribute after the signals [ts] were handled, starting from
    the list [initialise] installs. *)
Definition quit_msg_after (ts : list Z) : list Z :=
  foldl (fun q t => fst (_on_signal t q)) [] ts.

(** The outcomes of the signals [ts], delivered in order to a fresh
    handler; nothing is delivered after a hard exit. *)
Fixpoint outcomes_from (q : list Z) (ts : list Z) : list outcome :=
  match ts with
  | [] => []
  | t :: r =>
      match _on_signal t q with
      | (q', HardExit c) => [HardExit c]
      | (q', Interrupt) => Interrupt :: outcomes_from q' r
      end
  end.

Definition outcomes (ts : list Z) : list outcome := outcomes_from [] ts.

End KillEventHandler.

(* ===================================================================== *)
(** * Python values and the builtins the validators call *)
(* ===================================================================== *)

(** A float is a dyadic rational [m * 2^e], an infinity or a NaN. *)
Inductive pyfloat : Type :=
  | FFinite (m e : Z)
  | FInf (negative : bool)
  | FNan.

(** The values a validator can be handed and the attributes of a
    tunnel hold.  [PyObj] stands for an object of any other class,
    named by an identifier. *)
Inductive pyval : Type :=
  | PyNone
  | PyBool (b : bool)
  | PyInt (z : Z)
  | PyFloat (f : pyfloat)
  | PyStr (s : string)
  | PyList (l : list string)
  | PyObj (id : nat).

(** What the interpreter decides and the model does not: the parsing
    and rounding of [float(...)], the strings [int(...)] reads, which
    are not the same in Python 2 and in Python 3, the printing of
    floats, the conversions of the objects of other classes, and the
    order in which dictionaries give their items, which is the order of
    insertion in Python 3.7 and is not specified before. *)
Class PyRuntime : Type := {
  float_of_str : string -> except pyfloat;
  float_of_int : Z -> except pyfloat;
  (** [int(s)] for a string *)
  int_of_str : string -> except Z;
  str_of_float : pyfloat -> string;
  str_of_list : list string -> string;
  obj_float : nat -> except pyfloat;
  obj_int : nat -> except Z;
  obj_str : nat -> except string;
  (** [config.items()], with [tunnel_config.items()] for each of the
      dictionaries in its lists: the items of the dictionaries of a
      resolved configuration, in the order the dictionaries give them *)
  config_items :
    gmap string (list (gmap string string)) ->
    list (string * list (list (string * string)))
}.

Module Builtins.

(** [int(f)] for a float: truncation toward zero. *)
Definition int_of_float (f : pyfloat) : except Z :=
  match f with
  | FFinite m e => if 0 <=? e then Ok (m * 2 ^ e) else Ok (Z.quot m (2 ^ (- e)))
  | FInf _ => Raise OverflowError
  | FNan => Raise ValueError
  end.

Definition is_digit (c : ascii) : bool :=
  let n := nat_of_ascii c in (48 <=? n)%nat && (n <=? 57)%nat.

Definition digit_val (c : ascii) : Z := Z.of_nat (nat_of_ascii c) - 48.

Fixpoint digits_from (acc : Z) (s : string) : except Z :=
  match s with
  | EmptyString => Ok acc
  | String c r =>
      if is_digit c then digits_from (10 * acc + digit_val c) r
      else Raise ValueError
  end.

Definition digits (s : string) : except Z :=
  match s with
  | EmptyString => Raise ValueError
  | _ => digits_from 0 s
  end.

(** The plain decimal notation of an integer: surrounding white
    space, an optional sign, decimal digits.  [int] reads it in
    Python 2 as in Python 3. *)
Definition decimal (s : string) : except Z :=
  match PyStr.strip s with
  | String "+" r => digits r
  | String "-" r => n ← digits r; Ok (- n)
  | t => digits t
  end.

(** One of the letters a to z and A to Z. *)
Definition is_letter (c : ascii) : bool :=
  let n := nat_of_ascii c in
  ((65 <=? n)%nat && (n <=? 90)%nat) || ((97 <=? n)%nat && (n <=? 122)%nat).

Definition str_of_int (z : Z) : string := NilZero.string_of_int (Z.to_int z).

Section WithRuntime.
Context `{RT : PyRuntime}.

(** [float(v)] *)
Definition py_float (v : pyval) : except pyfloat :=
  match v with
  | PyNone => Raise (TypeError "float() argument must be a string or a number")
  | PyBool b => Ok (FFinite (if b then 1 else 0) 0)
  | PyInt z => float_of_int z
  | PyFloat f => Ok f
  | PyStr s => float_of_str s
  | PyList _ => Raise (TypeError "float() argument must be a string or a number")
  | PyObj o => obj_float o
  end.

(** [int(v)] *)
Definition py_int (v : pyval) : except Z :=
  match v with
  | PyNone => Raise (TypeError "int() argument must be a string or a number")
  | PyBool b => Ok (if b then 1 else 0)
  | PyInt z => Ok z
  | PyFloat f => int_of_float f
  | PyStr s => int_of_str s
  | PyList _ => Raise (TypeError "int() argument must be a string or a number")
  | PyObj o => obj_int o
  end.

(** [str(v)] *)
Definition py_str (v : pyval) : except string :=
  match v with
  | PyNone => Ok "None"
  | PyBool b => Ok (if b then "True" else "False")
  | PyInt z => Ok (str_of_int z)
  | PyFloat f => Ok (str_of_float f)
  | PyStr s => Ok s
  | PyList l => Ok (str_of_list l)
  | PyObj o => obj_str o
  end.
End WithRuntime.

End Builtins.

(* ===================================================================== *)
(** * Primitive validators *)
(* ===================================================================== *)

Section Validators.
Context `{RT : PyRuntime}.
Import Builtins.

(** [ll_int]: only [ValueError] is caught. *)
Definition ll_int (var : pyval) : except bool :=
  match py_int var with
  | Ok _ => Ok true
  | Raise ValueError => Ok false
  | Raise e => Raise e
  end.

(** [ll_float]: [ValueError] and [TypeError] are caught. *)
Definition ll_float (var : pyval) : except bool :=
  match py_float var with
  | Ok _ => Ok true
  | Raise ValueError => Ok false
  | Raise (TypeError _) => Ok false
  | Raise e => Raise e
  end.

Definition true_words : list string :=
  ["yes"; "true"; "t"; "y"; "1"; "o"; "oui"; "on"].
Definition false_words : list string :=
  ["no"; "false"; "f"; "n"; "0"; "non"; "off"].

(** [int(float(value)) in (0, 1)] *)
Definition int_float_in_01 (value : pyval) : except bool :=
  f ← py_float value;
  n ← int_of_float f;
  Ok ((n =? 0) || (n =? 1)).

Definition ll_bool (value : pyval) : except bool :=
  match value with
  | PyNone => Ok false
  | PyBool _ => Ok true
  | _ =>
      is_f ← ll_float value;
      if (is_f : bool) then int_float_in_01 value
      else
        match py_str value with
        | Raise e => if is_StandardError e then Ok false else Raise e
        | Ok s =>
            if PyStr.mem (PyStr.lower s) true_words then Ok true
            else if PyStr.mem (PyStr.lower s) false_words then Ok true
            else Ok false
        end
  end.

Definition to_bool (value : pyval) : except bool :=
  match value with
  | PyNone => Raise (TypeError "Not a boolean")
  | PyBool b => Ok b
  | _ =>
      is_f ← ll_float value;
      if (is_f : bool) then
        ok ← int_float_in_01 value;
        if negb (ok : bool) then Raise (TypeError "Not a boolean")
        else
          f ← py_float value;
          n ← int_of_float f;
          Ok (n =? 1)
      else
        match py_str value with
        | Raise e =>
            if is_StandardError e then Raise (TypeError "Not a boolean")
            else Raise e
        | Ok s =>
            if PyStr.mem (PyStr.lower s) true_words then Ok true
            else if PyStr.mem (PyStr.lower s) false_words then Ok false
            else Raise (TypeError "Not a boolean")
        end
  end.

End Validators.

(* ===================================================================== *)
(** * Tunnel *)
(* ===================================================================== *)

Record Tunnel : Type := {
  name : string;
  group_name : string;
  ssh_options : list string;
  ssh_key : option string;
  ssh_user : option string;
  ssh_port : Z;
  remote_server : string;
  remote_address : string;
  remote_port : Z;
  local_address : string;
  local_port : Z;
  is_reverse : bool
}.

Module TunnelObj.

Definition opt_str (o : option string) : pyval :=
  match o with
  | Some s => PyStr s
  | None => PyNone
  end.

(** The methods of the class [Tunnel]. *)
Definition methods : list string :=
  ["generate_autossh_args"; "get_systemd_unit"; "is_running";
   "is_unit_installed"; "is_unit_enabled"; "__init__"; "__hash__";
   "__eq__"; "__ne__"].

(** The position of [x] in [l], if any. *)
Fixpoint index_of (x : string) (l : list string) : option nat :=
  match l with
  | [] => None
  | y :: r => if String.eqb x y then Some O else S <$> index_of x r
  end.

(** Attribute lookup on a [Tunnel] instance: the instance variables
    [__init__] sets, the properties and the methods of the class (a
    bound method is an object of another class).  Any other name is
    an [AttributeError]. *)
Definition getattr (t : Tunnel) (attr : string) : except pyval :=
  if String.eqb attr "_name" || String.eqb attr "name" then Ok (PyStr (name t))
  else if String.eqb attr "_group_name" || String.eqb attr "group_name" then Ok (PyStr (group_name t))
  else if String.eqb attr "_ssh_options" || String.eqb attr "ssh_options" then Ok (PyList (ssh_options t))
  else if String.eqb attr "_ssh_key" || String.eqb attr "ssh_key" then Ok (opt_str (ssh_key t))
  else if String.eqb attr "_ssh_user" || String.eqb attr "ssh_user" then Ok (opt_str (ssh_user t))
  else if String.eqb attr "_ssh_port" || String.eqb attr "ssh_port" then Ok (PyInt (ssh_port t))
  else if String.eqb attr "_remote_server" || String.eqb attr "remote_server" then Ok (PyStr (remote_server t))
  else if String.eqb attr "_remote_address" || String.eqb attr "remote_address" then Ok (PyStr (remote_address t))
  else if String.eqb attr "_remote_port" || String.eqb attr "remote_port" then Ok (PyInt (remote_port t))
  else if String.eqb attr "_local_address" || String.eqb attr "local_address" then Ok (PyStr (local_address t))
  else if String.eqb attr "_local_port" || String.eqb attr "local_port" then Ok (PyInt (local_port t))
  else if String.eqb attr "_reverse" || String.eqb attr "is_reverse" then Ok (PyBool (is_reverse t))
  else match index_of attr methods with
       | Some i => Ok (PyObj i)
       | None => Raise (AttributeError attr)
       end.

(** [==] on the values the compared attributes hold. *)
Definition val_eqb (a b : pyval) : bool :=
  match a, b with
  | PyStr x, PyStr y => String.eqb x y
  | PyInt x, PyInt y => x =? y
  | PyBool x, PyBool y => Bool.eqb x y
  | PyNone, PyNone => true
  | PyList x, PyList y => bool_decide (x = y)
  | _, _ => false
  end.

(** [Tunnel.__eq__]: the two tuples are built left to right, then
    compared. *)
Definition __eq__ (self other : Tunnel) : except bool :=
  a1 ← getattr self "_remote_address";
  p1 ← getattr self "_remote_port";
  a2 ← getattr other "remote_adress";
  p2 ← getattr other "remote_port";
  Ok (val_eqb a1 a2 && val_eqb p1 p2).

(** [Tunnel.__ne__] *)
Definition __ne__ (self other : Tunnel) : except bool :=
  b ← __eq__ self other; Ok (negb b).

(** The comparison the specification describes. *)
Definition same_endpoint (t1 t2 : Tunnel) : bool :=
  String.eqb (remote_address t1) (remote_address t2)
  && (remote_port t1 =? remote_port t2).

End TunnelObj.

(* ===================================================================== *)
(** * What the configuration loader asks of its host *)
(* ===================================================================== *)

(** The object [configparser_from_str] returns, through the three
    methods [_analyse_config] calls. *)
Record Parser : Type := {
  sections : list string;
  options : string -> list string;
  get : string -> string -> except string
}.

(** Name resolution, shell tokenising, the file system and the INI
    reader.  A directory is named by the string [os.getcwd()] returns
    in it. *)
Class Host : Type := {
  inet_aton : string -> bool;
  gethostbyname : string -> except string;
  shlex_split : string -> except (list string);
  (** [open(filename)] in the directory [cwd], read line by line *)
  read_lines : string -> string -> except (list string);
  (** [glob.glob(pattern)] in the directory [cwd] *)
  glob : string -> string -> list string;
  (** [os.chdir(os.path.abspath(dir))] from the directory [cwd] *)
  chdir : string -> string -> except string;
  check_ini_content : string -> string -> except unit;
  configparser_from_str : string -> string -> except Parser;
  (** [to_str(e)] for an exception *)
  str_of_exn : exn -> string
}.

Module Path.

(** The pieces of [p] before and after its last [c]. *)
Fixpoint rsplit_last (c : ascii) (p : string) : option (string * string) :=
  match p with
  | EmptyString => None
  | String d r =>
      match rsplit_last c r with
      | Some (a, b) => Some (String d a, b)
      | None => if Ascii.eqb d c then Some (EmptyString, r) else None
      end
  end.

Fixpoint all_chars (f : ascii -> bool) (s : string) : bool :=
  match s with
  | EmptyString => true
  | String c r => f c && all_chars f r
  end.

Fixpoint rstrip_char (c : ascii) (s : string) : string :=
  match s with
  | EmptyString => EmptyString
  | String d r =>
      match rstrip_char c r with
      | EmptyString => if Ascii.eqb d c then EmptyString else String d EmptyString
      | r' => String d r'
      end
  end.

(** [os.path.basename] *)
Definition basename (p : string) : string :=
  match rsplit_last "/" p with
  | Some (_, b) => b
  | None => p
  end.

(** [os.path.dirname] *)
Definition dirname (p : string) : string :=
  match rsplit_last "/" p with
  | None => EmptyString
  | Some (a, _) =>
      let head := a +:+ "/" in
      if all_chars (Ascii.eqb "/") head then head else rstrip_char "/" head
  end.

(** [os.path.splitext(b)[0]] for a name without directory part: the
    extension starts at the last dot, unless only dots precede it. *)
Definition splitext_root (b : string) : string :=
  match rsplit_last "." b with
  | Some (a, _) => if all_chars (Ascii.eqb ".") a then b else a
  | None => b
  end.

End Path.

(* ===================================================================== *)
(** * TunnelConfig *)
(* ===================================================================== *)

Module TunnelConfig.
Import PyStr.

(** ** Regular expressions *)

Definition newline : ascii := ascii_of_nat 10.

Fixpoint until_newline (s : string) : string * string :=
  match s with
  | EmptyString => (EmptyString, EmptyString)
  | String c r =>
      if Ascii.eqb c newline then (EmptyString, s)
      else let '(a, b) := until_newline r in (String c a, b)
  end.

(** Removes the prefix [w], compared without regard to case. *)
Fixpoint strip_prefix_ci (w s : string) : option string :=
  match w, s with
  | EmptyString, _ => Some s
  | String a w', String b s' =>
      if Ascii.eqb (lower_char a) (lower_char b) then strip_prefix_ci w' s' else None
  | _, _ => None
  end.

(** [INCLUDE_RE.match(line)], giving [group(1)].  The pattern, matched
    without regard to case: white space, the word include, one of
    space, colon and equals sign, white space, the captured group (any
    characters but a newline, as many as possible), white space, end. *)
Definition INCLUDE_RE (line : string) : option string :=
  match strip_prefix_ci "include" (lstrip line) with
  | Some (String sep r) =>
      if Ascii.eqb sep " " || Ascii.eqb sep ":" || Ascii.eqb sep "=" then
        let '(g, rest) := until_newline (lstrip r) in
        if Path.all_chars is_space rest then Some g else None
      else None
  | _ => None
  end.

(** [SECTION_RE.match(line)], giving [group(1)].  The pattern: white
    space, an opening bracket, the captured group (any characters but a
    newline, as many as possible), a closing bracket, white space,
    end. *)
Definition SECTION_RE (line : string) : option string :=
  match lstrip line with
  | String "[" body =>
      let '(seg, rest) := until_newline body in
      match Path.rsplit_last "]" seg with
      | Some (g, tail) =>
          if Path.all_chars is_space tail && Path.all_chars is_space rest
          then Some g else None
      | None => None
      end
  | _ => None
  end.

Definition user_char (c : ascii) : bool :=
  let n := nat_of_ascii c in
  ((97 <=? n)%nat && (n <=? 122)%nat) || Builtins.is_digit c
  || Ascii.eqb c "_" || Ascii.eqb c "-".

Definition chomp (s : string) : string :=
  match Path.rsplit_last newline s with
  | Some (a, EmptyString) => a
  | _ => s
  end.

(** [USER_RE.match(val)]: the pattern
    "^[a-z_]([a-z0-9_-]{0,31}|[a-z0-9_-]{0,30}\$)$". *)
Definition USER_RE (val : string) : bool :=
  match chomp val with
  | String c r =>
      let n := nat_of_ascii c in
      (((97 <=? n)%nat && (n <=? 122)%nat) || Ascii.eqb c "_")
      && ((Path.all_chars user_char r && (String.length r <=? 31)%nat)
          || match Path.rsplit_last "$" r with
             | Some (a, EmptyString) =>
                 Path.all_chars user_char a && (String.length a <=? 30)%nat
             | _ => false
             end)
  | EmptyString => false
  end.

(** ** get_tunnels *)

Definition get_tunnels_step (tunnel_identifiers : list string)
    (acc : list Tunnel * gset string) (tunnel : Tunnel)
    : list Tunnel * gset string :=
  let '(result, found_identifiers) := acc in
  if mem (name tunnel) tunnel_identifiers then
    (result ++ [tunnel], {[ name tunnel ]} ∪ found_identifiers)
  else if mem (group_name tunnel) tunnel_identifiers then
    (result ++ [tunnel], {[ group_name tunnel ]} ∪ found_identifiers)
  else if mem (remote_server tunnel) tunnel_identifiers then
    (result ++ [tunnel], {[ remote_server tunnel ]} ∪ found_identifiers)
  else if mem (remote_address tunnel) tunnel_identifiers then
    (result ++ [tunnel], {[ remote_address tunnel ]} ∪ found_identifiers)
  else acc.

Definition get_tunnels (_tunnels : list Tunnel) (tunnel_identifiers : list string)
    : except (list Tunnel) :=
  let '(result, found_identifiers) :=
    foldl (get_tunnels_step tunnel_identifiers) ([], ∅) _tunnels in
  let not_found_identifiers :=
    List.filter (fun identifier => negb (bool_decide (identifier ∈ found_identifiers)))
                tunnel_identifiers in
  match not_found_identifiers with
  | [] => Ok result
  | _ => Raise (RuntimeError ("Unknown tunnels: " +:+ join ", " not_found_identifiers))
  end.

(** An identifier matches a tunnel when it is one of the four names
    the tunnel answers to. *)
Definition matches (identifier : string) (t : Tunnel) : Prop :=
  identifier = name t \/ identifier = group_name t
  \/ identifier = remote_server t \/ identifier = remote_address t.

(** ** _check_config *)

(** The dictionary [cleaned_tunnel].  Its keys are known: the eight
    the loop starts from, which are always present, and the three a
    configuration may add, which are absent until set. *)
Record cleaned : Type := {
  c_reverse : bool;
  c_local_address : string;
  c_ssh_options : list string;
  c_ssh_user : option string;
  c_ssh_key : option string;
  c_ssh_port : Z;
  c_group_name : string;
  c_remote_server : string;
  c_tunnel_name : option string;
  c_remote_port : option Z;
  c_local_port : option Z
}.

Definition initial_cleaned (group : string) : cleaned :=
  {| c_reverse := false;
     c_local_address := "127.1.1.1";
     c_ssh_options := ["-n"; "-o"; "ServerAliveInterval=60"; "-o"; "ServerAliveCountMax=3"];
     c_ssh_user := None;
     c_ssh_key := None;
     c_ssh_port := 22;
     c_group_name := group;
     c_remote_server := group;
     c_tunnel_name := None;
     c_remote_port := None;
     c_local_port := None |}.

Definition set_reverse (v : bool) (c : cleaned) : cleaned :=
  {| c_reverse := v; c_local_address := c_local_address c;
     c_ssh_options := c_ssh_options c; c_ssh_user := c_ssh_user c;
     c_ssh_key := c_ssh_key c; c_ssh_port := c_ssh_port c;
     c_group_name := c_group_name c; c_remote_server := c_remote_server c;
     c_tunnel_name := c_tunnel_name c; c_remote_port := c_remote_port c;
     c_local_port := c_local_port c |}.
Definition set_local_address (v : string) (c : cleaned) : cleaned :=
  {| c_reverse := c_reverse c; c_local_address := v;
     c_ssh_options := c_ssh_options c; c_ssh_user := c_ssh_user c;
     c_ssh_key := c_ssh_key c; c_ssh_port := c_ssh_port c;
     c_group_name := c_group_name c; c_remote_server := c_remote_server c;
     c_tunnel_name := c_tunnel_name c; c_remote_port := c_remote_port c;
     c_local_port := c_local_port c |}.
Definition set_ssh_options (v : list string) (c : cleaned) : cleaned :=
  {| c_reverse := c_reverse c; c_local_address := c_local_address c;
     c_ssh_options := v; c_ssh_user := c_ssh_user c;
     c_ssh_key := c_ssh_key c; c_ssh_port := c_ssh_port c;
     c_group_name := c_group_name c; c_remote_server := c_remote_server c;
     c_tunnel_name := c_tunnel_name c; c_remote_port := c_remote_port c;
     c_local_port := c_local_port c |}.
Definition set_ssh_user (v : string) (c : cleaned) : cleaned :=
  {| c_reverse := c_reverse c; c_local_address := c_local_address c;
     c_ssh_options := c_ssh_options c; c_ssh_user := Some v;
     c_ssh_key := c_ssh_key c; c_ssh_port := c_ssh_port c;
     c_group_name := c_group_name c; c_remote_server := c_remote_server c;
     c_tunnel_name := c_tunnel_name c; c_remote_port := c_remote_port c;
     c_local_port := c_local_port c |}.
Definition set_ssh_key (v : string) (c : cleaned) : cleaned :=
  {| c_reverse := c_reverse c; c_local_address := c_local_address c;
     c_ssh_options := c_ssh_options c; c_ssh_user := c_ssh_user c;
     c_ssh_key := Some v; c_ssh_port := c_ssh_port c;
     c_group_name := c_group_name c; c_remote_server := c_remote_server c;
     c_tunnel_name := c_tunnel_name c; c_remote_port := c_remote_port c;
     c_local_port := c_local_port c |}.
Definition set_ssh_port (v : Z) (c : cleaned) : cleaned :=
  {| c_reverse := c_reverse c; c_local_address := c_local_address c;
     c_ssh_options := c_ssh_options c; c_ssh_user := c_ssh_user c;
     c_ssh_key := c_ssh_key c; c_ssh_port := v;
     c_group_name := c_group_name c; c_remote_server := c_remote_server c;
     c_tunnel_name := c_tunnel_name c; c_remote_port := c_remote_port c;
     c_local_port := c_local_port c |}.
Definition set_group_name (v : string) (c : cleaned) : cleaned :=
  {| c_reverse := c_reverse c; c_local_address := c_local_address c;
     c_ssh_options := c_ssh_options c; c_ssh_user := c_ssh_user c;
     c_ssh_key := c_ssh_key c; c_ssh_port := c_ssh_port c;
     c_group_name := v; c_remote_server := c_remote_server c;
     c_tunnel_name := c_tunnel_name c; c_remote_port := c_remote_port c;
     c_local_port := c_local_port c |}.
Definition set_remote_server (v : string) (c : cleaned) : cleaned :=
  {| c_reverse := c_reverse c; c_local_address := c_local_address c;
     c_ssh_options := c_ssh_options c; c_ssh_user := c_ssh_user c;
     c_ssh_key := c_ssh_key c; c_ssh_port := c_ssh_port c;
     c_group_name := c_group_name c; c_remote_server := v;
     c_tunnel_name := c_tunnel_name c; c_remote_port := c_remote_port c;
     c_local_port := c_local_port c |}.
Definition set_tunnel_name (v : string) (c : cleaned) : cleaned :=
  {| c_reverse := c_reverse c; c_local_address := c_local_address c;
     c_ssh_options := c_ssh_options c; c_ssh_user := c_ssh_user c;
     c_ssh_key := c_ssh_key c; c_ssh_port := c_ssh_port c;
     c_group_name := c_group_name c; c_remote_server := c_remote_server c;
     c_tunnel_name := Some v; c_remote_port := c_remote_port c;
     c_local_port := c_local_port c |}.
Definition set_remote_port (v : Z) (c : cleaned) : cleaned :=
  {| c_reverse := c_reverse c; c_local_address := c_local_address c;
     c_ssh_options := c_ssh_options c; c_ssh_user := c_ssh_user c;
     c_ssh_key := c_ssh_key c; c_ssh_port := c_ssh_port c;
     c_group_name := c_group_name c; c_remote_server := c_remote_server c;
     c_tunnel_name := c_tunnel_name c; c_remote_port := Some v;
     c_local_port := c_local_port c |}.
Definition set_local_port (v : Z) (c : cleaned) : cleaned :=
  {| c_reverse := c_reverse c; c_local_address := c_local_address c;
     c_ssh_options := c_ssh_options c; c_ssh_user := c_ssh_user c;
     c_ssh_key := c_ssh_key c; c_ssh_port := c_ssh_port c;
     c_group_name := c_group_name c; c_remote_server := c_remote_server c;
     c_tunnel_name := c_tunnel_name c; c_remote_port := c_remote_port c;
     c_local_port := Some v |}.

(** [d[key]] for a dictionary given by its items, whose keys are
    distinct: the value of the item with that key. *)
Definition dict_get {V : Type} (d : list (string * V)) (key : string) : option V :=
  snd <$> List.find (fun item => String.eqb (fst item) key) d.

Section CheckConfig.
Context `{RT : PyRuntime} `{HO : Host}.
Import Builtins.

(** The three port branches: [ll_int], [int], the range test. *)
Definition check_port (param tunnel_description val : string) : except Z :=
  is_i ← ll_int (PyStr val);
  if negb (is_i : bool) then
    Raise (ConfigError ("Invalid value for param '" +:+ param +:+ "' of " +:+ tunnel_description))
  else
    n ← py_int (PyStr val);
    if (0 >=? n) || (n >? 65534) then
      Raise (ConfigError ("Invalid value for param '" +:+ param +:+ "' of " +:+ tunnel_description))
    else Ok n.

(** The [reverse] branch. *)
Definition check_reverse (tunnel_description val : string) : except bool :=
  is_b ← ll_bool (PyStr val);
  if negb (is_b : bool) then
    Raise (ConfigError ("Invalid value for param 'reverse' of " +:+ tunnel_description))
  else to_bool (PyStr val).

(** The [local_address] branch. *)
Definition check_local_address (val : string) : except string :=
  val' ← (if inet_aton val then Ok val
          else match gethostbyname val with
               | Ok a => Ok a
               | Raise e =>
                   if is_StandardError e
                   then Raise (ConfigError ("Invalid local address '" +:+ val +:+ "'"))
                   else Raise e
               end);
  first_part ← match split "." 2 val' with
               | p :: _ => Ok p
               | [] => Raise IndexError
               end;
  n ← py_int (PyStr first_part);
  if negb (n =? 127) then
    Raise (ConfigError ("Invalid local address '" +:+ val' +:+ "'"))
  else Ok val'.

(** One turn of the loop over [tunnel_config.items()]. *)
Definition check_item (tunnel_description : string) (c : cleaned)
    (item : string * string) : except cleaned :=
  let '(key0, val) := item in
  let key := lower (strip key0) in
  if String.eqb key "reverse" then
    v ← check_reverse tunnel_description val; Ok (set_reverse v c)
  else if String.eqb key "remote_port" then
    v ← check_port "remote_port" tunnel_description val; Ok (set_remote_port v c)
  else if String.eqb key "local_port" then
    v ← check_port "local_port" tunnel_description val; Ok (set_local_port v c)
  else if String.eqb key "ssh_port" then
    v ← check_port "ssh_port" tunnel_description val; Ok (set_ssh_port v c)
  else if String.eqb key "local_address" then
    v ← check_local_address val; Ok (set_local_address v c)
  else if mem key ["user"; "ssh_user"] then
    if negb (USER_RE val) then
      Raise (ConfigError ("Invalid user name '" +:+ val +:+ "'"))
    else Ok (set_ssh_user val c)
  else if mem key ["key"; "ssh_key"] then
    Ok (set_ssh_key val c)
  else if String.eqb key "ssh_options" then
    v ← shlex_split val; Ok (set_ssh_options v c)
  else if String.eqb key "server" then
    Ok (set_remote_server val c)
  else if String.eqb key "group_name" then Ok (set_group_name val c)
  else if String.eqb key "tunnel_name" then Ok (set_tunnel_name val c)
  else if String.eqb key "remote_server" then Ok (set_remote_server val c)
  else Raise (ConfigError ("Unknown config option " +:+ key)).

(** [Tunnel(cleaned_tunnel)], after the required keys were found
    and the server was resolved. *)
Definition finish_tunnel (tunnel_description : string) (c : cleaned)
    : except Tunnel :=
  rp ← match c_remote_port c with
       | Some p => Ok p
       | None => Raise (ConfigError ("Missing param 'remote_port' of " +:+ tunnel_description))
       end;
  lp ← match c_local_port c with
       | Some p => Ok p
       | None => Raise (ConfigError ("Missing param 'local_port' of " +:+ tunnel_description))
       end;
  let conf_server := c_remote_server c in
  addr ← match gethostbyname conf_server with
         | Ok a => Ok a
         | Raise e =>
             if is_StandardError e
             then Raise (ConfigError ("Unknown remote server '" +:+ conf_server
                                      +:+ "': " +:+ str_of_exn e))
             else Raise e
         end;
  tn ← match c_tunnel_name c with
       | Some n => Ok n
       | None => Raise (KeyError "tunnel_name")
       end;
  Ok {| name := tn; group_name := c_group_name c;
        ssh_options := c_ssh_options c; ssh_key := c_ssh_key c;
        ssh_user := c_ssh_user c; ssh_port := c_ssh_port c;
        remote_server := conf_server; remote_address := addr;
        remote_port := rp; local_address := c_local_address c;
        local_port := lp; is_reverse := c_reverse c |}.

(** The body of the inner loop for one tunnel, its items taken in
    the order [items]. *)
Definition check_tunnel_items (group : string) (tunnel_name : string)
    (items : list (string * string)) : except Tunnel :=
  let tunnel_description := group +:+ "'s " +:+ tunnel_name +:+ " tunnel" in
  c ← foldM (check_item tunnel_description) (initial_cleaned group) items;
  finish_tunnel tunnel_description c.

(** The body of the loop over the tunnels of a group.  The
    dictionary [tunnel_config] is given by its items, in the order
    [tunnel_config.items()] gives them. *)
Definition check_tunnel (group : string) (tunnel_config : list (string * string))
    : except Tunnel :=
  match dict_get tunnel_config "tunnel_name" with
  | None => Raise (KeyError "tunnel_name")
  | Some tunnel_name => check_tunnel_items group tunnel_name tunnel_config
  end.

(** [_check_config(config)]; the dictionary [config] is given by its
    items, in the order [config.items()] gives them. *)
Definition _check_config (config : list (string * list (list (string * string))))
    : except (list Tunnel) :=
  foldM (fun results '(group, tunnel_config_list) =>
           foldM (fun results tunnel_config =>
                    t ← check_tunnel group tunnel_config;
                    Ok (results ++ [t]))
                 results tunnel_config_list)
        [] config.

End CheckConfig.

(** ** _analyse_config *)

Definition reserved (section : string) : bool := mem section ["global"; "common"].

Definition has_slash (section : string) : bool := contains "/" section.

(** [for key in parser.options(section): fields[key] = parser.get(section, key)] *)
Definition overlay (parser : Parser) (section : string)
    (fields : gmap string string) : except (gmap string string) :=
  foldM (fun fields key => v ← get parser section key; Ok (<[key := v]> fields))
        fields (options parser section).

(** First loop: the common fields. *)
Definition common_step (parser : Parser) (common_fields : gmap string string)
    (section : string) : except (gmap string string) :=
  if negb (reserved section) then Ok common_fields
  else overlay parser section common_fields.

Definition read_common (parser : Parser) : except (gmap string string) :=
  foldM (common_step parser) ∅ (sections parser).

(** Second loop: the fields of each group. *)
Definition group_step (parser : Parser) (common_fields : gmap string string)
    (group_fields : gmap string (gmap string string)) (section : string)
    : except (gmap string (gmap string string)) :=
  if reserved section || has_slash section then Ok group_fields
  else
    let group := section in
    let seeded := match group_fields !! group with
                  | Some fields => fields
                  | None => common_fields
                  end in
    fields ← overlay parser section seeded;
    Ok (<[group := fields]> group_fields).

Definition read_groups (parser : Parser) (common_fields : gmap string string)
    : except (gmap string (gmap string string)) :=
  foldM (group_step parser common_fields) ∅ (sections parser).

(** [group, tunnel_name = section.split("/", 2)] *)
Definition unpack_section (section : string) : except (string * string) :=
  match split "/" 2 section with
  | [group; tunnel_name] => Ok (group, tunnel_name)
  | _ => Raise ValueError
  end.

(** The field set of the tunnel section [section] of [group]. *)
Definition tunnel_fields (parser : Parser)
    (group_fields : gmap string (gmap string string))
    (section group tunnel_name : string) : except (gmap string string) :=
  let fields := match group_fields !! group with
                | Some f => f
                | None => ∅
                end in
  overlay parser section (<["tunnel_name" := tunnel_name]> fields).

(** Third loop: the tunnels, appended to the list of their group. *)
Definition tunnel_step (parser : Parser)
    (group_fields : gmap string (gmap string string))
    (tunnel_configs_by_group : gmap string (list (gmap string string)))
    (section : string) : except (gmap string (list (gmap string string))) :=
  if reserved section || negb (has_slash section) then Ok tunnel_configs_by_group
  else
    '(group, tunnel_name) ← unpack_section section;
    fields ← tunnel_fields parser group_fields section group tunnel_name;
    Ok (<[group := default [] (tunnel_configs_by_group !! group) ++ [fields]]>
          tunnel_configs_by_group).

Definition read_tunnels (parser : Parser)
    (group_fields : gmap string (gmap string string))
    : except (gmap string (list (gmap string string))) :=
  foldM (tunnel_step parser group_fields) ∅ (sections parser).

(** Fourth loop: the anonymous tunnel of a group without tunnels. *)
Definition default_step
    (tunnel_configs_by_group : gmap string (list (gmap string string)))
    (item : string * gmap string string)
    : gmap string (list (gmap string string)) :=
  let '(group, fields) := item in
  if bool_decide (is_Some (tunnel_configs_by_group !! group))
     || (size fields =? 0)%nat
  then tunnel_configs_by_group
  else <[group := [ <["tunnel_name" := "default_tunnel"]> fields ]]>
         tunnel_configs_by_group.

Definition add_defaults (group_fields : gmap string (gmap string string))
    (tunnel_configs_by_group : gmap string (list (gmap string string)))
    : gmap string (list (gmap string string)) :=
  foldl default_step tunnel_configs_by_group (map_to_list group_fields).

Definition _analyse_config (parser : Parser)
    : except (gmap string (list (gmap string string))) :=
  common_fields ← read_common parser;
  group_fields ← read_groups parser common_fields;
  tunnel_configs_by_group ← read_tunnels parser group_fields;
  Ok (add_defaults group_fields tunnel_configs_by_group).

(** A parser over a document given as its sections in order, each
    with its keys and values in order; every [get] succeeds. *)
Definition lookup_option (body : list (string * string)) (key : string)
    : except string :=
  match List.find (fun kv => String.eqb (fst kv) key) body with
  | Some kv => Ok (snd kv)
  | None => Raise (KeyError key)
  end.

Definition section_body (doc : list (string * list (string * string)))
    (section : string) : list (string * string) :=
  match List.find (fun sb => String.eqb (fst sb) section) doc with
  | Some sb => snd sb
  | None => []
  end.

Definition parser_of (doc : list (string * list (string * string))) : Parser :=
  {| sections := List.map fst doc;
     options := fun section => List.map fst (section_body doc section);
     get := fun section key => lookup_option (section_body doc section) key |}.

(** ** _pre_process_file *)

Definition linesep : string := String newline EmptyString.

Section PreProcess.
Context `{HO : Host}.

Definition truthy (sub_section : option string) : bool :=
  match sub_section with
  | Some (String _ _) => true
  | _ => false
  end.

(** A line that is not an include directive. *)
Definition plain_line (sub_section : option string) (line : string) : string :=
  match sub_section with
  | Some sub =>
      if truthy sub_section then
        match SECTION_RE line with
        | Some g => "[" +:+ sub +:+ "/" +:+ g +:+ "]" +:+ linesep
        | None => line
        end
      else line
  | None => line
  end.

Definition sub_sub_section_of (sub_section : option string) (sub_filename : string)
    : string :=
  (match sub_section with
   | None => EmptyString
   | Some sub => sub +:+ "/"
   end) +:+ Path.splitext_root (Path.basename sub_filename).

(** The loop over the files an include directive names; [rec] is
    the nested call. *)
Fixpoint include_files (rec : string -> option string -> except string)
    (sub_section : option string) (result : string) (files : list string)
    : except string :=
  match files with
  | [] => Ok result
  | sub_filename :: rest =>
      text ← rec (strip sub_filename)
                 (Some (sub_sub_section_of sub_section sub_filename));
      include_files rec sub_section
        (result +:+ linesep +:+ linesep +:+ text) rest
  end.

(** The loop over the lines of the file; [rec_in cwd'] is the
    nested call made from the directory [cwd']. *)
Fixpoint process_lines (rec_in : string -> string -> option string -> except string)
    (cwd filename : string) (sub_section : option string)
    (result : string) (lines : list string) : except string :=
  match lines with
  | [] => Ok result
  | line :: rest =>
      match INCLUDE_RE line with
      | Some pattern =>
          cwd' ← chdir cwd (Path.dirname filename);
          result' ← include_files (rec_in cwd') sub_section result
                                  (glob cwd' pattern);
          process_lines rec_in cwd filename sub_section result' rest
      | None =>
          process_lines rec_in cwd filename sub_section
            (result +:+ plain_line sub_section line) rest
      end
  end.

(** [_pre_process_file(filename, sub_section)], called in the
    directory [cwd] when the interpreter allows [depth] more nested
    calls of it: the call after the last one allowed raises
    [RecursionError], which nothing catches on the way up. *)
Fixpoint _pre_process_file (depth : nat) (cwd filename : string)
    (sub_section : option string) : except string :=
  match depth with
  | O => Raise RecursionError
  | S depth' =>
      let result := match sub_section with
                    | None => EmptyString
                    | Some sub => "[" +:+ sub +:+ "]" +:+ linesep
                    end in
      lines ← read_lines cwd filename;
      result' ← process_lines (_pre_process_file depth') cwd filename
                              sub_section result lines;
      match check_ini_content result' filename with
      | Ok _ => Ok result'
      | Raise e => Raise e
      end
  end.

End PreProcess.

(** ** _parse_config *)

Section ParseConfig.
Context `{RT : PyRuntime} `{HO : Host}.

(** The [try] block of [_parse_config] after the preprocessing. *)
Definition load_text (config_file preprocessed : string) : except (list Tunnel) :=
  parser ← configparser_from_str preprocessed config_file;
  config ← _analyse_config parser;
  _check_config (config_items config).

(** The two [except] clauses of [_parse_config]. *)
Definition wrap_errors {A} (config_file : string) (r : except A) : except A :=
  match r with
  | Ok a => Ok a
  | Raise e =>
      if is_ConfigError e then Raise e
      else if is_StandardError e then
        Raise (ConfigError ("Bad configuration file " +:+ config_file
                            +:+ ": " +:+ str_of_exn e))
      else Raise e
  end.

(** [_parse_config(config_file)], called in the directory [cwd]
    when the interpreter allows [depth] nested calls of the
    preprocessing. *)
Definition _parse_config (depth : nat) (cwd config_file : string)
    : except (list Tunnel) :=
  wrap_errors config_file
    (preprocessed ← _pre_process_file depth cwd config_file None;
     load_text config_file preprocessed).

End ParseConfig.

End TunnelConfig.

(* ===================================================================== *)
(** * Sample runtimes, hosts and documents *)
(* ===================================================================== *)

Module Samples.
Import TunnelConfig.

(** The items of the dictionaries of a configuration in the order of
    their keys. *)
Definition items_by_key (config : gmap string (list (gmap string string)))
    : list (string * list (list (string * string))) :=
  (fun item : string * list (gmap string string) =>
     (item.1, map_to_list <$> item.2)) <$> map_to_list config.

(** An interpreter whose [int] reads the plain decimal notation and
    nothing else, as that of Python 2 on ASCII strings, whose [float]
    reads the same strings, which knows no object of another class,
    and whose dictionaries give their items in the order of the
    keys. *)
Definition runtime : PyRuntime :=
  {| float_of_str := fun s =>
       match Builtins.decimal s with
       | Ok n => Ok (FFinite n 0)
       | Raise e => Raise e
       end;
     float_of_int := fun z => Ok (FFinite z 0);
     int_of_str := Builtins.decimal;
     str_of_float := fun _ => "0.0";
     str_of_list := fun l => "[" +:+ PyStr.join ", " l +:+ "]";
     obj_float := fun _ => Raise (TypeError "float() argument must be a string or a number");
     obj_int := fun _ => Raise (TypeError "int() argument must be a string or a number");
     obj_str := fun _ => Ok "<object>";
     config_items := items_by_key |}.

(** The digits of a number written with single underscores between
    digits, if it is one. *)
Fixpoint ungroup (after_digit : bool) (s : string) : option string :=
  match s with
  | EmptyString => Some EmptyString
  | String c r =>
      if Ascii.eqb c "_" then
        match r with
        | String d _ =>
            if after_digit && Builtins.is_digit d then ungroup false r else None
        | EmptyString => None
        end
      else String c <$> ungroup (Builtins.is_digit c) r
  end.

(** An interpreter whose [int] also reads digits grouped by
    underscores, as that of Python 3 does, and which is the sample
    interpreter otherwise. *)
Definition grouping_runtime : PyRuntime :=
  {| float_of_str := float_of_str (PyRuntime := runtime);
     float_of_int := float_of_int (PyRuntime := runtime);
     int_of_str := fun s =>
       match ungroup false (PyStr.strip s) with
       | Some t => Builtins.decimal t
       | None => Raise ValueError
       end;
     str_of_float := str_of_float (PyRuntime := runtime);
     str_of_list := str_of_list (PyRuntime := runtime);
     obj_float := obj_float (PyRuntime := runtime);
     obj_int := obj_int (PyRuntime := runtime);
     obj_str := obj_str (PyRuntime := runtime);
     config_items := items_by_key |}.

(** A machine with the files [files], all in one directory; a glob
    pattern matches the file of that name, every host name resolves
    to [address]. *)
Definition host (files : list (string * list string)) (address : string) : Host :=
  {| inet_aton := fun _ => false;
     gethostbyname := fun _ => Ok address;
     shlex_split := fun s => Ok [s];
     read_lines := fun _ filename =>
       match List.find (fun f => String.eqb (fst f) filename) files with
       | Some f => Ok (snd f)
       | None => Raise IOError
       end;
     glob := fun _ pattern =>
       if List.existsb (fun f => String.eqb (fst f) pattern) files
       then [pattern] else [];
     chdir := fun cwd _ => Ok cwd;
     check_ini_content := fun _ _ => Ok tt;
     configparser_from_str := fun _ _ => Ok (parser_of []);
     str_of_exn := fun _ => "error" |}.

Definition nl (s : string) : string := s +:+ linesep.

(** A file that includes itself. *)
Definition loop_host : Host :=
  host [("loop.conf", [nl "include loop.conf"])] "10.0.0.1".


(** The only tunnel of the group [web]. *)
Definition web_tunnel : Tunnel :=
  {| name := "default_tunnel"; group_name := "web";
     ssh_options := ["-n"]; ssh_key := None; ssh_user := None; ssh_port := 22;
     remote_server := "web.example.org"; remote_address := "10.0.0.1";
     remote_port := 80; local_address := "127.1.1.1"; local_port := 8080;
     is_reverse := false |}.

(** [common] before [global], both setting [user]. *)
Definition common_then_global : list (string * list (string * string)) :=
  [("common", [("user", "from_common")]);
   ("global", [("user", "from_global")])].

Definition global_then_common : list (string * list (string * string)) :=
  [("global", [("user", "from_global")]);
   ("common", [("user", "from_common")])].

(** A tunnel section whose group has no section of its own. *)
Definition orphan_tunnel : list (string * list (string * string)) :=
  [("common", [("user", "bob")]);
   ("web/http", [("remote_port", "80"); ("local_port", "8080")])].

(** Three layers setting [user]; [ssh_port] set in [common] only. *)
Definition three_layers : list (string * list (string * string)) :=
  [("common", [("user", "bob"); ("ssh_port", "2222")]);
   ("web", [("user", "alice")]);
   ("web/http", [("user", "carol"); ("remote_port", "80"); ("local_port", "8080")])].

(** A group with keys and no tunnel section. *)
Definition lone_group : list (string * list (string * string)) :=
  [("web", [("remote_port", "80"); ("local_port", "8080")])].

(** A section name with two slashes. *)
Definition nested_section : list (string * list (string * string)) :=
  [("a/b/c", [("remote_port", "80"); ("local_port", "8080")])].

(** The stages of the resolution of a document, empty where a stage
    raises. *)
Definition common_of (doc : list (string * list (string * string)))
    : gmap string string :=
  match read_common (parser_of doc) with
  | Ok cf => cf
  | Raise _ => ∅
  end.

Definition groups_of (doc : list (string * list (string * string)))
    : gmap string (gmap string string) :=
  match read_groups (parser_of doc) (common_of doc) with
  | Ok gf => gf
  | Raise _ => ∅
  end.

Definition tunnels_of (doc : list (string * list (string * string)))
    : gmap string (list (gmap string string)) :=
  match read_tunnels (parser_of doc) (groups_of doc) with
  | Ok tc => tc
  | Raise _ => ∅
  end.

Definition resolved (doc : list (string * list (string * string)))
    : gmap string (list (gmap string string)) :=
  match _analyse_config (parser_of doc) with
  | Ok r => r
  | Raise _ => ∅
  end.

End Samples.

(* ===================================================================== *)
(** * Vocabulary of the properties *)
(* ===================================================================== *)

Module Vocabulary.
Import Builtins TunnelConfig.

(** The tunnel answers to one of the identifiers. *)
Definition selected (tunnel_identifiers : list string) (t : Tunnel) : bool :=
  PyStr.mem (name t) tunnel_identifiers
  || PyStr.mem (group_name t) tunnel_identifiers
  || PyStr.mem (remote_server t) tunnel_identifiers
  || PyStr.mem (remote_address t) tunnel_identifiers.

(** The ports the specification allows. *)
Definition port_in_range (n : Z) : Prop := 1 <= n <= 65534.

(** The error of the three port branches. *)
Definition invalid_port_error (param tunnel_description : string) : exn :=
  ConfigError ("Invalid value for param '" +:+ param +:+ "' of " +:+ tunnel_description).

Definition port_key (key : string) : Prop :=
  key = "remote_port" \/ key = "local_port" \/ key = "ssh_port".

(** A value that is not an integer, or an integer out of range. *)
Definition bad_port_value `{RT : PyRuntime} (val : string) : Prop :=
  int_of_str val = Raise ValueError
  \/ exists n, int_of_str val = Ok n /\ ~ port_in_range n.

(** What [int] does in Python 2 as in Python 3: it reads the plain
    decimal notation, of strings of at most 640 characters at least
    (Python 3.11 limits the number of digits, to 640 or more), and it
    refuses a string that begins with a letter. *)
Definition int_conforms `{RT : PyRuntime} : Prop :=
  (forall s n,
      (String.length s <= 640)%nat -> decimal s = Ok n -> int_of_str s = Ok n)
  /\ (forall c r, is_letter c = true -> int_of_str (String c r) = Raise ValueError).

(** [section] is a tunnel section of the group [group]: the third
    loop takes it and unpacks it into [group] and a tunnel name. *)
Definition tunnel_section_of (group section : string) : bool :=
  negb (reserved section) && has_slash section
  && match unpack_section section with
     | Ok (g, _) => String.eqb g group
     | Raise _ => false
     end.

(** The tunnel sections of [group], in the order of the document. *)
Definition tunnel_sections_of (parser : Parser) (group : string) : list string :=
  List.filter (tunnel_section_of group) (sections parser).

(** [group] has a section of its own, which the second loop takes. *)
Definition is_group_section (parser : Parser) (group : string) : Prop :=
  group ∈ sections parser /\ reserved group = false /\ has_slash group = false.

(** [fields] holds the keys of [section] with the values of [section],
    and agrees with [below] on the other keys. *)
Definition layered (parser : Parser) (section : string)
    (below fields : gmap string string) : Prop :=
  forall key,
    (key ∈ options parser section ->
     exists v, get parser section key = Ok v /\ fields !! key = Some v)
    /\ (key ∉ options parser section -> fields !! key = below !! key).

(** What the third loop appends for the group [group]: one field set
    for each tunnel section of the group. *)
Definition entries_of (parser : Parser) (gf : gmap string (gmap string string))
    (group : string) : list string -> list (gmap string string) -> Prop :=
  Forall2 (fun section fields =>
             exists tunnel_name,
               unpack_section section = Ok (group, tunnel_name)
               /\ tunnel_fields parser gf section group tunnel_name = Ok fields).

(** The field set of the anonymous tunnel of a group with the fields
    [fields]. *)
Definition default_entry (fields : gmap string string) : gmap string string :=
  <["tunnel_name" := "default_tunnel"]> fields.



(** Printable ASCII characters, tabulations and ends of line: the
    characters on which Python 2 and Python 3 agree on what is white
    space and what is a letter. *)
Definition plain_char (c : ascii) : bool :=
  let n := nat_of_ascii c in
  ((9 <=? n)%nat && (n <=? 13)%nat) || ((32 <=? n)%nat && (n <=? 126)%nat).

Definition plain_text (s : string) : bool := Path.all_chars plain_char s.

End Vocabulary.

(* ===================================================================== *)
(** * Invariants of the built tunnels *)
(* ===================================================================== *)

Module Invariants.
Import Builtins TunnelConfig.

(** An address whose part before the first dot reads as 127. *)
Definition loopback `{RT : PyRuntime} (address : string) : Prop :=
  exists first rest,
    PyStr.split "." 2 address = first :: rest /\ int_of_str first = Ok 127.

(** The keys [_check_config] knows, once stripped and lowered. *)
Definition known_keys : list string :=
  ["reverse"; "remote_port"; "local_port"; "ssh_port"; "local_address";
   "user"; "ssh_user"; "key"; "ssh_key"; "ssh_options"; "server";
   "group_name"; "tunnel_name"; "remote_server"].

(** What the loop of [_check_config] keeps true of [cleaned_tunnel]. *)
Definition cleaned_ok `{RT : PyRuntime} (c : cleaned) : Prop :=
  Vocabulary.port_in_range (c_ssh_port c)
  /\ (forall p, c_remote_port c = Some p -> Vocabulary.port_in_range p)
  /\ (forall p, c_local_port c = Some p -> Vocabulary.port_in_range p)
  /\ (c_local_address c = "127.1.1.1" \/ loopback (c_local_address c))
  /\ (forall u, c_ssh_user c = Some u -> USER_RE u = true).

(** No key of the field set is one of [keys], once stripped and
    lowered. *)
Definition absent (keys : list string) (tunnel_config : list (string * string))
    : Prop :=
  forall key val,
    (key, val) ∈ tunnel_config -> PyStr.lower (PyStr.strip key) ∉ keys.

(** The keys of the field set are stripped and in lower case already,
    as the option names the INI reader gives are. *)
Definition normalized (tunnel_config : list (string * string)) : Prop :=
  forall key val,
    (key, val) ∈ tunnel_config -> PyStr.lower (PyStr.strip key) = key.

(** A turn of the loop of [_check_config] on a key that, stripped and
    lowered, is outside [keys] leaves the part [part] of
    [cleaned_tunnel] as it was. *)
Definition keeps `{RT : PyRuntime} `{HO : Host} {X : Type}
    (part : cleaned -> X) (keys : list string) : Prop :=
  forall d c c' key val,
    PyStr.lower (PyStr.strip key) ∉ keys ->
    check_item d c (key, val) = Ok c' -> part c' = part c.

(** The field sets of a configuration, each with its group, in the
    order in which [_check_config] meets them: group after group, and
    within a group in the order of its list. *)
Definition field_sets (config : list (string * list (list (string * string))))
    : list (string * list (string * string)) :=
  '(group, tunnel_config_list) ← config;
  (fun tunnel_config => (group, tunnel_config)) <$> tunnel_config_list.

(** The text [_pre_process_file] starts from. *)
Definition header (sub_section : option string) : string :=
  match sub_section with
  | None => EmptyString
  | Some sub => "[" +:+ sub +:+ "]" +:+ linesep
  end.

End Invariants.

(* ===================================================================== *)
(** * More samples *)
(* ===================================================================== *)

Module MoreSamples.

(** A machine without files, on which every name resolves to
    10.0.0.1. *)
Definition plain_host : Host := Samples.host [] "10.0.0.1".

(** The items of the tunnel [http]. *)
Definition http_items : list (string * string) :=
  [("tunnel_name", "http"); ("remote_port", "80"); ("local_port", "8080");
   ("user", "bob")].

(** The resolved configuration of one group with one tunnel. *)
Definition web_config : list (string * list (list (string * string))) :=
  [("web", [http_items])].

(** The tunnel [_check_config] builds from it. *)
Definition http_tunnel : Tunnel :=
  {| name := "http"; group_name := "web";
     ssh_options := ["-n"; "-o"; "ServerAliveInterval=60"; "-o"; "ServerAliveCountMax=3"];
     ssh_key := None; ssh_user := Some "bob"; ssh_port := 22;
     remote_server := "web"; remote_address := "10.0.0.1";
     remote_port := 80; local_address := "127.1.1.1"; local_port := 8080;
     is_reverse := false |}.

(** An interpreter whose [float] reads [nan] and [inf], and else what
    the sample interpreter reads. *)
Definition nan_runtime : PyRuntime :=
  {| float_of_str := fun s =>
       if String.eqb (PyStr.lower (PyStr.strip s)) "nan" then Ok FNan
       else if String.eqb (PyStr.lower (PyStr.strip s)) "inf" then Ok (FInf false)
       else float_of_str (PyRuntime := Samples.runtime) s;
     float_of_int := float_of_int (PyRuntime := Samples.runtime);
     int_of_str := int_of_str (PyRuntime := Samples.runtime);
     str_of_float := str_of_float (PyRuntime := Samples.runtime);
     str_of_list := str_of_list (PyRuntime := Samples.runtime);
     obj_float := obj_float (PyRuntime := Samples.runtime);
     obj_int := obj_int (PyRuntime := Samples.runtime);
     obj_str := obj_str (PyRuntime := Samples.runtime);
     config_items := config_items (PyRuntime := Samples.runtime) |}.


(** A machine with one file, which includes nothing. *)
Definition one_file_host : Host :=
  Samples.host [("web.conf", [Samples.nl "remote_port = 80"; Samples.nl "[http]";
                              Samples.nl "local_port = 8080"])] "10.0.0.1".

(** The field set of the tunnel [web/http] of the three-layer
    document. *)
Definition http_fields : gmap string string :=
  {[ "tunnel_name" := "http"; "user" := "carol"; "ssh_port" := "2222";
     "remote_port" := "80"; "local_port" := "8080" ]}.

End MoreSamples.

(* ===================================================================== *)
(** * Utility functions *)
(* ===================================================================== *)

Module Util.

(** [sorted(l)] for a list of strings: an insertion sort along the
    order of the strings, character by character. *)
Fixpoint insert_sorted (x : string) (l : list string) : list string :=
  match l with
  | [] => [x]
  | y :: r => if String.leb x y then x :: l else y :: insert_sorted x r
  end.

Definition sorted (l : list string) : list string := foldr insert_sorted [] l.

(** [unique(var)]: [sorted(list(set(var)))]. *)
Definition unique (var : list string) : list string :=
  sorted (elements (list_to_set var : gset string)).

(** [index_by(array, key)] for a callable [key] that gives strings, as
    the lambdas of the callers do. *)
Definition index_by {A : Type} (array : list A) (key : A -> string)
    : gmap string (list A) :=
  foldl (fun results element =>
           let new_key := key element in
           <[new_key := default [] (results !! new_key) ++ [element]]> results)
        ∅ array.

(** [sub in s] for two strings. *)
Fixpoint starts_with (sub s : string) : bool :=
  match sub, s with
  | EmptyString, _ => true
  | String a sub', String b s' => Ascii.eqb a b && starts_with sub' s'
  | String _ _, EmptyString => false
  end.

Fixpoint str_in (sub s : string) : bool :=
  starts_with sub s
  || match s with
     | EmptyString => false
     | String _ s' => str_in sub s'
     end.

End Util.

(* ===================================================================== *)
(** * The command line of a tunnel *)
(* ===================================================================== *)

Module TunnelCmd.

(** [Tunnel.generate_autossh_args]; [getuser] is what
    [getpass.getuser()] gives, asked only when the tunnel has no
    user. *)
Definition generate_autossh_args (getuser : except string) (t : Tunnel)
    : except (list string) :=
  let cmd := ["-M"; "0"; "-p"; Builtins.str_of_int (ssh_port t); "-T"; "-N"] in
  let cmd := cmd ++ ssh_options t in
  let cmd := match ssh_key t with
             | Some key => cmd ++ ["-i"; key]
             | None => cmd
             end in
  user ← match ssh_user t with
         | Some u => Ok u
         | None => getuser
         end;
  let cmd := cmd ++ ["-l"; user; user +:+ "@" +:+ remote_server t] in
  if is_reverse t then
    Ok (cmd ++ ["-R"; remote_server t +:+ ":" +:+ Builtins.str_of_int (remote_port t)
                      +:+ ":" +:+ local_address t +:+ ":"
                      +:+ Builtins.str_of_int (local_port t)])
  else
    Ok (cmd ++ ["-L"; local_address t +:+ ":" +:+ Builtins.str_of_int (local_port t)
                      +:+ ":" +:+ remote_server t +:+ ":"
                      +:+ Builtins.str_of_int (remote_port t)]).

(** The test of one command line of [PsCache] in [is_running]. *)
Definition all_args_in (cmd_args : list string) (running_proc_cmd : string) : bool :=
  forallb (fun arg => Util.str_in arg running_proc_cmd) cmd_args.

(** [Tunnel.is_running]; [ps_cache] is what [PsCache.get()] returns. *)
Definition is_running (getuser : except string) (ps_cache : list string)
    (t : Tunnel) : except bool :=
  cmd_args ← generate_autossh_args getuser t;
  Ok (existsb (all_args_in cmd_args) ps_cache).

End TunnelCmd.

(* ===================================================================== *)
(** * A sample command line *)
(* ===================================================================== *)

Module CmdSamples.

(** The arguments of the sample tunnel, for the user [tunnel]. *)
Definition http_args : list string :=
  match TunnelCmd.generate_autossh_args (Ok "tunnel") MoreSamples.http_tunnel with
  | Ok args => args
  | Raise _ => []
  end.

End CmdSamples.

(* ===================================================================== *)
(** * Properties of the interrupt handler *)
(* ===================================================================== *)

Section KillEventHandlerProps.
Import KillEventHandler.

Lemma on_signal_state (now : Z) (q : list Z) :
  fst (_on_signal now q)
  = drop (length (q ++ [now]) - EVENT_COUNT) (q ++ [now]).
Proof.
  unfold _on_signal.
  set (q1 := q ++ [now]).
  assert (Hq2 : (if (EVENT_COUNT <? length q1)%nat
                 then drop (length q1 - EVENT_COUNT) q1 else q1)
                = drop (length q1 - EVENT_COUNT) q1).
  { destruct (EVENT_COUNT <? length q1)%nat eqn:E; [done|].
    apply Nat.ltb_ge in E.
    replace (length q1 - EVENT_COUNT)%nat with 0%nat by lia. done. }
  rewrite Hq2.
  destruct (EVENT_COUNT <=? _)%nat; [|done].
  destruct (last _); [|done]. destruct (head _); [|done].
  by destruct (_ <? _).
Qed.

Lemma quit_msg_after_snoc (ts : list Z) (t : Z) :
  quit_msg_after (ts ++ [t]) = fst (_on_signal t (quit_msg_after ts)).
Proof. unfold quit_msg_after. by rewrite foldl_snoc. Qed.

(** The handler keeps the last three time stamps. *)
Lemma quit_msg_after_last_three (ts : list Z) :
  quit_msg_after ts = drop (length ts - EVENT_COUNT) ts.
Proof.
  induction ts as [|t ts IH] using rev_ind; [done|].
  rewrite quit_msg_after_snoc, on_signal_state, IH.
  unfold EVENT_COUNT.
  rewrite !length_app, length_drop. cbn [length].
  destruct (decide (length ts <= 3)%nat) as [Hle|Hgt].
  - replace (length ts - 3)%nat with 0%nat by lia.
    rewrite drop_0. f_equal. lia.
  - rewrite (drop_app_le ts [t]) by lia.
    rewrite drop_app_le by (rewrite length_drop; lia).
    rewrite drop_drop. f_equal. f_equal. lia.
Qed.

Lemma on_signal_short (t : Z) (q : list Z) :
  (length q < 2)%nat -> snd (_on_signal t q) = Interrupt.
Proof.
  intros H. destruct q as [|a [|b q]]; cbn in *; try done. lia.
Qed.

Lemma on_signal_last_three (t a b : Z) (pre : list Z) :
  snd (_on_signal t (quit_msg_after (pre ++ [a; b])))
  = if t - a <? INTERVAL then HardExit 1 else Interrupt.
Proof.
  rewrite quit_msg_after_last_three. unfold EVENT_COUNT.
  rewrite length_app. cbn [length].
  destruct pre as [|c pre _] using rev_ind.
  - cbn. by destruct (_ <? _).
  - rewrite length_app. cbn [length].
    replace (length pre + 1 + 2 - 3)%nat with (length pre) by lia.
    rewrite <- !app_assoc. rewrite drop_app_length.
    cbn. by destruct (_ <? _).
Qed.

Lemma two_last_or_short (ts : list Z) :
  (length ts < 2)%nat \/ exists pre a b, ts = pre ++ [a; b].
Proof.
  destruct ts as [|b ts _] using rev_ind; [left; cbn; lia|].
  destruct ts as [|a ts _] using rev_ind; [left; cbn; lia|].
  right. exists ts, a, b. by rewrite <- app_assoc.
Qed.

(** C9.  Whatever signals [ts] were handled before, the handler called
    at time [t] ends the process at once ([os._exit(1)]) exactly when
    at least two signals came before and [t] is less than one second
    after the one before last, that is, after the first of the last
    three; in every other case it raises [KeyboardInterrupt].  Three
    signals spread over five seconds raise three interrupts, three
    signals within nine tenths of a second end in the hard exit. *)
Theorem on_signal_hard_exit_iff :
  (forall (ts : list Z) (t : Z),
      (snd (_on_signal t (quit_msg_after ts)) = HardExit 1
       <-> exists pre a b, ts = pre ++ [a; b] /\ t - a < INTERVAL)
      /\ (snd (_on_signal t (quit_msg_after ts)) = Interrupt
          <-> ~ exists pre a b, ts = pre ++ [a; b] /\ t - a < INTERVAL))
  /\ outcomes [0; 2500000; 5000000] = [Interrupt; Interrupt; Interrupt]
  /\ outcomes [0; 400000; 900000] = [Interrupt; Interrupt; HardExit 1].
Proof.
  split; [|split; reflexivity].
  intros ts t.
  destruct (two_last_or_short ts) as [Hshort | (pre & a & b & ->)].
  - assert (Hno : ~ exists pre a b, ts = pre ++ [a; b] /\ t - a < INTERVAL).
    { intros (pre & a & b & -> & _). rewrite length_app in Hshort.
      cbn in Hshort. lia. }
    rewrite on_signal_short
      by (rewrite quit_msg_after_last_three, length_drop; lia).
    split; split; intros; try done; exfalso; tauto.
  - rewrite on_signal_last_three.
    destruct (Z.ltb_spec (t - a) INTERVAL) as [Hlt | Hge].
    + split; split; try done.
      * intros _. by exists pre, a, b.
      * intros Hno. destruct Hno. by exists pre, a, b.
    + assert (Hno : ~ exists pre' a' b',
                   pre ++ [a; b] = pre' ++ [a'; b'] /\ t - a' < INTERVAL).
      { intros (pre' & a' & b' & Heq & Hlt).
        apply (f_equal (@rev Z)) in Heq. rewrite !rev_app_distr in Heq.
        cbn in Heq. injection Heq as _ Ha _. subst a'. lia. }
      split; split; intros; try done; exfalso; tauto.
Qed.

End KillEventHandlerProps.

(* ===================================================================== *)
(** * Properties of Tunnel and of the registry lookup *)
(* ===================================================================== *)

Section TunnelProps.
Import TunnelObj TunnelConfig.

Lemma get_tunnels_step_result (ids : list string) (acc : list Tunnel * gset string)
    (t : Tunnel) :
  (get_tunnels_step ids acc t).1
  = acc.1 ++ (if Vocabulary.selected ids t then [t] else []).
Proof.
  destruct acc as [result found]. unfold get_tunnels_step, Vocabulary.selected.
  repeat (destruct (PyStr.mem _ ids); cbn; [done|]).
  by rewrite app_nil_r.
Qed.

Lemma get_tunnels_step_found (ids : list string) (acc : list Tunnel * gset string)
    (t : Tunnel) (id : string) :
  id ∈ (get_tunnels_step ids acc t).2 ->
  id ∈ acc.2 \/ (id ∈ ids /\ matches id t).
Proof.
  destruct acc as [result found]. unfold get_tunnels_step, PyStr.mem, matches.
  repeat case_bool_decide; cbn; intros Hin; try (by left);
    apply elem_of_union in Hin as [->%elem_of_singleton|Hin];
    try (by left); right; split; auto.
Qed.

Lemma get_tunnels_loop (ids : list string) (ts : list Tunnel)
    (acc : list Tunnel * gset string) :
  (foldl (get_tunnels_step ids) acc ts).1
  = acc.1 ++ List.filter (Vocabulary.selected ids) ts
  /\ forall id, id ∈ (foldl (get_tunnels_step ids) acc ts).2 ->
       id ∈ acc.2 \/ (id ∈ ids /\ exists t, t ∈ ts /\ matches id t).
Proof.
  revert acc. induction ts as [|t ts IH]; intros acc; cbn [foldl List.filter].
  - split; [by rewrite app_nil_r|by left].
  - destruct (IH (get_tunnels_step ids acc t)) as [Hres Hfound]. split.
    + rewrite Hres, get_tunnels_step_result, <- app_assoc.
      by destruct (Vocabulary.selected ids t).
    + intros id Hin. destruct (Hfound id Hin) as [Hacc|(Hid & t' & Ht' & Hm)].
      * destruct (get_tunnels_step_found _ _ _ _ Hacc) as [?|[? ?]]; [by left|].
        right. split; [done|]. exists t. split; [by left|done].
      * right. split; [done|]. exists t'. split; [by right|done].
Qed.

(** What the lookup does keep of the property: a lookup that returns
    gives the tunnels that answer to one of the identifiers, in the
    order of the registry, and then every identifier matches a
    tunnel. *)
Lemma get_tunnels_returns (ts : list Tunnel) (ids : list string)
    (result : list Tunnel) :
  get_tunnels ts ids = Ok result ->
  result = List.filter (Vocabulary.selected ids) ts
  /\ forall id, id ∈ ids -> exists t, t ∈ ts /\ matches id t.
Proof.
  unfold get_tunnels.
  destruct (get_tunnels_loop ids ts ([], ∅)) as [Hres Hfound].
  destruct (foldl _ _ ts) as [res found]. cbn in Hres, Hfound.
  destruct (List.filter _ ids) as [|x l] eqn:Hnf; [|done].
  intros [= <-]. split; [done|]. intros id Hid.
  destruct (decide (id ∈ found)) as [Hin|Hout].
  - destruct (Hfound id Hin) as [Hempty|[_ Ht]]; [|done].
    by apply not_elem_of_empty in Hempty.
  - assert (Hflt : In id (List.filter
               (fun identifier => negb (bool_decide (identifier ∈ found))) ids)).
    { apply filter_In. split; [by apply list_elem_of_In|].
      by rewrite bool_decide_false. }
    rewrite Hnf in Hflt. destruct Hflt.
Qed.

(** C4.  The comparison of two tunnels never returns: it reads the
    attribute [remote_adress] of the other tunnel, which no tunnel
    has, and raises [AttributeError]; so does its negation.  The
    tunnels can have the same address and port or not. *)
Theorem tunnel_eq_raises (t1 t2 : Tunnel) :
  __eq__ t1 t2 = Raise (AttributeError "remote_adress")
  /\ __ne__ t1 t2 = Raise (AttributeError "remote_adress")
  /\ __eq__ Samples.web_tunnel Samples.web_tunnel
     = Raise (AttributeError "remote_adress")
  /\ same_endpoint Samples.web_tunnel Samples.web_tunnel = true.
Proof. repeat split. Qed.

(** C3.  With the single tunnel [default_tunnel] of the group [web],
    asking for the two identifiers [default_tunnel] and [web] fails
    and reports [web] as unknown, although [web] is the group name
    of that tunnel: the tunnel was found under its name first, and
    only that identifier was recorded as found. *)
Theorem get_tunnels_shadowed_identifier :
  get_tunnels [Samples.web_tunnel] ["default_tunnel"; "web"]
  = Raise (RuntimeError "Unknown tunnels: web")
  /\ matches "default_tunnel" Samples.web_tunnel
  /\ matches "web" Samples.web_tunnel
  /\ get_tunnels [Samples.web_tunnel] ["web"] = Ok [Samples.web_tunnel].
Proof.
  repeat split; try (vm_compute; reflexivity).
  - by left.
  - right. by left.
Qed.

End TunnelProps.

(* ===================================================================== *)
(** * Properties of the primitive validators *)
(* ===================================================================== *)

Section ValidatorProps.
Context `{RT : PyRuntime}.
Import Builtins TunnelConfig.

Ltac on_ll_float :=
  match goal with
  | |- context [ll_float ?x] => destruct (ll_float x) as [[|]|?] eqn:?
  end.
Ltac on_int_float_in_01 :=
  match goal with
  | |- context [int_float_in_01 ?x] =>
      let E := fresh "E01" in
      destruct (int_float_in_01 x) as [[|]|?] eqn:E
  end.
Ltac on_py_str :=
  match goal with
  | |- context [py_str ?x] => destruct (py_str x) as [?|[]] eqn:?
  end.

Lemma int_float_in_01_int_of_float (v : pyval) (b : bool) :
  int_float_in_01 v = Ok b ->
  exists f n, py_float v = Ok f /\ int_of_float f = Ok n.
Proof.
  unfold int_float_in_01.
  destruct (py_float v) as [f|e]; cbn; [|discriminate].
  destruct (int_of_float f) as [n|e] eqn:Hn; cbn; [|discriminate].
  intros _. by exists f, n.
Qed.

Lemma ll_bool_true_to_bool (v : pyval) :
  ll_bool v = Ok true -> exists b, to_bool v = Ok b.
Proof.
  destruct v; cbn -[ll_float int_float_in_01 py_float py_str PyStr.mem];
    try discriminate; try (by eexists).
  all: on_ll_float; cbn -[ll_float int_float_in_01 py_float py_str PyStr.mem];
    try discriminate.
  all: first
    [ on_int_float_in_01; cbn -[py_float]; try discriminate; intros _;
      apply int_float_in_01_int_of_float in E01 as (f' & n & -> & Hn);
      cbn; rewrite Hn; by eexists
    | on_py_str; cbn -[PyStr.mem]; try discriminate;
      repeat case_match; try discriminate; by eexists ].
Qed.

Lemma to_bool_ll_bool_true (v : pyval) (b : bool) :
  to_bool v = Ok b -> ll_bool v = Ok true.
Proof.
  destruct v; cbn -[ll_float int_float_in_01 py_float py_str PyStr.mem];
    try discriminate; try done.
  all: on_ll_float; cbn -[ll_float int_float_in_01 py_float py_str PyStr.mem];
    try discriminate.
  all: first
    [ on_int_float_in_01; cbn -[py_float]; try discriminate; done
    | on_py_str; cbn -[PyStr.mem]; try discriminate;
      repeat case_match; try discriminate; done ].
Qed.

Lemma ll_float_no_TypeError (v : pyval) (msg : string) :
  ll_float v <> Raise (TypeError msg).
Proof. unfold ll_float. by repeat case_match. Qed.

Lemma int_float_in_01_no_TypeError (v : pyval) (msg : string) :
  ll_float v = Ok true -> int_float_in_01 v <> Raise (TypeError msg).
Proof.
  unfold ll_float, int_float_in_01.
  destruct (py_float v) as [f|e]; cbn.
  - intros _. destruct f; cbn; repeat case_match; discriminate.
  - repeat case_match; discriminate.
Qed.

(** What [ll_bool] raises is never a [TypeError]. *)
Lemma ll_bool_no_TypeError (v : pyval) (msg : string) :
  ll_bool v <> Raise (TypeError msg).
Proof.
  destruct v; cbn -[ll_float int_float_in_01 py_float py_str PyStr.mem];
    try discriminate.
  all: on_ll_float; cbn -[ll_float int_float_in_01 py_float py_str PyStr.mem].
  all: first
    [ by apply int_float_in_01_no_TypeError
    | on_py_str; cbn -[PyStr.mem]; repeat case_match; discriminate
    | match goal with
      | H : ll_float _ = Raise _ |- _ =>
          intros E; injection E as ->; by apply ll_float_no_TypeError in H
      end ].
Qed.

(** C10.  For every value, [ll_bool] answers true exactly when [to_bool]
    returns a boolean; and the validation of the key [reverse], which
    calls [to_bool] once [ll_bool] has answered true, returns a boolean
    in that case and never ends in a [TypeError]. *)
Theorem ll_bool_iff_to_bool_returns :
  (forall v : pyval, ll_bool v = Ok true <-> exists b, to_bool v = Ok b)
  /\ (forall (tunnel_description val : string),
        (ll_bool (PyStr val) = Ok true <->
         exists b, check_reverse tunnel_description val = Ok b)
        /\ forall msg,
            check_reverse tunnel_description val <> Raise (TypeError msg)).
Proof.
  split.
  - intros v. split.
    + apply ll_bool_true_to_bool.
    + intros [b Hb]. by eapply to_bool_ll_bool_true.
  - intros desc val. unfold check_reverse.
    destruct (ll_bool (PyStr val)) as [[|]|e] eqn:Hll; cbn -[to_bool].
    + destruct (ll_bool_true_to_bool _ Hll) as [b Hb]. rewrite Hb.
      split; [split; eauto|discriminate].
    + split; [|discriminate].
      split; [discriminate|]. by intros [b ?].
    + split.
      * split; [discriminate|]. by intros [b ?].
      * intros msg E. injection E as ->.
        by apply ll_bool_no_TypeError in Hll.
Qed.

End ValidatorProps.

(* ===================================================================== *)
(** * Properties of the validation of a tunnel *)
(* ===================================================================== *)

Section FoldM.
Context {A B : Type} (f : B -> A -> except B).

Lemma foldM_app (acc : B) (l1 l2 : list A) :
  foldM f acc (l1 ++ l2) = acc' ← foldM f acc l1; foldM f acc' l2.
Proof.
  revert acc. induction l1 as [|x l1 IH]; intros acc; cbn; [done|].
  destruct (f acc x) as [acc'|e]; cbn; [apply IH|done].
Qed.

Lemma foldM_app_Ok (acc acc2 : B) (l1 l2 : list A) :
  foldM f acc (l1 ++ l2) = Ok acc2 ->
  exists acc1, foldM f acc l1 = Ok acc1 /\ foldM f acc1 l2 = Ok acc2.
Proof.
  rewrite foldM_app. destruct (foldM f acc l1) as [acc1|e]; cbn; [|done].
  intros H. by exists acc1.
Qed.

Lemma foldM_cons_Ok (acc acc2 : B) (x : A) (l : list A) :
  foldM f acc (x :: l) = Ok acc2 ->
  exists acc1, f acc x = Ok acc1 /\ foldM f acc1 l = Ok acc2.
Proof.
  cbn. destruct (f acc x) as [acc1|e]; cbn; [|done].
  intros H. by exists acc1.
Qed.

(** A loop with a turn that always raises does not return. *)
Lemma foldM_rejects (acc : B) (x : A) (l : list A) :
  x ∈ l -> (forall acc', ~ returns (f acc' x)) -> ~ returns (foldM f acc l).
Proof.
  intros Hin Hx. revert acc.
  induction l as [|y l IH]; intros acc [r Hr]; [by apply elem_of_nil in Hin|].
  apply foldM_cons_Ok in Hr as (acc1 & Hy & Hl).
  apply elem_of_cons in Hin as [->|Hin].
  - apply (Hx acc). by exists acc1.
  - apply (IH Hin acc1). by exists r.
Qed.

(** An invariant of the turns is an invariant of the loop. *)
Lemma foldM_invariant (P : B -> Prop) (acc acc' : B) (l : list A) :
  (forall a x b, x ∈ l -> P a -> f a x = Ok b -> P b) ->
  P acc -> foldM f acc l = Ok acc' -> P acc'.
Proof.
  revert acc. induction l as [|x l IH]; intros acc Hstep Hacc; cbn.
  - by intros [= <-].
  - destruct (f acc x) as [acc1|e] eqn:Hx; cbn; [|done].
    apply IH.
    + intros a y b Hy. apply Hstep. by right.
    + eapply Hstep; [by left|done..].
Qed.

End FoldM.

Section CheckProps.
Context `{RT : PyRuntime} `{HO : Host}.
Import Builtins TunnelConfig Vocabulary.

Lemma check_port_integer (param tunnel_description val : string) (n : Z) :
  int_of_str val = Ok n ->
  check_port param tunnel_description val
  = if (1 <=? n) && (n <=? 65534) then Ok n
    else Raise (invalid_port_error param tunnel_description).
Proof.
  intros Hn. unfold check_port, ll_int. cbn. rewrite Hn. cbn.
  destruct (Z.leb_spec 1 n), (Z.leb_spec n 65534),
    (Z.geb_spec 0 n), (Z.gtb_spec n 65534); cbn; try done; lia.
Qed.

Lemma check_port_not_integer (param tunnel_description val : string) :
  int_of_str val = Raise ValueError ->
  check_port param tunnel_description val
  = Raise (invalid_port_error param tunnel_description).
Proof. intros Hn. unfold check_port, ll_int. cbn. by rewrite Hn. Qed.

Lemma check_port_rejects (param tunnel_description val : string) :
  bad_port_value val ->
  check_port param tunnel_description val
  = Raise (invalid_port_error param tunnel_description).
Proof.
  intros [Hv | (n & Hn & Hr)].
  - by apply check_port_not_integer.
  - rewrite (check_port_integer _ _ _ _ Hn). unfold port_in_range in Hr.
    destruct (Z.leb_spec 1 n), (Z.leb_spec n 65534); cbn; try done. lia.
Qed.

Lemma check_item_port_rejects (tunnel_description key val : string) (c : cleaned) :
  port_key (PyStr.lower (PyStr.strip key)) ->
  bad_port_value val ->
  check_item tunnel_description c (key, val)
  = Raise (invalid_port_error (PyStr.lower (PyStr.strip key)) tunnel_description).
Proof.
  intros Hk Hv. unfold check_item.
  destruct Hk as [-> | [-> | ->]]; cbn -[check_port];
    by rewrite check_port_rejects.
Qed.

Lemma check_tunnel_port_rejects (group key val : string)
    (tunnel_config : list (string * string)) :
  (key, val) ∈ tunnel_config ->
  port_key (PyStr.lower (PyStr.strip key)) ->
  bad_port_value val ->
  ~ returns (check_tunnel group tunnel_config).
Proof.
  intros Hkey Hk Hv [t Ht]. unfold check_tunnel in Ht.
  destruct (dict_get tunnel_config "tunnel_name") as [tn|]; [|done].
  unfold check_tunnel_items in Ht.
  match type of Ht with
  | context [foldM ?f ?a ?l] => destruct (foldM f a l) as [c|e] eqn:Hfold
  end; [|done].
  eapply (foldM_rejects _ _ (key, val)); [exact Hkey| |by exists c; apply Hfold].
  intros c' [c'' Hc]. by rewrite check_item_port_rejects in Hc.
Qed.

(** C6.  The validation of a port value.  On an interpreter whose
    [int] reads the plain decimal notation and refuses a string that
    begins with a letter, as that of Python 2 and that of Python 3
    do, "0", "65535" and "abc" are refused with a [ConfigError], "1"
    and "65534" are accepted.  On
    every interpreter, a value [int] reads the integer [n] from is
    accepted, as [n], exactly when [1 <= n <= 65534], and refused with
    a [ConfigError] otherwise, as is a value [int] refuses with a
    [ValueError]; the keys [remote_port], [local_port] and [ssh_port]
    go through the same test; and a field set that gives one of these
    keys a refused value yields no tunnel. *)
Theorem port_bounds :
  (int_conforms ->
   forall d,
      check_port "remote_port" d "0" = Raise (invalid_port_error "remote_port" d)
      /\ check_port "remote_port" d "65535" = Raise (invalid_port_error "remote_port" d)
      /\ check_port "remote_port" d "abc" = Raise (invalid_port_error "remote_port" d)
      /\ check_port "remote_port" d "1" = Ok 1
      /\ check_port "remote_port" d "65534" = Ok 65534)
  /\ (forall param d val n,
        int_of_str val = Ok n ->
        (check_port param d val = Ok n <-> port_in_range n)
        /\ (~ port_in_range n ->
            check_port param d val = Raise (invalid_port_error param d)))
  /\ (forall param d val,
        int_of_str val = Raise ValueError ->
        check_port param d val = Raise (invalid_port_error param d))
  /\ (forall d c val,
        check_item d c ("remote_port", val)
        = (v ← check_port "remote_port" d val; Ok (set_remote_port v c))
        /\ check_item d c ("local_port", val)
          = (v ← check_port "local_port" d val; Ok (set_local_port v c))
        /\ check_item d c ("ssh_port", val)
          = (v ← check_port "ssh_port" d val; Ok (set_ssh_port v c)))
  /\ (forall group key val (tunnel_config : list (string * string)),
        (key, val) ∈ tunnel_config ->
        port_key (PyStr.lower (PyStr.strip key)) ->
        bad_port_value val ->
        ~ returns (check_tunnel group tunnel_config)).
Proof.
  split; [|split; [|split; [|split]]].
  - intros [Hdec Hlet] d.
    rewrite (check_port_integer _ _ "0" 0), (check_port_integer _ _ "65535" 65535),
      (check_port_integer _ _ "1" 1), (check_port_integer _ _ "65534" 65534),
      (check_port_not_integer _ _ "abc");
      first [ by apply Hdec; [cbn; lia|]
            | by apply Hlet
            | done ].
  - intros param d val n Hn. rewrite (check_port_integer _ _ _ _ Hn).
    unfold port_in_range.
    destruct (Z.leb_spec 1 n), (Z.leb_spec n 65534); cbn;
      (split; [split; [intros; try done; lia | intros; try done; lia]
              | intros; try done; lia]).
  - intros. by apply check_port_not_integer.
  - intros. repeat split.
  - apply check_tunnel_port_rejects.
Qed.

End CheckProps.

(** The plain decimal notation is read or refused with a
    [ValueError]. *)
Lemma decimal_cases (val : string) :
  (exists n, Builtins.decimal val = Ok n) \/ Builtins.decimal val = Raise ValueError.
Proof.
  assert (Hfrom : forall s acc,
             (exists n, Builtins.digits_from acc s = Ok n)
             \/ Builtins.digits_from acc s = Raise ValueError).
  { induction s as [|c s IH]; intros acc; cbn; [by left; eexists|].
    destruct (Builtins.is_digit c); [apply IH|by right]. }
  assert (Hdigits : forall s,
             (exists n, Builtins.digits s = Ok n)
             \/ Builtins.digits s = Raise ValueError).
  { intros [|c s]; [by right|apply Hfrom]. }
  unfold Builtins.decimal.
  destruct (PyStr.strip val) as [|c r] eqn:E; [by right|].
  destruct (Ascii.eqb_spec c "+") as [->|Hp]; [apply Hdigits|].
  destruct (Ascii.eqb_spec c "-") as [->|Hm].
  - destruct (Hdigits r) as [[n Hn]|Hn]; rewrite Hn; cbn; [left; by eexists|by right].
  - assert (Hd := Hdigits (String c r)).
    destruct c as [[] [] [] [] [] [] [] []]; try apply Hd; congruence.
Qed.

Lemma decimal_letter (c : ascii) (r : string) :
  Builtins.is_letter c = true -> Builtins.decimal (String c r) = Raise ValueError.
Proof.
  intros Hc. destruct (decimal_cases (String c r)) as [[n Hn]|Hn]; [|done].
  exfalso. revert Hn. unfold Builtins.decimal, PyStr.strip.
  assert (Hsp : PyStr.is_space c = false)
    by (by destruct c as [[] [] [] [] [] [] [] []]).
  cbn [PyStr.lstrip]. rewrite Hsp. cbn [PyStr.rstrip].
  assert (Hhead : exists r', match PyStr.rstrip r with
                             | "" => if PyStr.is_space c then "" else String c ""
                             | String a s => String c (String a s)
                             end = String c r').
  { rewrite Hsp. destruct (PyStr.rstrip r); by eexists. }
  destruct Hhead as [r' ->].
  assert (Hd : Builtins.is_digit c = false)
    by (by destruct c as [[] [] [] [] [] [] [] []]).
  destruct c as [[] [] [] [] [] [] [] []]; try done; cbn in Hd |- *;
    try discriminate.
Qed.

(** The sample interpreter reads integers as every Python does. *)
Lemma runtime_int_conforms : Vocabulary.int_conforms (RT := Samples.runtime).
Proof. split; [done|]. intros c r Hc. by apply decimal_letter. Qed.

(** The port bounds on two interpreters and a host: "80" is accepted
    by both, "eighty" is not an integer, a tunnel whose [ssh_port] is
    "70000" is refused, and "8_0" is the port 80 where [int] reads
    grouped digits and is refused where it does not. *)
Lemma port_bounds_witness :
  (TunnelConfig.check_port (RT := Samples.runtime) "remote_port" "d" "0"
   = Raise (Vocabulary.invalid_port_error "remote_port" "d")
   /\ TunnelConfig.check_port (RT := Samples.runtime) "remote_port" "d" "65534"
      = Ok 65534)
  /\ (TunnelConfig.check_port (RT := Samples.runtime) "local_port" "web's http tunnel" "80" = Ok 80
      <-> Vocabulary.port_in_range 80)
  /\ TunnelConfig.check_port (RT := Samples.runtime) "local_port" "d" "eighty"
     = Raise (Vocabulary.invalid_port_error "local_port" "d")
  /\ ~ returns (TunnelConfig.check_tunnel (RT := Samples.runtime)
                  (HO := Samples.host [] "10.0.0.1") "web"
                  [("tunnel_name", "http"); ("SSH_Port", "70000")])
  /\ (TunnelConfig.check_port (RT := Samples.grouping_runtime) "remote_port" "d" "8_0"
      = Ok 80 <-> Vocabulary.port_in_range 80)
  /\ TunnelConfig.check_port (RT := Samples.runtime) "remote_port" "d" "8_0"
     = Raise (Vocabulary.invalid_port_error "remote_port" "d").
Proof.
  destruct (port_bounds (RT := Samples.runtime) (HO := Samples.host [] "10.0.0.1"))
    as (Hlit & Hint & Hbad & _ & Hset).
  destruct (port_bounds (RT := Samples.grouping_runtime)
              (HO := Samples.host [] "10.0.0.1")) as (_ & Hint3 & _).
  split; [|split; [|split; [|split; [|split]]]].
  - destruct (Hlit runtime_int_conforms "d") as (H0 & _ & _ & _ & H65534).
    by split.
  - apply (Hint "local_port" "web's http tunnel" "80" 80). reflexivity.
  - apply (Hbad "local_port" "d" "eighty"). reflexivity.
  - apply (Hset "web" "SSH_Port" "70000").
    + apply list_elem_of_further, list_elem_of_here.
    + right. right. reflexivity.
    + right. exists 70000. split; [reflexivity|].
      unfold Vocabulary.port_in_range. lia.
  - apply (Hint3 "remote_port" "d" "8_0" 80). reflexivity.
  - apply (Hbad "remote_port" "d" "8_0"). reflexivity.
Defined.

(* ===================================================================== *)
(** * Properties of the preprocessing *)
(* ===================================================================== *)

Section PreProcessProps.
Context `{RT : PyRuntime} `{HO : Host}.
Import TunnelConfig Vocabulary.











End PreProcessProps.




(** With three nested calls allowed, the loading of a file that
    includes itself ends with the error of the fourth call, wrapped. *)
Lemma self_include_config_error :
  TunnelConfig._pre_process_file (HO := Samples.loop_host) 3 "/etc/sshtunnel"
    "loop.conf" None = Raise RecursionError
  /\ TunnelConfig._parse_config (RT := Samples.runtime) (HO := Samples.loop_host)
       3 "/etc/sshtunnel" "loop.conf"
     = Raise (ConfigError "Bad configuration file loop.conf: error").
Proof. split; vm_compute; reflexivity. Qed.

(* ===================================================================== *)
(** * Properties of the resolution *)
(* ===================================================================== *)

Section AnalyseProps.
Import TunnelConfig Vocabulary.
Implicit Types (parser : Parser) (fields : gmap string string).

Lemma overlay_layered parser section fields fields' :
  overlay parser section fields = Ok fields' ->
  layered parser section fields fields'.
Proof.
  unfold overlay, layered.
  generalize (options parser section) as keys. intros keys. revert fields.
  induction keys as [|x keys IH]; intros fields Hfold key.
  - injection Hfold as <-. split; [by intros ?%elem_of_nil|done].
  - apply foldM_cons_Ok in Hfold as (fields1 & Hx & Hrest).
    destruct (get parser section x) as [v|e] eqn:Hget; [|done].
    injection Hx as <-.
    destruct (IH _ Hrest key) as [Hin Hout].
    destruct (decide (key ∈ keys)) as [Hk|Hk].
    + split; [by intros _; apply Hin|]. intros Hno. destruct Hno. by right.
    + rewrite (Hout Hk). split.
      * intros [->|?]%elem_of_cons; [|done].
        exists v. by rewrite lookup_insert_eq.
      * intros Hno. apply lookup_insert_ne. intros ->. apply Hno. by left.
Qed.

Lemma layered_in parser section below fields key :
  layered parser section below fields ->
  key ∈ options parser section ->
  exists v, get parser section key = Ok v /\ fields !! key = Some v.
Proof. intros H. apply H. Qed.

Lemma layered_out parser section below fields key :
  layered parser section below fields ->
  key ∉ options parser section ->
  fields !! key = below !! key.
Proof. intros H. apply H. Qed.

(** Overlaying a section twice is one layer over what was below. *)
Lemma layered_twice parser section below fields fields' :
  layered parser section below fields ->
  layered parser section fields fields' ->
  layered parser section below fields'.
Proof.
  intros H1 H2 key. split.
  - apply H2.
  - intros Hk. rewrite (layered_out _ _ _ _ _ H2 Hk). by apply H1.
Qed.

(** ** The common fields *)

Lemma common_steps_keep parser (post : list string) key cf cf' :
  foldM (common_step parser) cf post = Ok cf' ->
  (forall s, s ∈ post -> reserved s = true -> key ∉ options parser s) ->
  cf' !! key = cf !! key.
Proof.
  revert cf. induction post as [|s post IH]; intros cf Hfold Hno.
  - by injection Hfold as <-.
  - apply foldM_cons_Ok in Hfold as (cf1 & Hs & Hrest).
    rewrite (IH _ Hrest) by (intros s' Hin; apply Hno; by right).
    unfold common_step in Hs. destruct (reserved s) eqn:Hres; cbn in Hs.
    + apply overlay_layered in Hs. apply (layered_out _ _ _ _ _ Hs).
      apply Hno; [by left|done].
    + by injection Hs as <-.
Qed.

Lemma read_common_last parser cf (pre post : list string) s key :
  read_common parser = Ok cf ->
  sections parser = pre ++ s :: post ->
  reserved s = true ->
  key ∈ options parser s ->
  (forall s', s' ∈ post -> reserved s' = true -> key ∉ options parser s') ->
  exists v, get parser s key = Ok v /\ cf !! key = Some v.
Proof.
  unfold read_common. intros Hfold Hsec Hres Hkey Hpost. rewrite Hsec in Hfold.
  apply foldM_app_Ok in Hfold as (cf1 & _ & Hfold).
  apply foldM_cons_Ok in Hfold as (cf2 & Hs & Hrest).
  unfold common_step in Hs. rewrite Hres in Hs. cbn in Hs.
  apply overlay_layered in Hs.
  destruct (layered_in _ _ _ _ _ Hs Hkey) as (v & Hget & Hv).
  exists v. split; [done|].
  by rewrite (common_steps_keep _ _ _ _ _ Hrest Hpost).
Qed.

(** ** The fields of the groups *)

Lemma group_step_not_taken parser cf gf section :
  reserved section || has_slash section = true ->
  group_step parser cf gf section = Ok gf.
Proof. unfold group_step. by intros ->. Qed.

Lemma group_step_taken parser cf gf gf' section :
  reserved section || has_slash section = false ->
  group_step parser cf gf section = Ok gf' ->
  exists fields,
    overlay parser section (default cf (gf !! section)) = Ok fields
    /\ gf' = <[section := fields]> gf.
Proof.
  unfold group_step. intros ->.
  replace (match gf !! section with Some f => f | None => cf end)
    with (default cf (gf !! section)) by by destruct (gf !! section).
  destruct (overlay _ _ _) as [fields|e] eqn:Ho; cbn; [|done].
  intros [= <-]. by exists fields.
Qed.

Lemma read_groups_sound parser cf gf group fields :
  read_groups parser cf = Ok gf ->
  gf !! group = Some fields ->
  is_group_section parser group /\ layered parser group cf fields.
Proof.
  unfold read_groups. intros Hfold. revert group fields.
  refine (foldM_invariant (group_step parser cf)
            (fun gf => forall group fields, gf !! group = Some fields ->
               is_group_section parser group /\ layered parser group cf fields)
            ∅ gf (sections parser) _ _ Hfold).
  - intros a s b Hin Ha Hstep group fields Hb.
    destruct (reserved s || has_slash s) eqn:Htaken.
    + rewrite group_step_not_taken in Hstep by done.
      injection Hstep as <-. by apply Ha.
    + apply group_step_taken in Hstep as (fs & Hover & ->); [|done].
      apply overlay_layered in Hover.
      destruct (decide (s = group)) as [<-|Hne].
      * rewrite lookup_insert_eq in Hb. injection Hb as <-.
        apply orb_false_elim in Htaken as [Hres Hslash].
        split; [done|].
        destruct (a !! s) as [f0|] eqn:Hs; cbn in Hover; [|done].
        eapply layered_twice; [|done]. by apply (Ha s f0).
      * rewrite lookup_insert_ne in Hb by done. by apply Ha.
  - intros group fields Hempty. by rewrite lookup_empty in Hempty.
Qed.

Lemma group_steps_complete parser cf (l : list string) gf0 gf group :
  foldM (group_step parser cf) gf0 l = Ok gf ->
  is_Some (gf0 !! group)
  \/ (group ∈ l /\ reserved group = false /\ has_slash group = false) ->
  is_Some (gf !! group).
Proof.
  revert gf0. induction l as [|s l IH]; intros gf0 Hfold Hg.
  - injection Hfold as <-. destruct Hg as [Hg|[Hin _]]; [done|].
    by apply elem_of_nil in Hin.
  - apply foldM_cons_Ok in Hfold as (gf1 & Hstep & Hrest).
    apply (IH _ Hrest).
    destruct (reserved s || has_slash s) eqn:Htaken.
    + rewrite group_step_not_taken in Hstep by done. injection Hstep as <-.
      destruct Hg as [Hg|(Hin & Hres & Hslash)]; [by left|].
      apply elem_of_cons in Hin as [->|Hin]; [|by right].
      rewrite Hres, Hslash in Htaken. done.
    + apply group_step_taken in Hstep as (fs & _ & ->); [|done].
      destruct (decide (s = group)) as [<-|Hne].
      * left. by rewrite lookup_insert_eq.
      * destruct Hg as [Hg|(Hin & Hres & Hslash)].
        -- left. by rewrite lookup_insert_ne.
        -- apply elem_of_cons in Hin as [->|Hin]; [done|by right].
Qed.

Lemma read_groups_complete parser cf gf group :
  read_groups parser cf = Ok gf ->
  is_group_section parser group ->
  is_Some (gf !! group).
Proof.
  intros Hfold Hg. eapply group_steps_complete; [exact Hfold|by right].
Qed.

(** ** The tunnels *)

Lemma tunnel_fields_layered parser gf section group tunnel_name fields :
  tunnel_fields parser gf section group tunnel_name = Ok fields ->
  layered parser section
    (<["tunnel_name" := tunnel_name]> (default ∅ (gf !! group))) fields.
Proof.
  unfold tunnel_fields. intros H. apply overlay_layered.
  by destruct (gf !! group).
Qed.

Lemma tunnel_step_not_taken parser gf tc section :
  reserved section || negb (has_slash section) = true ->
  tunnel_step parser gf tc section = Ok tc.
Proof. unfold tunnel_step. by intros ->. Qed.

Lemma tunnel_step_taken parser gf tc tc' section :
  reserved section || negb (has_slash section) = false ->
  tunnel_step parser gf tc section = Ok tc' ->
  exists group tunnel_name fields,
    unpack_section section = Ok (group, tunnel_name)
    /\ tunnel_fields parser gf section group tunnel_name = Ok fields
    /\ tc' = <[group := default [] (tc !! group) ++ [fields]]> tc.
Proof.
  unfold tunnel_step. intros ->.
  destruct (unpack_section section) as [[group tunnel_name]|e] eqn:Hu; cbn; [|done].
  destruct (tunnel_fields _ _ _ _ _) as [fields|e] eqn:Hf; cbn; [|done].
  intros [= <-]. by exists group, tunnel_name, fields.
Qed.

Lemma tunnel_section_of_taken group section tunnel_name :
  reserved section || negb (has_slash section) = false ->
  unpack_section section = Ok (group, tunnel_name) ->
  forall g, tunnel_section_of g section = bool_decide (group = g).
Proof.
  intros Htaken Hunpack g. unfold tunnel_section_of. rewrite Hunpack.
  apply orb_false_elim in Htaken as [-> Hslash].
  apply negb_false_iff in Hslash as ->. cbn.
  destruct (String.eqb_spec group g);
    [by rewrite bool_decide_true|by rewrite bool_decide_false].
Qed.

Lemma tunnel_section_of_not_taken group section :
  reserved section || negb (has_slash section) = true ->
  tunnel_section_of group section = false.
Proof.
  unfold tunnel_section_of. intros [->| ->%negb_true_iff]%orb_true_iff; [done|].
  by rewrite andb_false_r.
Qed.

Lemma tunnel_steps_entries parser gf (l : list string) tc0 tc group :
  foldM (tunnel_step parser gf) tc0 l = Ok tc ->
  exists new,
    default [] (tc !! group) = default [] (tc0 !! group) ++ new
    /\ entries_of parser gf group (List.filter (tunnel_section_of group) l) new
    /\ (is_Some (tc !! group) <-> is_Some (tc0 !! group) \/ new <> []).
Proof.
  revert tc0. induction l as [|s l IH]; intros tc0 Hfold.
  - injection Hfold as <-. exists []. rewrite app_nil_r.
    split; [done|]. split; [constructor|].
    split; [by left|]. by intros [?|?].
  - apply foldM_cons_Ok in Hfold as (tc1 & Hstep & Hrest).
    destruct (IH _ Hrest) as (new1 & Happ & Hentries & Hsome).
    destruct (reserved s || negb (has_slash s)) eqn:Htaken.
    + rewrite tunnel_step_not_taken in Hstep by done. injection Hstep as <-.
      exists new1. cbn. by rewrite tunnel_section_of_not_taken.
    + apply tunnel_step_taken in Hstep as (g & t & f & Hunpack & Hf & ->); [|done].
      cbn. rewrite (tunnel_section_of_taken _ _ _ Htaken Hunpack).
      destruct (decide (g = group)) as [->|Hne].
      * rewrite bool_decide_true by done.
        rewrite lookup_insert_eq in Happ, Hsome. cbn in Happ.
        exists (f :: new1). split; [by rewrite Happ, <- app_assoc|].
        split; [constructor; [by exists t|done]|].
        split; [by right|]. intros _. apply Hsome. by left.
      * rewrite bool_decide_false by done.
        rewrite lookup_insert_ne in Happ, Hsome by done.
        by exists new1.
Qed.

Lemma read_tunnels_entries parser gf tc group :
  read_tunnels parser gf = Ok tc ->
  entries_of parser gf group (tunnel_sections_of parser group)
             (default [] (tc !! group))
  /\ (tc !! group = None <-> tunnel_sections_of parser group = []).
Proof.
  intros Hfold.
  destruct (tunnel_steps_entries _ _ _ _ _ group Hfold)
    as (new & Happ & Hentries & Hsome).
  rewrite lookup_empty in Happ, Hsome. cbn in Happ. rewrite Happ.
  split; [done|].
  rewrite eq_None_not_Some, Hsome.
  unfold tunnel_sections_of. unfold entries_of in Hentries.
  split.
  - intros Hno. destruct new as [|f new].
    + by apply Forall2_nil_inv_r in Hentries.
    + destruct Hno. by right.
  - intros Hnil [[]%is_Some_None|Hnew]. rewrite Hnil in Hentries.
    by apply Forall2_nil_inv_l in Hentries.
Qed.

(** ** The anonymous tunnels *)

Lemma default_steps_lookup (items : list (string * gmap string string))
    (tc : gmap string (list (gmap string string))) (group : string) :
  NoDup items.*1 ->
  foldl default_step tc items !! group
  = match tc !! group with
    | Some entries => Some entries
    | None =>
        match (list_to_map items : gmap string (gmap string string)) !! group with
        | Some fields =>
            if (size fields =? 0)%nat then None else Some [default_entry fields]
        | None => None
        end
    end.
Proof.
  revert tc. induction items as [|[g fields] items IH]; intros tc Hnodup.
  - cbn. rewrite lookup_empty. by destruct (tc !! group).
  - apply NoDup_cons in Hnodup as [Hfresh Hnodup]. cbn [foldl].
    rewrite IH by done. cbn [list_to_map foldr uncurry].
    unfold default_step at 1.
    destruct (decide (g = group)) as [->|Hne].
    + rewrite lookup_insert_eq.
      rewrite (not_elem_of_list_to_map_1 _ group) by done.
      destruct (tc !! group) as [entries|] eqn:Htc.
      * rewrite bool_decide_true by done. cbn. by rewrite Htc.
      * rewrite bool_decide_false by (by intros []%is_Some_None).
        cbn. destruct (size fields =? 0)%nat; [by rewrite Htc|].
        by rewrite lookup_insert_eq.
    + rewrite (lookup_insert_ne _ g group) by done.
      destruct (bool_decide _ || _); [done|].
      by rewrite lookup_insert_ne.
Qed.

Lemma add_defaults_lookup (gf : gmap string (gmap string string))
    (tc : gmap string (list (gmap string string))) (group : string) :
  add_defaults gf tc !! group
  = match tc !! group with
    | Some entries => Some entries
    | None =>
        match gf !! group with
        | Some fields =>
            if (size fields =? 0)%nat then None else Some [default_entry fields]
        | None => None
        end
    end.
Proof.
  unfold add_defaults. rewrite default_steps_lookup.
  - by rewrite list_to_map_to_list.
  - apply NoDup_fst_map_to_list.
Qed.

(** ** The whole resolution *)

Lemma analyse_config_stages parser cf gf r :
  _analyse_config parser = Ok r ->
  read_common parser = Ok cf ->
  read_groups parser cf = Ok gf ->
  exists tc, read_tunnels parser gf = Ok tc /\ r = add_defaults gf tc.
Proof.
  unfold _analyse_config. intros Hr Hcf Hgf. rewrite Hcf in Hr. cbn in Hr.
  rewrite Hgf in Hr. cbn in Hr.
  destruct (read_tunnels parser gf) as [tc|e]; [|done].
  injection Hr as <-. by exists tc.
Qed.

Lemma default_entry_name fields :
  default_entry fields !! "tunnel_name" = Some "default_tunnel".
Proof. apply lookup_insert_eq. Qed.

Lemma default_entry_other fields key :
  key <> "tunnel_name" -> default_entry fields !! key = fields !! key.
Proof. intros Hne. by apply lookup_insert_ne. Qed.

Lemma size_zero_empty fields : (size fields =? 0)%nat = true <-> fields = ∅.
Proof. rewrite Nat.eqb_eq. apply map_size_empty_iff. Qed.

(** C5.  A group whose field set is not empty and which has no tunnel
    section gets exactly one entry, the field set of the group with
    the name [default_tunnel] as its [tunnel_name]; a group with
    tunnel sections gets the entries the third loop made, one for each
    of its tunnel sections in the order of the document, and no
    other. *)
Theorem default_tunnel_synthesis parser cf gf tc r group :
  _analyse_config parser = Ok r ->
  read_common parser = Ok cf ->
  read_groups parser cf = Ok gf ->
  read_tunnels parser gf = Ok tc ->
  (forall fields,
      gf !! group = Some fields -> fields <> ∅ ->
      tunnel_sections_of parser group = [] ->
      r !! group = Some [default_entry fields]
      /\ default_entry fields !! "tunnel_name" = Some "default_tunnel"
      /\ forall key, key <> "tunnel_name" ->
                     default_entry fields !! key = fields !! key)
  /\ (tunnel_sections_of parser group <> [] ->
      exists entries,
        r !! group = Some entries /\ tc !! group = Some entries
        /\ entries_of parser gf group (tunnel_sections_of parser group) entries).
Proof.
  intros Hr Hcf Hgf Htc.
  destruct (analyse_config_stages _ _ _ _ Hr Hcf Hgf) as (tc' & Htc' & ->).
  rewrite Htc in Htc'. injection Htc' as <-.
  destruct (read_tunnels_entries _ _ _ group Htc) as [Hentries Hnone].
  rewrite add_defaults_lookup. split.
  - intros fields Hfields Hne Hnil. apply Hnone in Hnil. rewrite Hnil, Hfields.
    destruct (size fields =? 0)%nat eqn:Hsize.
    + by apply size_zero_empty in Hsize.
    + split; [done|]. split; [apply default_entry_name|apply default_entry_other].
  - intros Hsecs. destruct (tc !! group) as [entries|] eqn:Hg.
    + by exists entries.
    + destruct Hsecs. by apply Hnone.
Qed.

(** C1, as the code has it.  In every entry of a group made from a
    tunnel section, a key of the tunnel section has the value of that
    section, whatever the group and the common sections give it; when
    the group has a section of its own, any other key but [tunnel_name]
    has the value of the group section if the group section has it, and
    else the value of the common field set, if any; when the group has
    no section of its own, the entry holds the keys of the tunnel
    section and [tunnel_name] only.  The entry of an anonymous tunnel
    holds the keys of the group section with their values there, and
    the other keys of the common field set. *)
Theorem merge_order parser cf gf r group entries :
  _analyse_config parser = Ok r ->
  read_common parser = Ok cf ->
  read_groups parser cf = Ok gf ->
  r !! group = Some entries ->
  (tunnel_sections_of parser group <> [] ->
   Forall2
     (fun section fields =>
        (forall key, key ∈ options parser section ->
           exists v, get parser section key = Ok v /\ fields !! key = Some v)
        /\ (is_group_section parser group ->
            forall key, key ∉ options parser section -> key <> "tunnel_name" ->
              (key ∈ options parser group ->
               exists v, get parser group key = Ok v /\ fields !! key = Some v)
              /\ (key ∉ options parser group -> fields !! key = cf !! key))
        /\ (~ is_group_section parser group ->
            forall key, key ∉ options parser section -> key <> "tunnel_name" ->
              fields !! key = None))
     (tunnel_sections_of parser group) entries)
  /\ (tunnel_sections_of parser group = [] ->
      exists fields,
        gf !! group = Some fields /\ entries = [default_entry fields]
        /\ is_group_section parser group
        /\ forall key, key <> "tunnel_name" ->
              (key ∈ options parser group ->
               exists v, get parser group key = Ok v
                         /\ default_entry fields !! key = Some v)
              /\ (key ∉ options parser group ->
                  default_entry fields !! key = cf !! key)).
Proof.
  intros Hr Hcf Hgf Hentries.
  destruct (analyse_config_stages _ _ _ _ Hr Hcf Hgf) as (tc & Htc & ->).
  destruct (read_tunnels_entries _ _ _ group Htc) as [Hmade Hnone].
  rewrite add_defaults_lookup in Hentries. split.
  - intros Hsecs. destruct (tc !! group) as [es|] eqn:Hg;
      [|destruct Hsecs; by apply Hnone].
    injection Hentries as <-. cbn in Hmade.
    eapply Forall2_impl; [exact Hmade|].
    intros section fields (tunnel_name & _ & Hfields).
    apply tunnel_fields_layered in Hfields.
    split; [|split].
    + intros key. apply (layered_in _ _ _ _ _ Hfields).
    + intros Hgroup key Hkey Hname.
      rewrite (layered_out _ _ _ _ _ Hfields Hkey).
      rewrite lookup_insert_ne by done.
      destruct (read_groups_complete _ _ _ _ Hgf Hgroup) as [gfs Hgfs].
      rewrite Hgfs. cbn.
      destruct (read_groups_sound _ _ _ _ _ Hgf Hgfs) as [_ Hlay].
      split; [apply (layered_in _ _ _ _ _ Hlay)|apply (layered_out _ _ _ _ _ Hlay)].
    + intros Hgroup key Hkey Hname.
      rewrite (layered_out _ _ _ _ _ Hfields Hkey).
      rewrite lookup_insert_ne by done.
      destruct (gf !! group) as [gfs|] eqn:Hgfs; [|done].
      destruct Hgroup. by apply (read_groups_sound _ _ _ _ _ Hgf Hgfs).
  - intros Hnil. apply Hnone in Hnil. rewrite Hnil in Hentries.
    destruct (gf !! group) as [fields|] eqn:Hfields; [|done].
    destruct (size fields =? 0)%nat; [done|]. injection Hentries as <-.
    destruct (read_groups_sound _ _ _ _ _ Hgf Hfields) as [Hgroup Hlay].
    exists fields. repeat split; try done; apply Hgroup || idtac.
    + intros Hkey. rewrite default_entry_other by done. by apply (layered_in _ _ _ _ _ Hlay).
    + intros Hkey. rewrite default_entry_other by done. by apply (layered_out _ _ _ _ _ Hlay).
Qed.

(** ** Section names with more than one slash *)

Lemma split_no_sep (sep : ascii) (n : nat) (a : string) :
  PyStr.contains sep a = false -> PyStr.split sep n a = [a].
Proof.
  induction a as [|c a IH]; cbn -[Ascii.eqb]; [done|].
  destruct (Ascii.eqb c sep); [done|]. intros Ha. by rewrite IH.
Qed.

Lemma split_at_sep (sep : ascii) (n : nat) (a rest : string) :
  PyStr.contains sep a = false ->
  PyStr.split sep (S n) (a +:+ String sep rest) = a :: PyStr.split sep n rest.
Proof.
  induction a as [|c a IH].
  - intros _. change (EmptyString +:+ String sep rest) with (String sep rest).
    cbn -[Ascii.eqb]. by rewrite Ascii.eqb_refl.
  - change (String c a +:+ String sep rest)
      with (String c (a +:+ String sep rest)).
    cbn -[Ascii.eqb]. destruct (Ascii.eqb c sep); [done|].
    intros Ha. by rewrite IH.
Qed.

Lemma split_rest (sep : ascii) (rest : string) :
  PyStr.split sep 0 rest = [rest].
Proof.
  induction rest as [|c rest IH]; cbn -[Ascii.eqb]; [done|].
  destruct (Ascii.eqb c sep); [done|]. by rewrite IH.
Qed.

Lemma contains_at_sep (sep : ascii) (a rest : string) :
  PyStr.contains sep (a +:+ String sep rest) = true.
Proof.
  induction a as [|c a IH].
  - change (EmptyString +:+ String sep rest) with (String sep rest).
    cbn -[Ascii.eqb]. by rewrite Ascii.eqb_refl.
  - change (String c a +:+ String sep rest)
      with (String c (a +:+ String sep rest)).
    cbn -[Ascii.eqb]. by destruct (Ascii.eqb c sep).
Qed.

(** A name with two slashes or more is cut in three pieces, which do
    not unpack into two names. *)
Lemma unpack_two_slashes (a b rest : string) :
  has_slash a = false -> has_slash b = false ->
  unpack_section (a +:+ "/" +:+ b +:+ "/" +:+ rest) = Raise ValueError.
Proof.
  intros Ha Hb. unfold unpack_section.
  change (a +:+ "/" +:+ b +:+ "/" +:+ rest)
    with (a +:+ String "/" (b +:+ String "/" rest)).
  rewrite split_at_sep by done. rewrite split_at_sep by done.
  by rewrite split_rest.
Qed.

Lemma analyse_config_rejects_unpackable parser section :
  section ∈ sections parser ->
  reserved section = false -> has_slash section = true ->
  unpack_section section = Raise ValueError ->
  ~ returns (_analyse_config parser).
Proof.
  intros Hin Hres Hslash Hunpack [r Hr]. unfold _analyse_config in Hr.
  destruct (read_common parser) as [cf|e]; [|done]. cbn in Hr.
  destruct (read_groups parser cf) as [gf|e]; [|done]. cbn in Hr.
  destruct (read_tunnels parser gf) as [tc|e] eqn:Htc; [|done].
  eapply (foldM_rejects _ _ section); [exact Hin| |by exists tc; exact Htc].
  intros tc' [tc'' Hstep]. unfold tunnel_step in Hstep.
  by rewrite Hres, Hslash, Hunpack in Hstep.
Qed.

(** C7.  The section [a/b/c] does not resolve to the group [a] and the
    tunnel [b/c]: its name is cut at the first two slashes, in three
    pieces, the unpacking into two names raises [ValueError], and the
    resolution of the document ends with it, as it does for every
    document with a section name of that shape.  A cut at the first
    slash only would give [a] and [b/c]. *)
Theorem section_with_two_slashes_rejected :
  PyStr.split "/" 2 "a/b/c" = ["a"; "b"; "c"]
  /\ unpack_section "a/b/c" = Raise ValueError
  /\ _analyse_config (parser_of Samples.nested_section) = Raise ValueError
  /\ PyStr.split "/" 1 "a/b/c" = ["a"; "b/c"]
  /\ unpack_section "a/b" = Ok ("a", "b")
  /\ (forall parser (a b rest : string),
        has_slash a = false -> has_slash b = false ->
        reserved (a +:+ "/" +:+ b +:+ "/" +:+ rest) = false ->
        (a +:+ "/" +:+ b +:+ "/" +:+ rest) ∈ sections parser ->
        ~ returns (_analyse_config parser)).
Proof.
  repeat split; try (vm_compute; reflexivity).
  intros parser a b rest Ha Hb Hres Hin.
  apply (analyse_config_rejects_unpackable _ _ Hin Hres).
  - apply contains_at_sep.
  - by apply unpack_two_slashes.
Qed.

(** C8, as the code has it.  Of the sections named [global] or [common]
    that set a key, the one that comes last in the document gives the
    key its value in the common field set: [common] wins over [global]
    when it comes after it, and [global] wins when it comes after
    [common]. *)
Theorem common_fields_last_wins parser cf (pre post : list string) s key :
  read_common parser = Ok cf ->
  sections parser = pre ++ s :: post ->
  reserved s = true ->
  key ∈ options parser s ->
  (forall s', s' ∈ post -> reserved s' = true -> key ∉ options parser s') ->
  exists v, get parser s key = Ok v /\ cf !! key = Some v.
Proof. apply read_common_last. Qed.

End AnalyseProps.

(** With [global] before [common], the key [user] has the value of
    [common]. *)
Lemma common_fields_last_wins_witness :
  exists v,
    get (TunnelConfig.parser_of Samples.global_then_common) "common" "user" = Ok v
    /\ ({[ "user" := "from_common" ]} : gmap string string) !! "user" = Some v.
Proof.
  apply (common_fields_last_wins
           (TunnelConfig.parser_of Samples.global_then_common)
           {[ "user" := "from_common" ]} ["global"] [] "common" "user").
  - vm_compute. reflexivity.
  - reflexivity.
  - reflexivity.
  - vm_compute. by left.
  - intros s' Hin. by apply elem_of_nil in Hin.
Defined.

(** C8, as the specification has it, fails.  In a document with the
    section [common] before the section [global], both setting
    [user], the common field set holds the value of [global]. *)
Lemma global_after_common_wins :
  sections (TunnelConfig.parser_of Samples.common_then_global)
  = ["common"; "global"]
  /\ get (TunnelConfig.parser_of Samples.common_then_global) "common" "user"
     = Ok "from_common"
  /\ get (TunnelConfig.parser_of Samples.common_then_global) "global" "user"
     = Ok "from_global"
  /\ exists cf,
       TunnelConfig.read_common (TunnelConfig.parser_of Samples.common_then_global)
       = Ok cf
       /\ cf !! "user" = Some "from_global"
       /\ cf !! "user" <> Some "from_common".
Proof.
  split; [reflexivity|]. split; [reflexivity|]. split; [reflexivity|].
  exists {[ "user" := "from_global" ]}.
  split; [vm_compute; reflexivity|].
  split; [vm_compute; reflexivity|].
  vm_compute. discriminate.
Qed.

Ltac in_list :=
  vm_compute; repeat first [apply list_elem_of_here | apply list_elem_of_further].
Ltac not_in_list :=
  let Hin := fresh "Hin" in
  vm_compute; intros Hin;
  repeat (apply elem_of_cons in Hin as [Hin|Hin]; [done|]);
  by apply elem_of_nil in Hin.

(** The three layers of the sample document: the tunnel [web/http]
    has the [user] of its own section, not that of [web] or [common],
    and the [ssh_port] that [common] alone sets. *)
Lemma merge_order_witness :
  exists fields,
    Samples.resolved Samples.three_layers !! "web" = Some [fields]
    /\ fields !! "user" = Some "carol"
    /\ fields !! "ssh_port" = Some "2222".
Proof.
  set (fields := ({[ "tunnel_name" := "http"; "user" := "carol";
                     "ssh_port" := "2222"; "remote_port" := "80";
                     "local_port" := "8080" ]} : gmap string string)).
  exists fields.
  assert (Hr : Samples.resolved Samples.three_layers !! "web" = Some [fields])
    by (vm_compute; reflexivity).
  split; [exact Hr|].
  destruct (merge_order (TunnelConfig.parser_of Samples.three_layers)
              (Samples.common_of Samples.three_layers)
              (Samples.groups_of Samples.three_layers)
              (Samples.resolved Samples.three_layers) "web" [fields])
    as [Hexplicit _]; try (vm_compute; reflexivity).
  assert (Hsecs : Vocabulary.tunnel_sections_of
                    (TunnelConfig.parser_of Samples.three_layers) "web"
                  = ["web/http"]) by (vm_compute; reflexivity).
  rewrite Hsecs in Hexplicit.
  specialize (Hexplicit ltac:(discriminate)).
  apply Forall2_cons_1 in Hexplicit as [(Htunnel & Hgroup & _) _].
  split.
  - destruct (Htunnel "user") as (v & Hget & Hv).
    + in_list.
    + vm_compute in Hget. injection Hget as <-. exact Hv.
  - destruct (Hgroup) with (key := "ssh_port") as [_ Hcommon].
    + split; [in_list|]. by split.
    + not_in_list.
    + done.
    + rewrite Hcommon; [vm_compute; reflexivity|]. not_in_list.
Defined.

(** C1, as the specification has it, fails.  The key [user] is set in
    [common] only, and the document has the tunnel section [web/http]
    but no section [web]: the field set of the tunnel starts empty and
    has no [user]. *)
Lemma orphan_tunnel_misses_common :
  sections (TunnelConfig.parser_of Samples.orphan_tunnel) = ["common"; "web/http"]
  /\ Samples.common_of Samples.orphan_tunnel !! "user" = Some "bob"
  /\ exists fields,
       TunnelConfig._analyse_config (TunnelConfig.parser_of Samples.orphan_tunnel)
       = Ok {[ "web" := [fields] ]}
       /\ fields !! "tunnel_name" = Some "http"
       /\ fields !! "user" = None.
Proof.
  split; [reflexivity|]. split; [vm_compute; reflexivity|].
  exists {[ "tunnel_name" := "http"; "remote_port" := "80"; "local_port" := "8080" ]}.
  repeat split; vm_compute; reflexivity.
Qed.

(** The group [web] of the sample document has two keys and no tunnel
    section: its only entry is its field set under the name
    [default_tunnel]. *)
Lemma default_tunnel_synthesis_witness :
  Samples.resolved Samples.lone_group !! "web"
  = Some [ {[ "tunnel_name" := "default_tunnel";
              "remote_port" := "80"; "local_port" := "8080" ]} ].
Proof.
  assert (Hr : TunnelConfig._analyse_config (TunnelConfig.parser_of Samples.lone_group)
               = Ok (Samples.resolved Samples.lone_group))
    by (vm_compute; reflexivity).
  assert (Hcf : TunnelConfig.read_common (TunnelConfig.parser_of Samples.lone_group)
                = Ok (Samples.common_of Samples.lone_group))
    by (vm_compute; reflexivity).
  assert (Hgf : TunnelConfig.read_groups (TunnelConfig.parser_of Samples.lone_group)
                  (Samples.common_of Samples.lone_group)
                = Ok (Samples.groups_of Samples.lone_group))
    by (vm_compute; reflexivity).
  assert (Htc : TunnelConfig.read_tunnels (TunnelConfig.parser_of Samples.lone_group)
                  (Samples.groups_of Samples.lone_group)
                = Ok (Samples.tunnels_of Samples.lone_group))
    by (vm_compute; reflexivity).
  destruct (default_tunnel_synthesis _ _ _ _ _ "web" Hr Hcf Hgf Htc)
    as [Hdefault _].
  destruct (Hdefault {[ "remote_port" := "80"; "local_port" := "8080" ]})
    as [Hweb _].
  - vm_compute. reflexivity.
  - intros Hempty. apply (f_equal (fun m => m !! "remote_port")) in Hempty.
    vm_compute in Hempty. discriminate.
  - vm_compute. reflexivity.
  - rewrite Hweb. vm_compute. reflexivity.
Defined.

(** A document with the section [srv/db/replica] is not resolved. *)
Lemma section_with_two_slashes_rejected_witness :
  ~ returns (TunnelConfig._analyse_config
               (TunnelConfig.parser_of [("srv/db/replica", [("remote_port", "5432")])])).
Proof.
  destruct section_with_two_slashes_rejected as (_ & _ & _ & _ & _ & Hall).
  apply (Hall _ "srv" "db" "replica"); try reflexivity. in_list.
Defined.

(* ===================================================================== *)
(** * Further properties of the registry lookup *)
(* ===================================================================== *)

Section LookupProps.
Import TunnelConfig.

Lemma get_tunnels_step_keeps (ids : list string) (acc : list Tunnel * gset string)
    (t : Tunnel) (id : string) :
  id ∈ acc.2 -> id ∈ (get_tunnels_step ids acc t).2.
Proof.
  destruct acc as [result found]. unfold get_tunnels_step.
  repeat (destruct (PyStr.mem _ ids); cbn; [set_solver|]). done.
Qed.

Lemma get_tunnels_loop_keeps (ids : list string) (ts : list Tunnel)
    (acc : list Tunnel * gset string) (id : string) :
  id ∈ acc.2 -> id ∈ (foldl (get_tunnels_step ids) acc ts).2.
Proof.
  revert acc. induction ts as [|t ts IH]; intros acc Hin; [done|].
  cbn. apply IH. by apply get_tunnels_step_keeps.
Qed.

Lemma get_tunnels_loop_name (ids : list string) (ts : list Tunnel)
    (acc : list Tunnel * gset string) (t : Tunnel) :
  t ∈ ts -> name t ∈ ids -> name t ∈ (foldl (get_tunnels_step ids) acc ts).2.
Proof.
  revert acc. induction ts as [|t' ts IH]; intros acc Hin Hid;
    [by apply elem_of_nil in Hin|].
  cbn. apply elem_of_cons in Hin as [<-|Hin]; [|by apply IH].
  apply get_tunnels_loop_keeps. destruct acc as [result found].
  unfold get_tunnels_step, PyStr.mem. rewrite bool_decide_true by done.
  cbn. set_solver.
Qed.

Lemma not_found_nil (found : gset string) (ids : list string) :
  List.filter (fun identifier => negb (bool_decide (identifier ∈ found))) ids = []
  <-> forall id, id ∈ ids -> id ∈ found.
Proof.
  induction ids as [|x ids IH]; cbn.
  - split; [by intros _ id ?%elem_of_nil|done].
  - case_bool_decide as Hx; cbn.
    + rewrite IH. split.
      * intros H id [->|?]%elem_of_cons; auto.
      * intros H id Hid. apply H. by right.
    + split; [done|]. intros H. destruct Hx. apply H. by left.
Qed.

(** X1.  A lookup that returns gives the tunnels of the registry that
    answer to one of the identifiers by name, group name, server or
    address, each once and in the order of the registry; and every
    identifier then matches a tunnel. *)
Theorem get_tunnels_result (ts : list Tunnel) (ids : list string)
    (result : list Tunnel) :
  get_tunnels ts ids = Ok result ->
  result = List.filter (Vocabulary.selected ids) ts
  /\ forall id, id ∈ ids -> exists t, t ∈ ts /\ matches id t.
Proof. apply get_tunnels_returns. Qed.

(** X2.  An identifier that matches no tunnel of the registry makes the
    lookup fail with the error [Unknown tunnels: ...], whose list holds
    that identifier and only requested identifiers. *)
Theorem get_tunnels_unmatched (ts : list Tunnel) (ids : list string) (id : string) :
  id ∈ ids ->
  (forall t, t ∈ ts -> ~ matches id t) ->
  exists not_found,
    get_tunnels ts ids
    = Raise (RuntimeError ("Unknown tunnels: " +:+ PyStr.join ", " not_found))
    /\ id ∈ not_found
    /\ forall x, x ∈ not_found -> x ∈ ids.
Proof.
  intros Hid Hno. unfold get_tunnels.
  destruct (get_tunnels_loop ids ts ([], ∅)) as [_ Hfound].
  destruct (foldl _ _ ts) as [res found]. cbn in Hfound.
  set (nf := List.filter _ ids).
  assert (Hin : id ∈ nf).
  { apply list_elem_of_In, filter_In. split; [by apply list_elem_of_In|].
    rewrite bool_decide_false; [done|]. intros Hf.
    destruct (Hfound id Hf) as [Hempty|(_ & t & Ht & Hm)].
    - by apply not_elem_of_empty in Hempty.
    - by apply (Hno t). }
  exists nf. destruct nf as [|x l] eqn:Hnf; [by apply elem_of_nil in Hin|].
  split; [done|]. split; [done|].
  intros y Hy. rewrite <- Hnf in Hy. subst nf.
  apply list_elem_of_In, filter_In in Hy as [Hy _]. by apply list_elem_of_In.
Qed.

(** X3.  A lookup by tunnel names only, each the name of a tunnel of the
    registry, returns. *)
Theorem get_tunnels_by_name (ts : list Tunnel) (ids : list string) :
  (forall id, id ∈ ids -> exists t, t ∈ ts /\ name t = id) ->
  get_tunnels ts ids = Ok (List.filter (Vocabulary.selected ids) ts).
Proof.
  intros Hnames. unfold get_tunnels.
  destruct (get_tunnels_loop ids ts ([], ∅)) as [Hres _].
  pose proof (get_tunnels_loop_name ids ts ([], ∅)) as Hname.
  destruct (foldl _ _ ts) as [res found]. cbn in Hres, Hname. subst res.
  assert (Hnil : List.filter
            (fun identifier => negb (bool_decide (identifier ∈ found))) ids = []).
  { apply not_found_nil. intros id Hid.
    destruct (Hnames id Hid) as (t & Ht & <-). apply Hname; done. }
  by rewrite Hnil.
Qed.

End LookupProps.

Lemma get_tunnels_result_witness :
  [Samples.web_tunnel] = List.filter (Vocabulary.selected ["web"]) [Samples.web_tunnel]
  /\ forall id, id ∈ ["web"] ->
       exists t, t ∈ [Samples.web_tunnel] /\ TunnelConfig.matches id t.
Proof.
  apply (get_tunnels_result [Samples.web_tunnel] ["web"]). vm_compute. reflexivity.
Defined.

Lemma get_tunnels_unmatched_witness :
  exists not_found,
    TunnelConfig.get_tunnels [Samples.web_tunnel] ["web"; "db"]
    = Raise (RuntimeError ("Unknown tunnels: " +:+ PyStr.join ", " not_found))
    /\ "db" ∈ not_found
    /\ forall x, x ∈ not_found -> x ∈ ["web"; "db"].
Proof.
  apply (get_tunnels_unmatched [Samples.web_tunnel] ["web"; "db"] "db").
  - in_list.
  - intros t ->%list_elem_of_singleton [H|[H|[H|H]]]; vm_compute in H; discriminate.
Defined.

Lemma get_tunnels_by_name_witness :
  TunnelConfig.get_tunnels [Samples.web_tunnel] ["default_tunnel"]
  = Ok (List.filter (Vocabulary.selected ["default_tunnel"]) [Samples.web_tunnel]).
Proof.
  apply (get_tunnels_by_name [Samples.web_tunnel] ["default_tunnel"]).
  intros id ->%list_elem_of_singleton. exists Samples.web_tunnel.
  split; [in_list|reflexivity].
Defined.

(* ===================================================================== *)
(** * Invariants of the validation *)
(* ===================================================================== *)

Section CheckInvariants.
Context `{RT : PyRuntime} `{HO : Host}.
Import Builtins TunnelConfig Vocabulary Invariants.

Lemma check_port_Ok (param d val : string) (n : Z) :
  check_port param d val = Ok n -> int_of_str val = Ok n /\ port_in_range n.
Proof.
  destruct (int_of_str val) as [m|e] eqn:Hm.
  - rewrite (check_port_integer _ _ _ _ Hm). unfold port_in_range.
    destruct (Z.leb_spec 1 m), (Z.leb_spec m 65534); cbn; try done.
    intros [= <-]. split; [done|lia].
  - unfold check_port, ll_int. cbn. rewrite Hm. by destruct e.
Qed.

Lemma check_local_address_Ok (val address : string) :
  check_local_address val = Ok address -> loopback address.
Proof.
  unfold check_local_address, loopback.
  match goal with
  | |- context [mbind _ ?m] => destruct m as [val'|e]; cbn; [|done]
  end.
  destruct (PyStr.split "." 2 val') as [|first rest] eqn:Hsplit; cbn; [done|].
  destruct (int_of_str first) as [n|e] eqn:Hn; cbn; [|done].
  destruct (Z.eqb_spec n 127) as [->|Hne]; cbn; [|done].
  intros [= <-]. by exists first, rest.
Qed.

Lemma initial_cleaned_ok (group : string) : cleaned_ok (initial_cleaned group).
Proof.
  unfold cleaned_ok, port_in_range. cbn.
  repeat split; try done; try lia. by left.
Qed.

Ltac set_ok :=
  intros [= <-]; unfold cleaned_ok; cbn;
  split; [|split; [|split; [|split]]]; try done.

Lemma check_item_ok (d : string) (c c' : cleaned) (item : string * string) :
  cleaned_ok c -> check_item d c item = Ok c' -> cleaned_ok c'.
Proof.
  intros (Hssh & Hrp & Hlp & Hla & Hu). destruct item as [key val].
  unfold check_item.
  destruct (String.eqb _ "reverse").
  { destruct (check_reverse d val); cbn; [|done]. set_ok. }
  destruct (String.eqb _ "remote_port").
  { destruct (check_port _ d val) as [n|e] eqn:Hp; cbn; [|done].
    apply check_port_Ok in Hp as [_ Hn]. set_ok. by intros p [= <-]. }
  destruct (String.eqb _ "local_port").
  { destruct (check_port _ d val) as [n|e] eqn:Hp; cbn; [|done].
    apply check_port_Ok in Hp as [_ Hn]. set_ok. by intros p [= <-]. }
  destruct (String.eqb _ "ssh_port").
  { destruct (check_port _ d val) as [n|e] eqn:Hp; cbn; [|done].
    apply check_port_Ok in Hp as [_ Hn]. set_ok. }
  destruct (String.eqb _ "local_address").
  { destruct (check_local_address val) as [a|e] eqn:Ha; cbn; [|done].
    apply check_local_address_Ok in Ha. set_ok. by right. }
  destruct (PyStr.mem _ ["user"; "ssh_user"]).
  { destruct (USER_RE val) eqn:Hre; cbn; [|done]. set_ok. by intros u [= <-]. }
  destruct (PyStr.mem _ ["key"; "ssh_key"]); [set_ok|].
  destruct (String.eqb _ "ssh_options").
  { destruct (shlex_split val); cbn; [|done]. set_ok. }
  destruct (String.eqb _ "server"); [set_ok|].
  destruct (String.eqb _ "group_name"); [set_ok|].
  destruct (String.eqb _ "tunnel_name"); [set_ok|].
  destruct (String.eqb _ "remote_server"); [set_ok|done].
Qed.

Lemma finish_tunnel_Ok (d : string) (c : cleaned) (t : Tunnel) :
  finish_tunnel d c = Ok t ->
  c_remote_port c = Some (remote_port t)
  /\ c_local_port c = Some (local_port t)
  /\ c_tunnel_name c = Some (name t)
  /\ gethostbyname (c_remote_server c) = Ok (remote_address t)
  /\ t = {| name := name t; group_name := c_group_name c;
            ssh_options := c_ssh_options c; ssh_key := c_ssh_key c;
            ssh_user := c_ssh_user c; ssh_port := c_ssh_port c;
            remote_server := c_remote_server c;
            remote_address := remote_address t;
            remote_port := remote_port t;
            local_address := c_local_address c;
            local_port := local_port t; is_reverse := c_reverse c |}.
Proof.
  unfold finish_tunnel.
  destruct (c_remote_port c) as [rp|]; cbn; [|done].
  destruct (c_local_port c) as [lp|]; cbn; [|done].
  destruct (gethostbyname (c_remote_server c)) as [a|e]; cbn;
    [|by destruct (is_StandardError e)].
  destruct (c_tunnel_name c) as [tn|]; cbn; [|done].
  by intros [= <-].
Qed.

Lemma check_tunnel_cleaned (group : string) (tunnel_config : list (string * string))
    (t : Tunnel) :
  check_tunnel group tunnel_config = Ok t ->
  exists d c, cleaned_ok c /\ finish_tunnel d c = Ok t.
Proof.
  unfold check_tunnel, check_tunnel_items.
  destruct (dict_get tunnel_config "tunnel_name") as [tn|]; [|done].
  match goal with
  | |- context [foldM ?f ?a ?l] => destruct (foldM f a l) as [c|e] eqn:Hfold
  end; cbn; [|done].
  intros Ht. eexists _, c. split; [|exact Ht].
  eapply (foldM_invariant _ cleaned_ok); [|apply initial_cleaned_ok|exact Hfold].
  intros a x b _ Ha Hb. by eapply check_item_ok.
Qed.

Lemma check_tunnel_valid (group : string) (tunnel_config : list (string * string))
    (t : Tunnel) :
  check_tunnel group tunnel_config = Ok t ->
  port_in_range (remote_port t) /\ port_in_range (local_port t)
  /\ port_in_range (ssh_port t)
  /\ (local_address t = "127.1.1.1" \/ loopback (local_address t))
  /\ (forall u, ssh_user t = Some u -> USER_RE u = true)
  /\ gethostbyname (remote_server t) = Ok (remote_address t).
Proof.
  intros (d & c & (Hssh & Hrp & Hlp & Hla & Hu) & Hfin)%check_tunnel_cleaned.
  apply finish_tunnel_Ok in Hfin as (Hr & Hl & _ & Hdns & Ht).
  rewrite Ht. cbn.
  split; [by apply Hrp|]. split; [by apply Hlp|]. by repeat (split; [done|]).
Qed.

(** ** One tunnel for each field set *)

Lemma check_group_tunnels (group : string) (l : list (list (string * string)))
    (results results' : list Tunnel) :
  foldM (fun results tunnel_config =>
           t ← check_tunnel group tunnel_config; Ok (results ++ [t]))
        results l = Ok results'
  <-> exists new,
        results' = results ++ new
        /\ Forall2 (fun tunnel_config t => check_tunnel group tunnel_config = Ok t)
                   l new.
Proof.
  revert results. induction l as [|tc l IH]; intros results; cbn.
  - split.
    + intros [= <-]. exists []. by rewrite app_nil_r.
    + intros (new & -> & ->%Forall2_nil_inv_l). by rewrite app_nil_r.
  - destruct (check_tunnel group tc) as [t|e] eqn:Ht; cbn.
    + rewrite IH. split.
      * intros (new & -> & Hnew). exists (t :: new).
        split; [by rewrite <- app_assoc|by constructor].
      * intros (new & -> & Hnew).
        apply Forall2_cons_inv_l in Hnew as (t' & new' & Ht' & Hnew' & ->).
        rewrite Ht in Ht'. injection Ht' as <-.
        exists new'. split; [by rewrite <- app_assoc|done].
    + split; [done|]. intros (new & _ & Hnew).
      apply Forall2_cons_inv_l in Hnew as (t' & new' & Ht' & _).
      by rewrite Ht in Ht'.
Qed.

Lemma check_groups_tunnels
    (items : list (string * list (list (string * string))))
    (results results' : list Tunnel) :
  foldM (fun results '(group, tunnel_config_list) =>
           foldM (fun results tunnel_config =>
                    t ← check_tunnel group tunnel_config; Ok (results ++ [t]))
                 results tunnel_config_list)
        results items = Ok results'
  <-> exists new,
        results' = results ++ new
        /\ Forall2 (fun field_set t => check_tunnel field_set.1 field_set.2 = Ok t)
             ('(group, tunnel_config_list) ← items;
              (fun tunnel_config => (group, tunnel_config)) <$> tunnel_config_list)
             new.
Proof.
  revert results. induction items as [|[group l] items IH]; intros results;
    cbn [foldM mbind list_bind].
  - split.
    + intros [= <-]. exists []. by rewrite app_nil_r.
    + intros (new & -> & ->%Forall2_nil_inv_l). by rewrite app_nil_r.
  - change (mbind ?f (foldM ?g results l)) with
      (match foldM g results l with Ok a => f a | Raise e => Raise e end).
    split.
    + destruct (foldM _ results l) as [res1|e] eqn:Hl; [|done].
      apply check_group_tunnels in Hl as (new1 & -> & Hnew1).
      intros (new2 & -> & Hnew2)%IH.
      exists (new1 ++ new2). split; [by rewrite <- app_assoc|].
      apply Forall2_app; [|done]. by apply Forall2_fmap_l.
    + intros (new & -> & Hnew).
      apply Forall2_app_inv_l in Hnew as (new1 & new2 & Hnew1 & Hnew2 & ->).
      apply Forall2_fmap_l in Hnew1.
      assert (Hl : foldM (fun results tunnel_config =>
                            t ← check_tunnel group tunnel_config;
                            Ok (results ++ [t])) results l
                   = Ok (results ++ new1)).
      { apply check_group_tunnels. by exists new1. }
      rewrite Hl. apply IH. exists new2. by rewrite <- app_assoc.
Qed.

Lemma check_config_field_sets
    (config : list (string * list (list (string * string)))) (ts : list Tunnel) :
  _check_config config = Ok ts
  <-> Forall2 (fun field_set t => check_tunnel field_set.1 field_set.2 = Ok t)
              (field_sets config) ts.
Proof.
  unfold _check_config, field_sets. rewrite check_groups_tunnels. split.
  - by intros (new & -> & Hnew).
  - intros H. by exists ts.
Qed.

(** X4.  [_check_config] returns a registry exactly when every field
    set of the configuration is accepted, and the registry then holds
    the tunnel of each field set, one for one, in the order in which
    the dictionary of the configuration gives its groups and, within a
    group, in the order of its list: one refused field set, and there
    is no registry at all. *)
Theorem check_config_one_tunnel_per_field_set
    (config : list (string * list (list (string * string)))) (ts : list Tunnel) :
  _check_config config = Ok ts
  <-> Forall2 (fun field_set t => check_tunnel field_set.1 field_set.2 = Ok t)
              (field_sets config) ts.
Proof. apply check_config_field_sets. Qed.

Lemma check_config_elem (config : list (string * list (list (string * string))))
    (ts : list Tunnel) (t : Tunnel) :
  _check_config config = Ok ts -> t ∈ ts ->
  exists group tunnel_config, check_tunnel group tunnel_config = Ok t.
Proof.
  intros Hts%check_config_field_sets Ht. revert Ht.
  induction Hts as [|[g tc] t' fs ts' Hhd Htl IH]; [by intros ?%elem_of_nil|].
  intros [->|Ht]%elem_of_cons; [by exists g, tc|by apply IH].
Qed.

(** X5.  Every tunnel of a registry [_check_config] returns has its
    remote port, its local port and its SSH port between 1 and
    65534. *)
Theorem registry_ports_in_range
    (config : list (string * list (list (string * string)))) (ts : list Tunnel)
    (t : Tunnel) :
  _check_config config = Ok ts -> t ∈ ts ->
  port_in_range (remote_port t) /\ port_in_range (local_port t)
  /\ port_in_range (ssh_port t).
Proof.
  intros Hts Ht. destruct (check_config_elem _ _ _ Hts Ht) as (g & tc & Hok).
  apply check_tunnel_valid in Hok. tauto.
Qed.

(** X6.  Every tunnel of a registry has a local address whose part
    before the first dot reads as the integer 127: the default
    127.1.1.1, or an address that passed the loopback test.  The
    default is not tested; its first part reads as 127 wherever [int]
    reads the plain decimal notation, as in Python 2 and Python 3. *)
Theorem registry_local_address_loopback
    (config : list (string * list (list (string * string)))) (ts : list Tunnel)
    (t : Tunnel) :
  _check_config config = Ok ts -> t ∈ ts ->
  (local_address t = "127.1.1.1" \/ loopback (local_address t))
  /\ (int_conforms -> loopback (local_address t)).
Proof.
  intros Hts Ht.
  destruct (check_config_elem _ _ _ Hts Ht) as (g & tc & Hok).
  apply check_tunnel_valid in Hok as (_ & _ & _ & Hloop & _).
  split; [done|]. intros [Hdecimal _]. destruct Hloop as [->|Hloop]; [|done].
  exists "127", ["1"; "1.1"]. split; [done|]. by apply Hdecimal; [cbn; lia|].
Qed.

(** X7.  The remote address of every tunnel of a registry is what the
    name of its remote server resolved to when the configuration was
    checked. *)
Theorem registry_remote_address_resolved
    (config : list (string * list (list (string * string)))) (ts : list Tunnel)
    (t : Tunnel) :
  _check_config config = Ok ts -> t ∈ ts ->
  gethostbyname (remote_server t) = Ok (remote_address t).
Proof.
  intros Hts Ht. destruct (check_config_elem _ _ _ Hts Ht) as (g & tc & Hok).
  apply check_tunnel_valid in Hok. tauto.
Qed.

(** X8.  The user name of a tunnel of a registry, when it has one,
    matches the user name pattern. *)
Theorem registry_ssh_user_valid
    (config : list (string * list (list (string * string)))) (ts : list Tunnel)
    (t : Tunnel) (u : string) :
  _check_config config = Ok ts -> t ∈ ts -> ssh_user t = Some u ->
  USER_RE u = true.
Proof.
  intros Hts Ht. destruct (check_config_elem _ _ _ Hts Ht) as (g & tc & Hok).
  apply check_tunnel_valid in Hok. destruct Hok as (_ & _ & _ & _ & Hu & _).
  apply Hu.
Qed.

(** ** Unknown keys and missing ports *)

Lemma check_item_unknown (d key val : string) (c : cleaned) :
  PyStr.lower (PyStr.strip key) ∉ known_keys ->
  check_item d c (key, val)
  = Raise (ConfigError ("Unknown config option " +:+ PyStr.lower (PyStr.strip key))).
Proof.
  intros Hk. unfold check_item, PyStr.mem.
  repeat match goal with
         | |- context [String.eqb ?a ?b] =>
             destruct (String.eqb_spec a b) as [Heq|?];
             [exfalso; apply Hk; rewrite Heq; in_list|]
         | |- context [bool_decide (?a ∈ ?l)] =>
             destruct (decide (a ∈ l)) as [Hin|?];
             [exfalso; apply Hk;
              repeat (apply elem_of_cons in Hin as [->|Hin]; [in_list|]);
              by apply elem_of_nil in Hin
             |rewrite (bool_decide_false (a ∈ l)) by done]
         end.
  done.
Qed.

(** X9.  A field set with a key that, stripped and lowered, is none of
    the fourteen known keys yields no tunnel; the turn of the loop on
    that key raises the error [Unknown config option] with the key. *)
Theorem unknown_key_rejected (group key val : string)
    (tunnel_config : list (string * string)) :
  (key, val) ∈ tunnel_config ->
  PyStr.lower (PyStr.strip key) ∉ known_keys ->
  ~ returns (check_tunnel group tunnel_config)
  /\ forall d c,
      check_item d c (key, val)
      = Raise (ConfigError ("Unknown config option "
                            +:+ PyStr.lower (PyStr.strip key))).
Proof.
  intros Hkey Hk. split; [|intros; by apply check_item_unknown].
  intros [t Ht]. unfold check_tunnel in Ht.
  destruct (dict_get tunnel_config "tunnel_name") as [tn|]; [|done].
  unfold check_tunnel_items in Ht.
  match type of Ht with
  | context [foldM ?f ?a ?l] => destruct (foldM f a l) as [c|e] eqn:Hfold
  end; [|done].
  eapply (foldM_rejects _ _ (key, val)); [exact Hkey| |by exists c; apply Hfold].
  intros c' [c'' Hc]. by rewrite check_item_unknown in Hc.
Qed.

Lemma check_item_keeps_remote_port (d : string) (c c' : cleaned)
    (key val : string) :
  PyStr.lower (PyStr.strip key) <> "remote_port" ->
  check_item d c (key, val) = Ok c' -> c_remote_port c' = c_remote_port c.
Proof.
  intros Hk. unfold check_item.
  destruct (String.eqb_spec (PyStr.lower (PyStr.strip key)) "remote_port");
    [done|].
  repeat match goal with
         | |- context [if ?b then _ else _] => destruct b
         end;
    try discriminate; try (by intros [= <-]);
    match goal with
    | |- context [mbind _ ?m] => destruct m; cbn; [by intros [= <-]|done]
    end.
Qed.

Lemma check_item_keeps_local_port (d : string) (c c' : cleaned)
    (key val : string) :
  PyStr.lower (PyStr.strip key) <> "local_port" ->
  check_item d c (key, val) = Ok c' -> c_local_port c' = c_local_port c.
Proof.
  intros Hk. unfold check_item.
  destruct (String.eqb_spec (PyStr.lower (PyStr.strip key)) "local_port");
    [done|].
  repeat match goal with
         | |- context [if ?b then _ else _] => destruct b
         end;
    try discriminate; try (by intros [= <-]);
    match goal with
    | |- context [mbind _ ?m] => destruct m; cbn; [by intros [= <-]|done]
    end.
Qed.

(** X10.  A field set in which no key is [remote_port], or no key is
    [local_port], once stripped and lowered, yields no tunnel. *)
Theorem missing_port_rejected (group : string)
    (tunnel_config : list (string * string)) :
  (forall key val, (key, val) ∈ tunnel_config ->
                   PyStr.lower (PyStr.strip key) <> "remote_port")
  \/ (forall key val, (key, val) ∈ tunnel_config ->
                      PyStr.lower (PyStr.strip key) <> "local_port") ->
  ~ returns (check_tunnel group tunnel_config).
Proof.
  intros Hmissing [t Ht]. unfold check_tunnel in Ht.
  destruct (dict_get tunnel_config "tunnel_name") as [tn|]; [|done].
  unfold check_tunnel_items in Ht.
  match type of Ht with
  | context [foldM ?f ?a ?l] => destruct (foldM f a l) as [c|e] eqn:Hfold
  end; [|done].
  cbn in Ht. apply finish_tunnel_Ok in Ht as (Hr & Hl & _).
  destruct Hmissing as [Hno|Hno].
  - assert (Hnone : c_remote_port c = None); [|by rewrite Hnone in Hr].
    refine (foldM_invariant _ (fun c => c_remote_port c = None)
              (initial_cleaned group) _ _ _ eq_refl Hfold).
    intros a [key val] b Hin Ha Hb.
    rewrite (check_item_keeps_remote_port _ _ _ _ _ (Hno key val Hin) Hb).
    exact Ha.
  - assert (Hnone : c_local_port c = None); [|by rewrite Hnone in Hl].
    refine (foldM_invariant _ (fun c => c_local_port c = None)
              (initial_cleaned group) _ _ _ eq_refl Hfold).
    intros a [key val] b Hin Ha Hb.
    rewrite (check_item_keeps_local_port _ _ _ _ _ (Hno key val Hin) Hb).
    exact Ha.
Qed.

End CheckInvariants.

Lemma web_config_checked :
  TunnelConfig._check_config (RT := Samples.runtime) (HO := MoreSamples.plain_host)
    MoreSamples.web_config = Ok [MoreSamples.http_tunnel].
Proof. vm_compute. reflexivity. Qed.

Lemma check_config_one_tunnel_per_field_set_witness :
  Forall2 (fun field_set t =>
             TunnelConfig.check_tunnel (RT := Samples.runtime)
               (HO := MoreSamples.plain_host) field_set.1 field_set.2 = Ok t)
          (Invariants.field_sets MoreSamples.web_config) [MoreSamples.http_tunnel].
Proof.
  apply (check_config_one_tunnel_per_field_set (RT := Samples.runtime)
           (HO := MoreSamples.plain_host)).
  exact web_config_checked.
Defined.

Lemma registry_ports_in_range_witness :
  Vocabulary.port_in_range 80 /\ Vocabulary.port_in_range 8080
  /\ Vocabulary.port_in_range 22.
Proof.
  apply (registry_ports_in_range (RT := Samples.runtime)
           (HO := MoreSamples.plain_host) MoreSamples.web_config
           [MoreSamples.http_tunnel] MoreSamples.http_tunnel).
  - exact web_config_checked.
  - in_list.
Defined.

Lemma registry_local_address_loopback_witness :
  Invariants.loopback (RT := Samples.runtime) "127.1.1.1".
Proof.
  destruct (registry_local_address_loopback (RT := Samples.runtime)
              (HO := MoreSamples.plain_host) MoreSamples.web_config
              [MoreSamples.http_tunnel] MoreSamples.http_tunnel) as [_ Hloop].
  - exact web_config_checked.
  - in_list.
  - exact (Hloop runtime_int_conforms).
Defined.

Lemma registry_remote_address_resolved_witness :
  gethostbyname (Host := MoreSamples.plain_host) "web" = Ok "10.0.0.1".
Proof.
  apply (registry_remote_address_resolved (RT := Samples.runtime)
           (HO := MoreSamples.plain_host) MoreSamples.web_config
           [MoreSamples.http_tunnel] MoreSamples.http_tunnel).
  - exact web_config_checked.
  - in_list.
Defined.

Lemma registry_ssh_user_valid_witness : TunnelConfig.USER_RE "bob" = true.
Proof.
  apply (registry_ssh_user_valid (RT := Samples.runtime)
           (HO := MoreSamples.plain_host) MoreSamples.web_config
           [MoreSamples.http_tunnel] MoreSamples.http_tunnel "bob").
  - exact web_config_checked.
  - in_list.
  - reflexivity.
Defined.

Ltac items_of H :=
  repeat (apply elem_of_cons in H as [H|H]; [injection H as -> ->|]);
  [..|by apply elem_of_nil in H].

Lemma unknown_key_rejected_witness :
  ~ returns (TunnelConfig.check_tunnel (RT := Samples.runtime)
               (HO := MoreSamples.plain_host) "web"
               [("tunnel_name", "http"); ("Colour", "red")])
  /\ forall d c,
      TunnelConfig.check_item (RT := Samples.runtime)
        (HO := MoreSamples.plain_host) d c ("Colour", "red")
      = Raise (ConfigError "Unknown config option colour").
Proof.
  apply (unknown_key_rejected (RT := Samples.runtime)
           (HO := MoreSamples.plain_host) "web" "Colour" "red").
  - in_list.
  - not_in_list.
Defined.

Lemma missing_port_rejected_witness :
  ~ returns (TunnelConfig.check_tunnel (RT := Samples.runtime)
               (HO := MoreSamples.plain_host) "web"
               [("tunnel_name", "http"); ("remote_port", "80")]).
Proof.
  apply (missing_port_rejected (RT := Samples.runtime)
           (HO := MoreSamples.plain_host)).
  right. intros key val Hkey. items_of Hkey; vm_compute; discriminate.
Defined.

(* ===================================================================== *)
(** * Further properties of the resolution *)
(* ===================================================================== *)

Section AnalyseMore.
Import TunnelConfig Vocabulary.
Implicit Types (parser : Parser) (fields : gmap string string).

Lemma analyse_config_inv parser r :
  _analyse_config parser = Ok r ->
  exists cf gf tc,
    read_common parser = Ok cf /\ read_groups parser cf = Ok gf
    /\ read_tunnels parser gf = Ok tc /\ r = add_defaults gf tc.
Proof.
  unfold _analyse_config. intros Hr.
  destruct (read_common parser) as [cf|e]; [|done]. cbn in Hr.
  destruct (read_groups parser cf) as [gf|e] eqn:Hgf; [|done]. cbn in Hr.
  destruct (read_tunnels parser gf) as [tc|e] eqn:Htc; [|done].
  injection Hr as <-. by exists cf, gf, tc.
Qed.

Lemma tunnel_fields_name parser gf section group tunnel_name fields :
  tunnel_fields parser gf section group tunnel_name = Ok fields ->
  is_Some (fields !! "tunnel_name")
  /\ ("tunnel_name" ∉ options parser section ->
      fields !! "tunnel_name" = Some tunnel_name).
Proof.
  intros Hlay%tunnel_fields_layered.
  assert (Hout : "tunnel_name" ∉ options parser section ->
                 fields !! "tunnel_name" = Some tunnel_name).
  { intros Hno. rewrite (layered_out _ _ _ _ _ Hlay Hno).
    apply lookup_insert_eq. }
  split; [|done].
  destruct (decide ("tunnel_name" ∈ options parser section)) as [Hin|Hno].
  - destruct (layered_in _ _ _ _ _ Hlay Hin) as (v & _ & ->). by eexists.
  - rewrite (Hout Hno). by eexists.
Qed.

(** X11.  Every group of the result of [_analyse_config] has at least
    one field set, and every field set has a [tunnel_name]: the lookup
    of that key at the start of the validation of a tunnel finds it. *)
Theorem analysed_entries_named parser r group entries :
  _analyse_config parser = Ok r ->
  r !! group = Some entries ->
  entries <> []
  /\ forall fields, fields ∈ entries -> is_Some (fields !! "tunnel_name").
Proof.
  intros (cf & gf & tc & _ & _ & Htc & ->)%analyse_config_inv.
  rewrite add_defaults_lookup.
  destruct (read_tunnels_entries _ _ _ group Htc) as [Hmade Hnone].
  destruct (tc !! group) as [es|] eqn:Hg.
  - intros [= <-]. cbn in Hmade. split.
    + intros ->. apply Forall2_nil_inv_r in Hmade.
      by apply Hnone in Hmade.
    + intros fields Hin. unfold entries_of in Hmade.
      apply list_elem_of_lookup in Hin as [i Hi].
      destruct (Forall2_lookup_r _ _ _ _ _ Hmade Hi) as (s & _ & t & _ & Hf).
      by apply tunnel_fields_name in Hf as [? _].
  - destruct (gf !! group) as [fields|]; [|done].
    destruct (size fields =? 0)%nat; [done|]. intros [= <-].
    split; [done|]. intros f ->%list_elem_of_singleton.
    rewrite default_entry_name. by eexists.
Qed.

(** X12.  The field set made from a tunnel section that does not set
    [tunnel_name] itself has, as its [tunnel_name], the part of the
    section name after the slash. *)
Theorem tunnel_name_from_section parser r group entries :
  _analyse_config parser = Ok r ->
  r !! group = Some entries ->
  tunnel_sections_of parser group <> [] ->
  Forall2 (fun section fields =>
             exists tunnel_name,
               unpack_section section = Ok (group, tunnel_name)
               /\ ("tunnel_name" ∉ options parser section ->
                   fields !! "tunnel_name" = Some tunnel_name))
          (tunnel_sections_of parser group) entries.
Proof.
  intros (cf & gf & tc & _ & _ & Htc & ->)%analyse_config_inv.
  rewrite add_defaults_lookup.
  destruct (read_tunnels_entries _ _ _ group Htc) as [Hmade Hnone].
  destruct (tc !! group) as [es|] eqn:Hg.
  - intros [= <-] _. cbn in Hmade. eapply Forall2_impl; [exact Hmade|].
    intros s f (t & Hunpack & Hf). exists t. split; [done|].
    by apply tunnel_fields_name in Hf as [_ ?].
  - intros _ Hsecs. destruct Hsecs. by apply Hnone.
Qed.

(** X13.  A name is a group of the result exactly when it has a tunnel
    section, or it has a section of its own, neither reserved nor with
    a slash, whose field set is not empty. *)
Theorem analysed_groups parser cf gf r group :
  _analyse_config parser = Ok r ->
  read_common parser = Ok cf ->
  read_groups parser cf = Ok gf ->
  (is_Some (r !! group)
   <-> tunnel_sections_of parser group <> []
       \/ (is_group_section parser group
           /\ exists fields, gf !! group = Some fields /\ fields <> ∅)).
Proof.
  intros Hr Hcf Hgf.
  destruct (analyse_config_stages _ _ _ _ Hr Hcf Hgf) as (tc & Htc & ->).
  rewrite add_defaults_lookup.
  destruct (read_tunnels_entries _ _ _ group Htc) as [_ Hnone].
  destruct (tc !! group) as [es|] eqn:Hg.
  - split; [|by eexists]. intros _. left. intros Hnil.
    by apply Hnone in Hnil.
  - assert (Hnil : tunnel_sections_of parser group = []) by by apply Hnone.
    destruct (gf !! group) as [fields|] eqn:Hfields.
    + destruct (read_groups_sound _ _ _ _ _ Hgf Hfields) as [Hgroup _].
      destruct (size fields =? 0)%nat eqn:Hsize.
      * apply size_zero_empty in Hsize as ->. split; [by intros [? ?]|].
        intros [?|(_ & f & [= <-] & ?)]; done.
      * split; [|by eexists]. intros _. right. split; [done|].
        exists fields. split; [done|]. intros ->.
        by rewrite map_size_empty in Hsize.
    + split; [by intros [? ?]|]. intros [?|(_ & f & ? & _)]; done.
Qed.

(** ** When the resolution returns *)

Lemma foldM_returns {A B : Type} (f : B -> A -> except B) (l : list A) (acc : B) :
  (forall acc' x, x ∈ l -> returns (f acc' x)) -> returns (foldM f acc l).
Proof.
  revert acc. induction l as [|x l IH]; intros acc Hf; cbn; [by eexists|].
  destruct (Hf acc x) as [acc1 ->]; [by left|]. cbn. apply IH.
  intros acc' y Hy. apply Hf. by right.
Qed.

Lemma overlay_returns parser section fields :
  (forall key, key ∈ options parser section ->
               returns (get parser section key)) ->
  returns (overlay parser section fields).
Proof.
  intros Hget. unfold overlay. apply foldM_returns.
  intros acc key Hin. destruct (Hget key Hin) as [v ->]. by eexists.
Qed.

(** X14.  The resolution returns whenever the parser gives a value for
    every key it lists and every tunnel section name unpacks into two
    names. *)
Theorem analyse_config_returns parser :
  (forall section key,
      section ∈ sections parser -> key ∈ options parser section ->
      returns (get parser section key)) ->
  (forall section,
      section ∈ sections parser -> reserved section = false ->
      has_slash section = true -> returns (unpack_section section)) ->
  returns (_analyse_config parser).
Proof.
  intros Hget Hunpack. unfold _analyse_config.
  destruct (foldM_returns (common_step parser) (sections parser) ∅) as [cf Hcf].
  { intros acc s Hs. unfold common_step.
    destruct (reserved s); cbn; [|by eexists].
    apply overlay_returns. intros key. by apply Hget. }
  unfold read_common. rewrite Hcf. cbn.
  destruct (foldM_returns (group_step parser cf) (sections parser) ∅) as [gf Hgf].
  { intros acc s Hs. unfold group_step.
    destruct (reserved s || has_slash s); [by eexists|].
    destruct (overlay_returns parser s
                (match acc !! s with Some f => f | None => cf end))
      as [fields ->]; [intros key; by apply Hget|]. by eexists. }
  unfold read_groups. rewrite Hgf. cbn.
  destruct (foldM_returns (tunnel_step parser gf) (sections parser) ∅) as [tc Htc].
  { intros acc s Hs. unfold tunnel_step.
    destruct (reserved s) eqn:Hres; cbn; [by eexists|].
    destruct (has_slash s) eqn:Hslash; cbn; [|by eexists].
    destruct (Hunpack s Hs Hres Hslash) as [[g t] ->]. cbn.
    unfold tunnel_fields.
    destruct (overlay_returns parser s
                (<["tunnel_name" := t]>
                   (match gf !! g with Some f => f | None => ∅ end)))
      as [fields ->]; [intros key; by apply Hget|]. by eexists. }
  unfold read_tunnels. rewrite Htc. cbn. by eexists.
Qed.

(** ** The unpacking of a section name *)

Lemma split_not_nil (sep : ascii) (n : nat) (s : string) :
  PyStr.split sep n s <> [].
Proof.
  revert n. induction s as [|c s IH]; intros n; cbn -[Ascii.eqb]; [done|].
  destruct (Ascii.eqb c sep); [by destruct n|].
  by destruct (PyStr.split sep n s).
Qed.

Lemma split_one_piece (sep : ascii) (n : nat) (s b : string) :
  PyStr.split sep (S n) s = [b] -> b = s /\ PyStr.contains sep s = false.
Proof.
  revert b. induction s as [|c s IH]; intros b; cbn -[Ascii.eqb].
  - by intros [= <-].
  - destruct (Ascii.eqb c sep).
    + intros [= _ H]. by apply split_not_nil in H.
    + destruct (PyStr.split sep (S n) s) as [|h t] eqn:Hs;
        [by apply split_not_nil in Hs|].
      intros [= <- ->]. destruct (IH h eq_refl) as [-> ?]. done.
Qed.

Lemma split_two_pieces (s a b : string) :
  PyStr.split "/" 2 s = [a; b]
  <-> s = a +:+ String "/" b
      /\ PyStr.contains "/" a = false /\ PyStr.contains "/" b = false.
Proof.
  split.
  - revert a. induction s as [|c s IH]; intros a; cbn -[Ascii.eqb]; [done|].
    destruct (Ascii.eqb_spec c "/") as [->|Hc].
    + intros [= <- H]. apply split_one_piece in H as [-> ?]. done.
    + destruct (PyStr.split "/" 2 s) as [|h t] eqn:Hs; [done|].
      intros [= <- ->]. destruct (IH h eq_refl) as (-> & Hh & Hb).
      split; [done|]. split; [|done]. cbn -[Ascii.eqb].
      by destruct (Ascii.eqb_spec c "/").
  - intros (-> & Ha & Hb). rewrite split_at_sep by done.
    by rewrite split_no_sep.
Qed.

(** X15.  A section name unpacks into a group and a tunnel name exactly
    when it has one slash and no more; the group is what comes before
    the slash and the tunnel name what comes after. *)
Theorem unpack_section_one_slash (section group tunnel_name : string) :
  unpack_section section = Ok (group, tunnel_name)
  <-> section = group +:+ "/" +:+ tunnel_name
      /\ has_slash group = false /\ has_slash tunnel_name = false.
Proof.
  unfold has_slash. rewrite <- (split_two_pieces section group tunnel_name).
  unfold unpack_section.
  destruct (PyStr.split "/" 2 section) as [|a [|b [|c l]]]; split;
    try done; by intros [= -> ->].
Qed.

End AnalyseMore.

Lemma three_layers_resolved :
  TunnelConfig._analyse_config (TunnelConfig.parser_of Samples.three_layers)
  = Ok (Samples.resolved Samples.three_layers)
  /\ Samples.resolved Samples.three_layers !! "web" = Some [MoreSamples.http_fields]
  /\ Vocabulary.tunnel_sections_of (TunnelConfig.parser_of Samples.three_layers) "web"
     = ["web/http"].
Proof. repeat split; vm_compute; reflexivity. Qed.

Lemma analysed_entries_named_witness :
  [MoreSamples.http_fields] <> []
  /\ forall fields, fields ∈ [MoreSamples.http_fields] ->
                    is_Some (fields !! "tunnel_name").
Proof.
  destruct three_layers_resolved as (Hr & Hweb & _).
  exact (analysed_entries_named _ _ "web" _ Hr Hweb).
Defined.

Lemma tunnel_name_from_section_witness :
  Forall2 (fun section fields =>
             exists tunnel_name,
               TunnelConfig.unpack_section section = Ok ("web", tunnel_name)
               /\ ("tunnel_name" ∉ options (TunnelConfig.parser_of Samples.three_layers)
                                      section ->
                   fields !! "tunnel_name" = Some tunnel_name))
          (Vocabulary.tunnel_sections_of
             (TunnelConfig.parser_of Samples.three_layers) "web")
          [MoreSamples.http_fields].
Proof.
  destruct three_layers_resolved as (Hr & Hweb & Hsecs).
  apply (tunnel_name_from_section _ _ "web" _ Hr Hweb).
  by rewrite Hsecs.
Defined.

Lemma analysed_groups_witness :
  is_Some (Samples.resolved Samples.three_layers !! "web")
  <-> Vocabulary.tunnel_sections_of
        (TunnelConfig.parser_of Samples.three_layers) "web" <> []
      \/ (Vocabulary.is_group_section
            (TunnelConfig.parser_of Samples.three_layers) "web"
          /\ exists fields,
               Samples.groups_of Samples.three_layers !! "web" = Some fields
               /\ fields <> ∅).
Proof.
  apply (analysed_groups (TunnelConfig.parser_of Samples.three_layers)
           (Samples.common_of Samples.three_layers));
    vm_compute; reflexivity.
Defined.

Lemma analyse_config_returns_witness :
  returns (TunnelConfig._analyse_config (TunnelConfig.parser_of Samples.lone_group)).
Proof.
  apply analyse_config_returns.
  - intros section key Hs Hk.
    apply list_elem_of_singleton in Hs as ->.
    repeat (apply elem_of_cons in Hk as [->|Hk]; [by eexists|]).
    by apply elem_of_nil in Hk.
  - intros section ->%list_elem_of_singleton _ Hslash. done.
Defined.

(* ===================================================================== *)
(** * Further properties of the loading *)
(* ===================================================================== *)

Section LoadMore.
Context `{RT : PyRuntime} `{HO : Host}.
Import TunnelConfig Invariants.


Lemma string_app_assoc (a b c : string) : (a +:+ b) +:+ c = a +:+ (b +:+ c).
Proof.
  induction a as [|x a IH]; [done|].
  change (String x ((a +:+ b) +:+ c) = String x (a +:+ (b +:+ c))).
  by rewrite IH.
Qed.

Lemma string_app_nil_r (a : string) : a +:+ "" = a.
Proof.
  induction a as [|x a IH]; [done|].
  change (String x (a +:+ "") = String x a). by rewrite IH.
Qed.

Lemma process_plain_lines
    (rec_in : string -> string -> option string -> except string)
    (cwd filename : string) (sub_section : option string) (lines : list string)
    (result : string) :
  (forall line, line ∈ lines -> INCLUDE_RE line = None) ->
  process_lines rec_in cwd filename sub_section result lines
  = Ok (result +:+ foldr String.append "" (plain_line sub_section <$> lines)).
Proof.
  revert result. induction lines as [|line lines IH]; intros result Hno.
  - cbn. by rewrite string_app_nil_r.
  - cbn [process_lines]. rewrite (Hno line) by by left.
    rewrite IH by (intros l Hl; apply Hno; by right).
    by rewrite string_app_assoc.
Qed.

Lemma concat_empty_sep (l : list string) :
  String.concat "" l = foldr String.append "" l.
Proof.
  induction l as [|x [|y l] IH]; [done| |].
  - cbn. by rewrite string_app_nil_r.
  - change (String.concat "" (x :: y :: l))
      with (x +:+ "" +:+ String.concat "" (y :: l)).
    rewrite IH. done.
Qed.

Lemma pre_process_file_S (depth : nat) (cwd filename : string)
    (sub_section : option string) :
  _pre_process_file (S depth) cwd filename sub_section
  = (lines ← read_lines cwd filename;
     result' ← process_lines (_pre_process_file depth) cwd filename sub_section
                             (header sub_section) lines;
     match check_ini_content result' filename with
     | Ok _ => Ok result'
     | Raise e => Raise e
     end).
Proof. reflexivity. Qed.

(** X17.  A file opened without subsection, as the configuration file
    itself is, whose lines are plain text, printable ASCII characters,
    tabulations and ends of line, and none of them an include
    directive, is preprocessed into its own text: the lines as they
    were read, one after the other.  That text comes back when the INI
    reader accepts it, and the error of the INI reader when it does
    not. *)
Theorem pre_process_plain_file (depth : nat) (cwd filename : string)
    (lines : list string) :
  read_lines cwd filename = Ok lines ->
  (forall line, line ∈ lines -> Vocabulary.plain_text line = true) ->
  (forall line, line ∈ lines -> INCLUDE_RE line = None) ->
  _pre_process_file (S depth) cwd filename None
  = match check_ini_content (String.concat "" lines) filename with
    | Ok _ => Ok (String.concat "" lines)
    | Raise e => Raise e
    end.
Proof.
  intros Hread _ Hno. rewrite pre_process_file_S, Hread.
  cbn [mbind except_bind]. rewrite process_plain_lines by done.
  cbn [mbind except_bind header].
  assert (Hsame : plain_line None <$> lines = lines).
  { clear. induction lines as [|l ls IH]; [done|]. cbn. by rewrite IH. }
  rewrite Hsame, <- concat_empty_sep.
  change ("" +:+ String.concat "" lines) with (String.concat "" lines).
  done.
Qed.

(** ** Section headers and subsection names *)

Lemma contains_append (c : ascii) (a b : string) :
  PyStr.contains c (a +:+ b) = PyStr.contains c a || PyStr.contains c b.
Proof.
  induction a as [|x a IH]; [done|].
  change (String x a +:+ b) with (String x (a +:+ b)).
  cbn -[Ascii.eqb]. by destruct (Ascii.eqb x c).
Qed.

Lemma rsplit_last_none (c : ascii) (b : string) :
  PyStr.contains c b = false -> Path.rsplit_last c b = None.
Proof.
  induction b as [|x b IH]; cbn -[Ascii.eqb]; [done|].
  destruct (Ascii.eqb x c); [done|]. intros Hb. by rewrite IH.
Qed.

Lemma rsplit_last_at (c : ascii) (a b : string) :
  PyStr.contains c b = false ->
  Path.rsplit_last c (a +:+ String c b) = Some (a, b).
Proof.
  intros Hb. induction a as [|x a IH].
  - change ("" +:+ String c b) with (String c b). cbn -[Ascii.eqb].
    by rewrite rsplit_last_none, Ascii.eqb_refl.
  - change (String x a +:+ String c b) with (String x (a +:+ String c b)).
    cbn -[Ascii.eqb]. by rewrite IH.
Qed.

Lemma until_newline_at (a b : string) :
  PyStr.contains newline a = false ->
  until_newline (a +:+ String newline b) = (a, String newline b).
Proof.
  induction a as [|x a IH].
  - done.
  - change (String x a +:+ String newline b)
      with (String x (a +:+ String newline b)).
    cbn -[Ascii.eqb newline].
    destruct (Ascii.eqb x newline); [done|]. intros Ha. by rewrite IH.
Qed.

Lemma SECTION_RE_header (section : string) :
  PyStr.contains newline section = false ->
  SECTION_RE ("[" +:+ section +:+ "]" +:+ linesep) = Some section.
Proof.
  intros Hs. unfold SECTION_RE.
  change (PyStr.lstrip ("[" +:+ section +:+ "]" +:+ linesep))
    with (String "[" (section +:+ "]" +:+ linesep)).
  replace (section +:+ "]" +:+ linesep)
    with ((section +:+ "]") +:+ String newline "")
    by (by rewrite string_app_assoc).
  rewrite until_newline_at by (by rewrite contains_append, Hs).
  change (section +:+ "]") with (section +:+ String "]" "").
  by rewrite rsplit_last_at.
Qed.

(** X18.  Under a subsection with a name, a line that is a section
    header, an opening bracket, a name without newline, a closing
    bracket and the end of line, comes out with the subsection and a
    slash before the name; without subsection it comes out as it
    is. *)
Theorem plain_line_section_header (sub section : string) :
  sub <> EmptyString ->
  PyStr.contains newline section = false ->
  plain_line (Some sub) ("[" +:+ section +:+ "]" +:+ linesep)
  = "[" +:+ sub +:+ "/" +:+ section +:+ "]" +:+ linesep
  /\ plain_line None ("[" +:+ section +:+ "]" +:+ linesep)
     = "[" +:+ section +:+ "]" +:+ linesep.
Proof.
  intros Hsub Hs. split; [|done].
  unfold plain_line. rewrite SECTION_RE_header by done.
  by destruct sub.
Qed.

Lemma basename_of (dir file : string) :
  PyStr.contains "/" file = false ->
  Path.basename file = file /\ Path.basename (dir +:+ "/" +:+ file) = file.
Proof.
  intros Hf. unfold Path.basename. split.
  - by rewrite rsplit_last_none.
  - change (dir +:+ "/" +:+ file) with (dir +:+ String "/" file).
    by rewrite rsplit_last_at.
Qed.

Lemma splitext_root_of (stem ext : string) :
  PyStr.contains "." ext = false ->
  Path.all_chars (Ascii.eqb ".") stem = false ->
  Path.splitext_root (stem +:+ "." +:+ ext) = stem.
Proof.
  intros He Hs. unfold Path.splitext_root.
  change (stem +:+ "." +:+ ext) with (stem +:+ String "." ext).
  by rewrite rsplit_last_at, Hs.
Qed.

(** X19.  The subsection of an included file is the name of the file
    without its directory and without its extension, after the
    subsection of the including file and a slash if there is one. *)
Theorem included_sub_section (sub_section : option string) (dir stem ext : string) :
  PyStr.contains "/" stem = false -> PyStr.contains "/" ext = false ->
  PyStr.contains "." ext = false ->
  Path.all_chars (Ascii.eqb ".") stem = false ->
  let prefix := match sub_section with
                | None => EmptyString
                | Some sub => sub +:+ "/"
                end in
  sub_sub_section_of sub_section (stem +:+ "." +:+ ext) = prefix +:+ stem
  /\ sub_sub_section_of sub_section (dir +:+ "/" +:+ stem +:+ "." +:+ ext)
     = prefix +:+ stem.
Proof.
  intros Hs He Hdot Hstem prefix. unfold sub_sub_section_of.
  assert (Hfile : PyStr.contains "/" (stem +:+ "." +:+ ext) = false).
  { change (stem +:+ "." +:+ ext) with (stem +:+ String "." ext).
    rewrite contains_append, Hs. cbn. exact He. }
  destruct (basename_of dir _ Hfile) as [-> ->].
  by rewrite splitext_root_of.
Qed.

End LoadMore.


Lemma pre_process_plain_file_witness :
  TunnelConfig._pre_process_file (HO := MoreSamples.one_file_host) 1
    "/etc/sshtunnel" "web.conf" None
  = match check_ini_content (Host := MoreSamples.one_file_host)
            (String.concat ""
               [Samples.nl "remote_port = 80"; Samples.nl "[http]";
                Samples.nl "local_port = 8080"]) "web.conf" with
    | Ok _ => Ok (String.concat ""
                    [Samples.nl "remote_port = 80"; Samples.nl "[http]";
                     Samples.nl "local_port = 8080"])
    | Raise e => Raise e
    end.
Proof.
  apply (pre_process_plain_file (HO := MoreSamples.one_file_host) 0).
  - reflexivity.
  - intros line Hin.
    repeat (apply elem_of_cons in Hin as [->|Hin]; [vm_compute; reflexivity|]).
    by apply elem_of_nil in Hin.
  - intros line Hin.
    repeat (apply elem_of_cons in Hin as [->|Hin]; [vm_compute; reflexivity|]).
    by apply elem_of_nil in Hin.
Defined.

Lemma plain_line_section_header_witness :
  TunnelConfig.plain_line (Some "web") ("[" +:+ "http" +:+ "]" +:+ TunnelConfig.linesep)
  = "[" +:+ "web" +:+ "/" +:+ "http" +:+ "]" +:+ TunnelConfig.linesep
  /\ TunnelConfig.plain_line None ("[" +:+ "http" +:+ "]" +:+ TunnelConfig.linesep)
     = "[" +:+ "http" +:+ "]" +:+ TunnelConfig.linesep.
Proof. by apply (plain_line_section_header "web" "http"). Defined.

Lemma included_sub_section_witness :
  TunnelConfig.sub_sub_section_of (Some "g") ("foo" +:+ "." +:+ "conf")
  = "g/" +:+ "foo"
  /\ TunnelConfig.sub_sub_section_of (Some "g")
       ("conf.d" +:+ "/" +:+ "foo" +:+ "." +:+ "conf")
     = "g/" +:+ "foo".
Proof. by apply (included_sub_section (Some "g") "conf.d" "foo" "conf"). Defined.

(* ===================================================================== *)
(** * Further properties of the handler and of the validators *)
(* ===================================================================== *)

(** X20.  The handler keeps the time stamps of the last three signals
    and no more, however many signals it has handled. *)
Theorem quit_msg_bounded (ts : list Z) :
  KillEventHandler.quit_msg_after ts
  = drop (length ts - KillEventHandler.EVENT_COUNT) ts
  /\ (length (KillEventHandler.quit_msg_after ts)
      <= KillEventHandler.EVENT_COUNT)%nat.
Proof.
  rewrite quit_msg_after_last_three. split; [done|].
  rewrite length_drop. unfold KillEventHandler.EVENT_COUNT. lia.
Qed.

Section NanProps.
Context `{RT : PyRuntime} `{HO : Host}.
Import Builtins TunnelConfig.

Lemma ll_bool_of_float (val : string) (f : pyfloat) :
  float_of_str val = Ok f ->
  ll_bool (PyStr val) = (n ← int_of_float f; Ok ((n =? 0) || (n =? 1))).
Proof.
  intros Hf. unfold ll_bool, ll_float, int_float_in_01. cbn. by rewrite Hf.
Qed.

(** X21.  A value of [reverse] that [float] reads as a NaN or as an
    infinity is not refused as an invalid value: the test that it looks
    like a boolean does not answer, it raises [ValueError] for a NaN
    and [OverflowError] for an infinity, and so does the validation of
    the key. *)
Theorem reverse_nan_raises (d val : string) :
  (float_of_str val = Ok FNan ->
   ll_bool (PyStr val) = Raise ValueError
   /\ check_reverse d val = Raise ValueError)
  /\ (forall negative, float_of_str val = Ok (FInf negative) ->
      ll_bool (PyStr val) = Raise OverflowError
      /\ check_reverse d val = Raise OverflowError).
Proof.
  split.
  - intros Hf. unfold check_reverse. by rewrite (ll_bool_of_float _ _ Hf).
  - intros negative Hf. unfold check_reverse.
    by rewrite (ll_bool_of_float _ _ Hf).
Qed.

End NanProps.

Lemma reverse_nan_raises_witness :
  (ll_bool (RT := MoreSamples.nan_runtime) (PyStr "NaN") = Raise ValueError
   /\ TunnelConfig.check_reverse (RT := MoreSamples.nan_runtime) "d" "NaN"
      = Raise ValueError)
  /\ (ll_bool (RT := MoreSamples.nan_runtime) (PyStr "inf") = Raise OverflowError
      /\ TunnelConfig.check_reverse (RT := MoreSamples.nan_runtime) "d" "inf"
         = Raise OverflowError).
Proof.
  split.
  - apply (reverse_nan_raises (RT := MoreSamples.nan_runtime) "d" "NaN").
    reflexivity.
  - apply (reverse_nan_raises (RT := MoreSamples.nan_runtime) "d" "inf") with false.
    reflexivity.
Defined.

(* ===================================================================== *)
(** * Properties of the utility functions *)
(* ===================================================================== *)

Section UtilProps.
Import Util.

Lemma index_by_loop {A : Type} (key : A -> string) (array : list A)
    (results : gmap string (list A)) (k : string) :
  let results' :=
    foldl (fun results element =>
             <[key element := default [] (results !! key element) ++ [element]]>
               results) results array in
  default [] (results' !! k)
  = default [] (results !! k)
    ++ List.filter (fun element => String.eqb (key element) k) array
  /\ (is_Some (results' !! k)
      <-> is_Some (results !! k)
          \/ List.filter (fun element => String.eqb (key element) k) array <> []).
Proof.
  revert results. induction array as [|e array IH]; intros results; cbn zeta.
  - cbn. rewrite app_nil_r. split; [done|]. split; [by left|by intros [?|?]].
  - cbn [foldl List.filter].
    destruct (IH (<[key e := default [] (results !! key e) ++ [e]]> results))
      as [Hl Hs].
    cbn zeta in Hl, Hs. rewrite Hl, Hs. clear Hl Hs.
    destruct (String.eqb_spec (key e) k) as [->|Hne].
    + rewrite lookup_insert_eq. cbn. rewrite <- app_assoc.
      split; [done|]. split; [by right|by left; eexists].
    + by rewrite lookup_insert_ne.
Qed.

(** X22.  [index_by] gives each key the elements of the array that have
    that key, in the order of the array, and gives no list to a key no
    element has. *)
Theorem index_by_lookup {A : Type} (array : list A) (key : A -> string)
    (k : string) :
  index_by array key !! k
  = match List.filter (fun element => String.eqb (key element) k) array with
    | [] => None
    | group => Some group
    end.
Proof.
  destruct (index_by_loop key array ∅ k) as [Hl Hs].
  cbn zeta in Hl, Hs. fold (index_by array key) in Hl, Hs.
  rewrite lookup_empty in Hl, Hs. cbn in Hl.
  destruct (List.filter _ array) as [|x l] eqn:Hf.
  - destruct (index_by array key !! k) as [g|] eqn:Hk; [|done].
    assert (is_Some (Some g)) as Hg by by eexists.
    apply Hs in Hg as [[]%is_Some_None|?]. done.
  - destruct (index_by array key !! k) as [g|] eqn:Hk.
    + cbn in Hl. by rewrite Hl.
    + assert (is_Some (None : option (list A))) as []%is_Some_None.
      apply Hs. by right.
Qed.

(** ** The order of the strings *)

Lemma ascii_compare_refl (a : ascii) : Ascii.compare a a = Eq.
Proof. unfold Ascii.compare. apply N.compare_refl. Qed.

Lemma ascii_compare_lt_trans (a b c : ascii) :
  Ascii.compare a b = Lt -> Ascii.compare b c = Lt -> Ascii.compare a c = Lt.
Proof.
  unfold Ascii.compare. rewrite !N.compare_lt_iff. apply N.lt_trans.
Qed.

Lemma string_compare_refl (a : string) : String.compare a a = Eq.
Proof.
  induction a as [|x a IH]; cbn; [done|]. by rewrite ascii_compare_refl.
Qed.

Lemma string_compare_lt_trans (a b c : string) :
  String.compare a b = Lt -> String.compare b c = Lt -> String.compare a c = Lt.
Proof.
  revert b c. induction a as [|x a IH]; intros [|y b] [|z c]; cbn; try done.
  destruct (Ascii.compare x y) eqn:Hxy; try done;
    destruct (Ascii.compare y z) eqn:Hyz; try done.
  - apply Ascii.compare_eq_iff in Hxy as ->. rewrite Hyz. apply IH.
  - apply Ascii.compare_eq_iff in Hxy as ->. by rewrite Hyz.
  - apply Ascii.compare_eq_iff in Hyz as <-. by rewrite Hxy.
  - by rewrite (ascii_compare_lt_trans _ _ _ Hxy Hyz).
Qed.

Lemma string_leb_cases (a b : string) :
  String.leb a b = true <-> String.compare a b = Lt \/ a = b.
Proof.
  unfold String.leb. destruct (String.compare a b) eqn:Hc.
  - apply String.compare_eq_iff in Hc as ->. split; [by right|done].
  - split; [by left|done].
  - split; [done|]. intros [?|Heq]; [done|]. subst.
    by rewrite string_compare_refl in Hc.
Qed.

Lemma string_leb_trans (a b c : string) :
  String.leb a b = true -> String.leb b c = true -> String.leb a c = true.
Proof.
  rewrite !string_leb_cases. intros [Hab|Hab] [Hbc|Hbc]; subst; auto.
  left. by eapply string_compare_lt_trans.
Qed.

(** ** unique *)

Lemma insert_sorted_perm (x : string) (l : list string) :
  insert_sorted x l ≡ₚ x :: l.
Proof.
  induction l as [|y l IH]; cbn; [done|].
  destruct (String.leb x y); [done|]. rewrite IH. apply Permutation_swap.
Qed.

Lemma sorted_perm (l : list string) : sorted l ≡ₚ l.
Proof.
  induction l as [|x l IH]; cbn; [done|].
  by rewrite insert_sorted_perm, IH.
Qed.

Lemma insert_sorted_ordered (x : string) (l : list string) :
  StronglySorted (fun a b => String.leb a b = true) l ->
  StronglySorted (fun a b => String.leb a b = true) (insert_sorted x l).
Proof.
  induction l as [|y l IH]; intros Hl; cbn.
  - repeat constructor.
  - apply StronglySorted_inv in Hl as [Hl Hy].
    destruct (String.leb x y) eqn:Hxy.
    + constructor; [by constructor|]. constructor; [done|].
      eapply Forall_impl; [exact Hy|]. intros z Hz.
      by eapply string_leb_trans.
    + constructor; [by apply IH|].
      rewrite insert_sorted_perm. constructor; [|done].
      destruct (String.leb_total x y) as [H|H]; [by rewrite H in Hxy|done].
Qed.

Lemma sorted_ordered (l : list string) :
  StronglySorted (fun a b => String.leb a b = true) (sorted l).
Proof.
  induction l as [|x l IH]; cbn; [constructor|].
  by apply insert_sorted_ordered.
Qed.

(** X23.  [unique] gives the strings of its argument, each once, in
    increasing order. *)
Theorem unique_sorted_set (var : list string) :
  StronglySorted (fun a b => String.leb a b = true) (unique var)
  /\ NoDup (unique var)
  /\ forall x, x ∈ unique var <-> x ∈ var.
Proof.
  unfold unique. split; [apply sorted_ordered|]. split.
  - rewrite sorted_perm. apply NoDup_elements.
  - intros x. rewrite sorted_perm, elem_of_elements.
    apply elem_of_list_to_set.
Qed.

End UtilProps.

(* ===================================================================== *)
(** * Properties of the command line of a tunnel *)
(* ===================================================================== *)

Section CmdProps.
Import Util TunnelCmd.

Lemma starts_with_append (a s : string) : starts_with a (a +:+ s) = true.
Proof.
  induction a as [|x a IH]; [done|].
  change (String x a +:+ s) with (String x (a +:+ s)).
  cbn -[Ascii.eqb]. by rewrite Ascii.eqb_refl.
Qed.

Lemma starts_with_longer (a s q : string) :
  starts_with a s = true -> starts_with a (s +:+ q) = true.
Proof.
  revert s. induction a as [|x a IH]; intros [|y s]; try done.
  change (String y s +:+ q) with (String y (s +:+ q)).
  cbn -[Ascii.eqb]. intros [-> Ha]%andb_prop. by rewrite IH.
Qed.

Lemma str_in_unfold (a s : string) :
  str_in a s = starts_with a s
               || match s with
                  | EmptyString => false
                  | String _ s' => str_in a s'
                  end.
Proof. by destruct s. Qed.

Lemma str_in_longer (a s q : string) :
  str_in a s = true -> str_in a (s +:+ q) = true.
Proof.
  induction s as [|y s IH].
  - rewrite str_in_unfold, orb_false_r. intros Ha.
    rewrite str_in_unfold. by rewrite (starts_with_longer _ _ q Ha).
  - change (String y s +:+ q) with (String y (s +:+ q)).
    rewrite (str_in_unfold a (String y s)), (str_in_unfold a (String y (s +:+ q))).
    intros [Ha|Ha]%orb_prop.
    + change (String y (s +:+ q)) with (String y s +:+ q).
      by rewrite (starts_with_longer _ _ q Ha).
    + rewrite (IH Ha). apply orb_true_r.
Qed.

Lemma str_in_after (a p s : string) :
  str_in a s = true -> str_in a (p +:+ s) = true.
Proof.
  intros Ha. induction p as [|y p IH]; [done|].
  change (String y p +:+ s) with (String y (p +:+ s)).
  rewrite str_in_unfold, IH. apply orb_true_r.
Qed.

Lemma str_in_self (a s : string) : str_in a (a +:+ s) = true.
Proof. by rewrite str_in_unfold, starts_with_append. Qed.

Lemma str_in_join (sep arg : string) (args : list string) :
  arg ∈ args -> str_in arg (PyStr.join sep args) = true.
Proof.
  unfold PyStr.join. induction args as [|x [|y args] IH].
  - by intros ?%elem_of_nil.
  - intros ->%list_elem_of_singleton. cbn.
    rewrite <- (string_app_nil_r x) at 2. apply str_in_self.
  - intros [->|Hin]%elem_of_cons.
    + change (String.concat sep (x :: y :: args))
        with (x +:+ sep +:+ String.concat sep (y :: args)).
      apply str_in_self.
    + change (String.concat sep (x :: y :: args))
        with (x +:+ sep +:+ String.concat sep (y :: args)).
      apply str_in_after, str_in_after. by apply IH.
Qed.

(** X24.  A tunnel is reported as running as soon as the process list
    holds a command line with the arguments of the tunnel one after
    the other, separated by spaces, whatever comes before and after
    them on that line. *)
Theorem is_running_own_command (getuser : except string) (ps_cache : list string)
    (t : Tunnel) (args : list string) (before after : string) :
  generate_autossh_args getuser t = Ok args ->
  (before +:+ PyStr.join " " args +:+ after) ∈ ps_cache ->
  is_running getuser ps_cache t = Ok true.
Proof.
  intros Hargs Hin. unfold is_running. rewrite Hargs. cbn. f_equal.
  apply existsb_exists. exists (before +:+ PyStr.join " " args +:+ after).
  split; [by apply list_elem_of_In|].
  unfold all_args_in. apply forallb_forall. intros arg Harg%list_elem_of_In.
  apply str_in_after, str_in_longer. by apply str_in_join.
Qed.

End CmdProps.

Lemma is_running_own_command_witness :
  TunnelCmd.is_running (Ok "tunnel")
    ["sshd: root@pts/0";
     "/usr/lib/autossh/autossh " +:+ PyStr.join " " CmdSamples.http_args +:+ ""]
    MoreSamples.http_tunnel = Ok true.
Proof.
  apply (is_running_own_command _ _ _ CmdSamples.http_args
           "/usr/lib/autossh/autossh " "").
  - vm_compute. reflexivity.
  - in_list.
Defined.

(* ===================================================================== *)
(** * The values of [reverse] and of [local_address] *)
(* ===================================================================== *)

Section ValueProps.
Context `{RT : PyRuntime} `{HO : Host}.
Import Builtins TunnelConfig.

(** X25.  The value of [reverse].  When [float] reads it, it is
    truncated to an integer: 1 gives true, 0 gives false, so that 1.9
    is true and -0.5 false, and any other integer is refused with a
    [ConfigError].  When [float] refuses it with a [ValueError], it is
    compared, in lower case, with the words for true and for false,
    and refused with a [ConfigError] if it is none of them. *)
Theorem check_reverse_value (d val : string) :
  (forall f n,
      float_of_str val = Ok f -> int_of_float f = Ok n ->
      check_reverse d val
      = if n =? 1 then Ok true
        else if n =? 0 then Ok false
        else Raise (ConfigError ("Invalid value for param 'reverse' of " +:+ d)))
  /\ (float_of_str val = Raise ValueError ->
      check_reverse d val
      = if PyStr.mem (PyStr.lower val) true_words then Ok true
        else if PyStr.mem (PyStr.lower val) false_words then Ok false
        else Raise (ConfigError ("Invalid value for param 'reverse' of " +:+ d))).
Proof.
  split.
  - intros f n Hf Hn. unfold check_reverse.
    rewrite (ll_bool_of_float _ _ Hf), Hn. cbn -[to_bool].
    destruct (Z.eqb_spec n 1) as [->|H1].
    + cbn -[to_bool]. unfold to_bool, ll_float, int_float_in_01. cbn.
      by rewrite Hf; cbn; rewrite Hn.
    + destruct (Z.eqb_spec n 0) as [->|H0]; [|done].
      cbn -[to_bool]. unfold to_bool, ll_float, int_float_in_01. cbn.
      by rewrite Hf; cbn; rewrite Hn.
  - intros Hf. unfold check_reverse, ll_bool, to_bool, ll_float. cbn.
    rewrite Hf. cbn.
    destruct (PyStr.mem (PyStr.lower val) true_words); [done|].
    by destruct (PyStr.mem (PyStr.lower val) false_words).
Qed.


End ValueProps.

Lemma check_reverse_value_witness :
  TunnelConfig.check_reverse (RT := Samples.runtime) "d" "1" = Ok true
  /\ TunnelConfig.check_reverse (RT := Samples.runtime) "d" "Off" = Ok false.
Proof.
  split.
  - apply (proj1 (check_reverse_value (RT := Samples.runtime) "d" "1")
             (FFinite 1 0) 1); reflexivity.
  - apply (proj2 (check_reverse_value (RT := Samples.runtime) "d" "Off")).
    reflexivity.
Defined.


(* ===================================================================== *)
(** * Defaults, and the fields read back *)
(* ===================================================================== *)

Section FieldProps.
Context `{RT : PyRuntime} `{HO : Host}.
Import Builtins TunnelConfig Vocabulary Invariants.

Ltac keeps_tac :=
  intros d c c' key val Hk; unfold check_item, PyStr.mem;
  generalize dependent (PyStr.lower (PyStr.strip key)); intros k Hk;
  repeat match goal with
         | |- context [String.eqb k ?b] =>
             destruct (String.eqb_spec k b) as [Heq|?];
             [try (exfalso; apply Hk; rewrite Heq; solve [in_list])|]
         | |- context [bool_decide (k ∈ ?l)] =>
             destruct (decide (k ∈ l)) as [Hin|?];
             [rewrite (bool_decide_true (k ∈ l)) by done;
              try (exfalso;
                   repeat (apply elem_of_cons in Hin as [Heq|Hin];
                           [apply Hk; rewrite Heq; solve [in_list]|]);
                   by apply elem_of_nil in Hin)
             |rewrite (bool_decide_false (k ∈ l)) by done]
         end;
  try done; try (by intros [= <-]);
  repeat match goal with
         | |- context [if ?b then _ else _] => destruct b
         end;
  try done; try (by intros [= <-]);
  try match goal with
      | |- context [mbind _ ?m] => destruct m; cbn; [by intros [= <-]|done]
      end.

Lemma keeps_ssh_port : keeps c_ssh_port ["ssh_port"].
Proof. keeps_tac. Qed.

Lemma keeps_local_address : keeps c_local_address ["local_address"].
Proof. keeps_tac. Qed.

Lemma keeps_remote_server : keeps c_remote_server ["server"; "remote_server"].
Proof. keeps_tac. Qed.

Lemma keeps_group_name : keeps c_group_name ["group_name"].
Proof. keeps_tac. Qed.

Lemma keeps_reverse : keeps c_reverse ["reverse"].
Proof. keeps_tac. Qed.

Lemma keeps_ssh_user : keeps c_ssh_user ["user"; "ssh_user"].
Proof. keeps_tac. Qed.

Lemma keeps_ssh_key : keeps c_ssh_key ["key"; "ssh_key"].
Proof. keeps_tac. Qed.

Lemma keeps_ssh_options : keeps c_ssh_options ["ssh_options"].
Proof. keeps_tac. Qed.

Lemma keeps_tunnel_name : keeps c_tunnel_name ["tunnel_name"].
Proof. keeps_tac. Qed.

Lemma keeps_remote_port : keeps c_remote_port ["remote_port"].
Proof. keeps_tac. Qed.

Lemma keeps_local_port : keeps c_local_port ["local_port"].
Proof. keeps_tac. Qed.

(** A part the turns on other keys keep is, after the loop, what it
    was before, when the field set has none of its keys. *)
Lemma loop_keeps {X : Type} (part : cleaned -> X) (keys : list string)
    (d : string) (tunnel_config : list (string * string)) (c0 c : cleaned) :
  keeps part keys -> absent keys tunnel_config ->
  foldM (check_item d) c0 tunnel_config = Ok c ->
  part c = part c0.
Proof.
  intros Hkeeps Habsent Hfold.
  refine (foldM_invariant _ (fun c => part c = part c0) c0 _ _ _ eq_refl Hfold).
  intros a [key val] b Hin Ha Hb.
  rewrite (Hkeeps d a b key val); [done| |done].
  by eapply Habsent.
Qed.

Lemma dict_get_Some {V : Type} (d : list (string * V)) (key : string) (v : V) :
  dict_get d key = Some v -> (key, v) ∈ d.
Proof.
  unfold dict_get.
  destruct (List.find _ d) as [[k v']|] eqn:Hfind; [|done].
  intros [= <-]. apply find_some in Hfind as [Hin Hk].
  apply String.eqb_eq in Hk. cbn in Hk. subst k. by apply list_elem_of_In.
Qed.

Lemma dict_get_None {V : Type} (d : list (string * V)) (key : string) :
  dict_get d key = None -> forall v, (key, v) ∉ d.
Proof.
  unfold dict_get.
  destruct (List.find _ d) as [item|] eqn:Hfind; [done|].
  intros _ v Hin%list_elem_of_In.
  apply (find_none _ _ Hfind) in Hin. cbn in Hin.
  by rewrite String.eqb_refl in Hin.
Qed.

(** What [check_tunnel] returns is built from the dictionary the loop
    over the items of the field set ends with. *)
Lemma check_tunnel_loop (group : string) (tunnel_config : list (string * string))
    (t : Tunnel) :
  check_tunnel group tunnel_config = Ok t ->
  exists d c,
    dict_get tunnel_config "tunnel_name" <> None
    /\ foldM (check_item d) (initial_cleaned group) tunnel_config = Ok c
    /\ finish_tunnel d c = Ok t.
Proof.
  unfold check_tunnel.
  destruct (dict_get tunnel_config "tunnel_name") as [tn|]; [|done].
  unfold check_tunnel_items.
  match goal with
  | |- context [foldM ?f ?a ?l] => destruct (foldM f a l) as [c|e] eqn:Hfold
  end; [|done].
  cbn. intros Ht. by eexists _, c.
Qed.

(** X27.  The defaults.  A tunnel built from a field set that has no
    [ssh_port] key uses port 22; with no [local_address], the address
    127.1.1.1; with neither [server] nor [remote_server], the group
    name as its server; with no [group_name], the group it is listed
    under; with no [reverse], it is a forward tunnel; with no user or
    key, it has none; with no [ssh_options], the five keep-alive
    options. *)
Theorem tunnel_defaults (group : string) (tunnel_config : list (string * string))
    (t : Tunnel) :
  check_tunnel group tunnel_config = Ok t ->
  (absent ["ssh_port"] tunnel_config -> ssh_port t = 22)
  /\ (absent ["local_address"] tunnel_config -> local_address t = "127.1.1.1")
  /\ (absent ["server"; "remote_server"] tunnel_config ->
      remote_server t = group)
  /\ (absent ["group_name"] tunnel_config -> group_name t = group)
  /\ (absent ["reverse"] tunnel_config -> is_reverse t = false)
  /\ (absent ["user"; "ssh_user"] tunnel_config -> ssh_user t = None)
  /\ (absent ["key"; "ssh_key"] tunnel_config -> ssh_key t = None)
  /\ (absent ["ssh_options"] tunnel_config ->
      ssh_options t
      = ["-n"; "-o"; "ServerAliveInterval=60"; "-o"; "ServerAliveCountMax=3"]).
Proof.
  intros Ht. apply check_tunnel_loop in Ht as (d & c & _ & Hfold & Ht).
  apply finish_tunnel_Ok in Ht as (_ & _ & _ & _ & ->). cbn.
  repeat split; intros Habsent.
  - apply (loop_keeps _ _ _ _ _ _ keeps_ssh_port Habsent Hfold).
  - apply (loop_keeps _ _ _ _ _ _ keeps_local_address Habsent Hfold).
  - apply (loop_keeps _ _ _ _ _ _ keeps_remote_server Habsent Hfold).
  - apply (loop_keeps _ _ _ _ _ _ keeps_group_name Habsent Hfold).
  - apply (loop_keeps _ _ _ _ _ _ keeps_reverse Habsent Hfold).
  - apply (loop_keeps _ _ _ _ _ _ keeps_ssh_user Habsent Hfold).
  - apply (loop_keeps _ _ _ _ _ _ keeps_ssh_key Habsent Hfold).
  - apply (loop_keeps _ _ _ _ _ _ keeps_ssh_options Habsent Hfold).
Qed.

(** When the keys are distinct, stripped and lowered already, the
    part the key [k] sets is, after the loop, what the turn on [k]
    made it. *)
Lemma loop_reads {X : Type} (part : cleaned -> X) (k : string)
    (R : string -> X -> Prop) (d : string)
    (tunnel_config : list (string * string)) (c0 c : cleaned) (v : string) :
  NoDup tunnel_config.*1 ->
  normalized tunnel_config ->
  keeps part [k] ->
  (forall c c' val, check_item d c (k, val) = Ok c' -> R val (part c')) ->
  (k, v) ∈ tunnel_config ->
  foldM (check_item d) c0 tunnel_config = Ok c ->
  R v (part c).
Proof.
  intros Hnd Hnorm Hkeeps Hsets Hv Hfold.
  apply list_elem_of_split in Hv as (l1 & l2 & ->).
  apply foldM_app_Ok in Hfold as (c1 & _ & Hfold).
  apply foldM_cons_Ok in Hfold as (c2 & Hstep & Hfold).
  rewrite fmap_app, fmap_cons in Hnd.
  apply NoDup_app in Hnd as (_ & _ & Hnd). apply NoDup_cons in Hnd as [Hk _].
  assert (Hpart : part c = part c2); [|rewrite Hpart; by eapply Hsets].
  refine (foldM_invariant _ (fun c => part c = part c2) c2 _ _ _ eq_refl Hfold).
  intros a [key val] b Hin Ha Hb.
  rewrite (Hkeeps d a b key val); [done| |done].
  rewrite (Hnorm key val) by (apply elem_of_app; right; by right).
  intros Heq%list_elem_of_singleton. subst key.
  apply Hk. apply (list_elem_of_fmap_2 fst _ _ Hin).
Qed.

Lemma normalized_absent (k : string) (tunnel_config : list (string * string)) :
  normalized tunnel_config -> (forall v, (k, v) ∉ tunnel_config) ->
  absent [k] tunnel_config.
Proof.
  intros Hnorm Hnone key val Hkey Hin%list_elem_of_singleton.
  rewrite (Hnorm key val Hkey) in Hin. subst key. by apply (Hnone val).
Qed.

Ltac on_key k :=
  unfold check_item;
  change (PyStr.lower (PyStr.strip k)) with k; cbn -[check_port].

(** X28.  The fields read back.  When the keys of a field set are
    distinct, stripped and in lower case already, the tunnel built
    from it has the name under [tunnel_name]; its remote and local
    ports are the integers [int] reads from the values under
    [remote_port] and [local_port], and both keys are there; and when
    the keys [ssh_port], [group_name] and [ssh_options] are there, it
    has the integer, the text and the split words of their values. *)
Theorem tunnel_fields_read_back (group : string)
    (tunnel_config : list (string * string)) (t : Tunnel) :
  NoDup tunnel_config.*1 ->
  normalized tunnel_config ->
  check_tunnel group tunnel_config = Ok t ->
  ("tunnel_name", name t) ∈ tunnel_config
  /\ (exists v, ("remote_port", v) ∈ tunnel_config
                /\ int_of_str v = Ok (remote_port t))
  /\ (exists v, ("local_port", v) ∈ tunnel_config
                /\ int_of_str v = Ok (local_port t))
  /\ (forall v, ("ssh_port", v) ∈ tunnel_config ->
                int_of_str v = Ok (ssh_port t))
  /\ (forall v, ("group_name", v) ∈ tunnel_config -> group_name t = v)
  /\ (forall v, ("ssh_options", v) ∈ tunnel_config ->
                shlex_split v = Ok (ssh_options t)).
Proof.
  intros Hnd Hnorm Ht.
  apply check_tunnel_loop in Ht as (d & c & Hname & Hfold & Ht).
  apply finish_tunnel_Ok in Ht as (Hrp & Hlp & Htn & _ & ->). cbn.
  split; [|split; [|split; [|split; [|split]]]].
  - destruct (dict_get tunnel_config "tunnel_name") as [v|] eqn:Hv; [|done].
    apply dict_get_Some in Hv.
    assert (Heq : c_tunnel_name c = Some v); [|congruence].
    refine (loop_reads c_tunnel_name "tunnel_name" (fun v x => x = Some v)
              d _ _ _ _ Hnd Hnorm keeps_tunnel_name _ Hv Hfold).
    intros a b val. on_key "tunnel_name". by intros [= <-].
  - destruct (dict_get tunnel_config "remote_port") as [v|] eqn:Hv.
    + apply dict_get_Some in Hv. exists v. split; [done|].
      refine (loop_reads c_remote_port "remote_port"
                (fun v x => forall n, x = Some n -> int_of_str v = Ok n)
                d _ _ _ _ Hnd Hnorm keeps_remote_port _ Hv Hfold _ Hrp).
      intros a b val. on_key "remote_port".
      destruct (check_port _ d val) as [p|e] eqn:Hp; cbn; [|done].
      intros [= <-] n [= <-]. by apply check_port_Ok in Hp as [? _].
    + rewrite (loop_keeps _ _ _ _ _ _ keeps_remote_port
                 (normalized_absent _ _ Hnorm (dict_get_None _ _ Hv)) Hfold) in Hrp.
      done.
  - destruct (dict_get tunnel_config "local_port") as [v|] eqn:Hv.
    + apply dict_get_Some in Hv. exists v. split; [done|].
      refine (loop_reads c_local_port "local_port"
                (fun v x => forall n, x = Some n -> int_of_str v = Ok n)
                d _ _ _ _ Hnd Hnorm keeps_local_port _ Hv Hfold _ Hlp).
      intros a b val. on_key "local_port".
      destruct (check_port _ d val) as [p|e] eqn:Hp; cbn; [|done].
      intros [= <-] n [= <-]. by apply check_port_Ok in Hp as [? _].
    + rewrite (loop_keeps _ _ _ _ _ _ keeps_local_port
                 (normalized_absent _ _ Hnorm (dict_get_None _ _ Hv)) Hfold) in Hlp.
      done.
  - intros v Hv.
    refine (loop_reads c_ssh_port "ssh_port" (fun v x => int_of_str v = Ok x)
              d _ _ _ _ Hnd Hnorm keeps_ssh_port _ Hv Hfold).
    intros a b val. on_key "ssh_port".
    destruct (check_port _ d val) as [p|e] eqn:Hp; cbn; [|done].
    intros [= <-]. by apply check_port_Ok in Hp as [? _].
  - intros v Hv.
    refine (loop_reads c_group_name "group_name" (fun v x => x = v)
              d _ _ _ _ Hnd Hnorm keeps_group_name _ Hv Hfold).
    intros a b val. on_key "group_name". by intros [= <-].
  - intros v Hv.
    refine (loop_reads c_ssh_options "ssh_options"
              (fun v x => shlex_split v = Ok x)
              d _ _ _ _ Hnd Hnorm keeps_ssh_options _ Hv Hfold).
    intros a b val. on_key "ssh_options".
    destruct (shlex_split val) as [ws|e]; cbn; [|done]. by intros [= <-].
Qed.

End FieldProps.

Lemma tunnel_defaults_witness :
  ssh_port MoreSamples.http_tunnel = 22
  /\ local_address MoreSamples.http_tunnel = "127.1.1.1"
  /\ remote_server MoreSamples.http_tunnel = "web"
  /\ group_name MoreSamples.http_tunnel = "web"
  /\ is_reverse MoreSamples.http_tunnel = false
  /\ ssh_key MoreSamples.http_tunnel = None.
Proof.
  destruct (tunnel_defaults (RT := Samples.runtime) (HO := MoreSamples.plain_host)
              "web" MoreSamples.http_items MoreSamples.http_tunnel)
    as (H1 & H2 & H3 & H4 & H5 & _ & H7 & _); [vm_compute; reflexivity|].
  split; [|split; [|split; [|split; [|split]]]];
    [apply H1|apply H2|apply H3|apply H4|apply H5|apply H7];
    intros key val Hkey; items_of Hkey; not_in_list.
Defined.

(** The items of the tunnel [http], in the order of the sample and
    with the user first: the tunnel has the same name and ports. *)
Lemma tunnel_fields_read_back_witness :
  ("tunnel_name", name MoreSamples.http_tunnel) ∈ MoreSamples.http_items
  /\ int_of_str (PyRuntime := Samples.runtime) "80"
     = Ok (remote_port MoreSamples.http_tunnel)
  /\ int_of_str (PyRuntime := Samples.runtime) "8080"
     = Ok (local_port MoreSamples.http_tunnel).
Proof.
  destruct (tunnel_fields_read_back (RT := Samples.runtime)
              (HO := MoreSamples.plain_host) "web"
              MoreSamples.http_items MoreSamples.http_tunnel)
    as (H1 & (v & Hv & H2) & (w & Hw & H3) & _).
  - repeat (constructor; [not_in_list|]). constructor.
  - intros key val Hkey. items_of Hkey; reflexivity.
  - vm_compute. reflexivity.
  - apply list_elem_of_In in Hv, Hw. cbn in Hv, Hw.
    assert (v = "80") as ->
      by (repeat (destruct Hv as [Hv|Hv]; [congruence|]); done).
    assert (w = "8080") as ->
      by (repeat (destruct Hw as [Hw|Hw]; [congruence|]); done).
    split; [exact H1|]. split; [exact H2|exact H3].
Defined.
